(** * discord-proxmox-bot: the metrics, threshold-alert and workload-transition engine

    A shallow embedding of [alerts.ts] (collection, threshold evaluation with
    cooldown, workload transition detection, scheduling), of the parts of
    [database.ts] and [proxmox.ts] it calls, and the properties the
    specification states about them.

    Conventions of the embedding.
    - JavaScript numbers that hold measurements (cpu, memory, thresholds) are
      IEEE-754 binary64 values: Rocq's primitive [float].  Numbers that are
      integers by construction (epoch milliseconds, row ids, vmids, HTTP status
      codes) are [Z].
    - Everything outside the process is an oracle of the environment [Env]:
      the system clock, the Proxmox HTTP API and the Discord webhook.  The n-th
      use of an oracle is answered by its value at index n, so that a theorem
      quantified over [Env] holds for every behaviour of the outside world.
    - The process state (module-level variables, the four SQLite tables, the
      console, the requests sent) is the record [World]; the code is written in
      a state monad over it.
    - Built-ins of the JavaScript host whose exact output never decides a
      branch (number formatting, lower-casing, JSON) are taken as the
      interface [JSHost]. *)

From Stdlib Require Import ZArith Floats.PrimFloat Ascii DecimalString.
From stdpp Require Import strings gmap list.

Local Open Scope Z_scope.

(** ** Host built-ins *)

Class JSHost := {
  (** [Number.prototype.toFixed(1)] *)
  toFixed1 : float -> string;
  (** a number inside a template literal *)
  Number_toString : float -> string;
  (** [String.prototype.toLowerCase] *)
  toLowerCase : string -> string;
  (** [JSON.stringify] on a [Record<string, string>] *)
  JSON_stringify : gmap string string -> string;
  (** [JSON.parse]; [None] when it throws *)
  JSON_parse : string -> option (gmap string string);
}.

(** Decimal rendering of an integer-valued number in a template literal. *)
Definition dec (z : Z) : string := NilZero.string_of_int (Z.to_int z).

(** The double quote and the line feed, as one-character strings. *)
Definition dq : string := String "034"%char EmptyString.

Definition lf : string := String "010"%char EmptyString.

(** JavaScript truthiness of a string, an optional string and a number. *)
Definition truthy_string (s : string) : bool :=
  match s with EmptyString => false | _ => true end.

Definition truthy_opt (o : option string) : bool :=
  match o with Some s => truthy_string s | None => false end.

Definition truthy_Z (z : Z) : bool := negb (z =? 0).

(** [a >= b] on numbers: false as soon as one side is NaN. *)
Definition float_ge (a b : float) : bool := PrimFloat.leb b a.

(** ** Calendar rendering of the clock

    [Date.prototype.toISOString] prints UTC as [YYYY-MM-DDTHH:mm:ss.sssZ];
    SQLite's [CURRENT_TIMESTAMP] prints UTC as [YYYY-MM-DD HH:MM:SS].  Both are
    modelled for years 0000 to 9999 from epoch milliseconds. *)

Definition pad (width : nat) (s : string) : string :=
  String.concat "" (replicate (width - String.length s) "0"%string) +:+ s.

(** Days since 1970-01-01 to (year, month, day) of the proleptic Gregorian
    calendar. *)
Definition civil_from_days (days : Z) : Z * Z * Z :=
  let z := days + 719468 in
  let era := z / 146097 in
  let doe := z - era * 146097 in
  let yoe := (doe - doe / 1460 + doe / 36524 - doe / 146096) / 365 in
  let doy := doe - (365 * yoe + yoe / 4 - yoe / 100) in
  let mp := (5 * doy + 2) / 153 in
  let d := doy - (153 * mp + 2) / 5 + 1 in
  let m := if mp <? 10 then mp + 3 else mp - 9 in
  let y := yoe + era * 400 in
  (if m <=? 2 then y + 1 else y, m, d).

Definition date_text (ms : Z) : string :=
  let '(y, m, d) := civil_from_days (ms / 86400000) in
  pad 4 (dec y) +:+ "-" +:+ pad 2 (dec m) +:+ "-" +:+ pad 2 (dec d).

Definition time_text (ms : Z) : string :=
  let s := (ms mod 86400000) / 1000 in
  pad 2 (dec (s / 3600)) +:+ ":" +:+ pad 2 (dec ((s / 60) mod 60)) +:+ ":"
  +:+ pad 2 (dec (s mod 60)).

Definition toISOString (ms : Z) : string :=
  date_text ms +:+ "T" +:+ time_text ms +:+ "." +:+ pad 3 (dec (ms mod 1000)) +:+ "Z".

Definition sqlite_datetime (ms : Z) : string :=
  date_text ms +:+ " " +:+ time_text ms.

(** ** Data model ([types.ts] and the schema of [initDatabase]) *)

Record ProxmoxNode := {
  pn_name : string;
  pn_url : string;
}.

Record Usage := { used : float; total : float; free : float }.

Record ProxmoxNodeStatus := {
  ns_node : string;
  ns_cpu : float;
  ns_memory : Usage;
  ns_disk : Usage;
  ns_uptime : float;
  ns_loadavg : list float;
}.

(** The [data] object of [GET /nodes/{node}/status]. *)
Record RawStatus := {
  raw_cpu : float;
  raw_memory : Usage;
  raw_rootfs : Usage;
  raw_uptime : float;
  raw_loadavg : option (list float);
}.

(** An item of [GET /nodes/{node}/qemu] or [/lxc]; the resource counters of
    [ProxmoxVM] are never read by the engine and are left out. *)
Record RawVM := {
  raw_vmid : Z;
  raw_name : string;
  raw_status : string;
}.

Record ProxmoxVM := {
  vm_vmid : Z;
  vm_name : string;
  vm_status : string;
  vm_type : string;
  vm_node : string;
}.

(** Row of [alert_thresholds]; [enabled] is the INTEGER column. *)
Record AlertThreshold := {
  at_id : Z;
  at_metric : string;
  at_threshold : float;
  at_enabled : Z;
  at_created_at : string;
}.

Record AlertHistory := {
  ah_id : Z;
  ah_metric : string;
  ah_value : float;
  ah_threshold : float;
  ah_message : string;
  ah_created_at : string;
}.

Record MetricHistory := {
  mh_id : Z;
  mh_node : string;
  mh_metric : string;
  mh_value : float;
  mh_created_at : string;
}.

(** A table with an AUTOINCREMENT key: its rows in rowid order and the
    largest id ever handed out. *)
Record Table (A : Type) := { rows : list A; seq : Z }.
Arguments rows {A} _.
Arguments seq {A} _.
Arguments Build_Table {A} _ _.

(** A thrown [Error]: its [name] and its [message]. *)
Record JsError := { err_name : string; err_message : string }.

(** Outcome of a promise, as [Promise.allSettled] reports it. *)
Inductive Settled (A : Type) :=
| Fulfilled (value : A)
| Rejected (reason : JsError).
Arguments Fulfilled {A} _.
Arguments Rejected {A} _.

(** What [fetch] does for one Proxmox request before [proxmoxFetch] looks at it. *)
Inductive HttpResult (A : Type) :=
| HttpOk (data : A)
| HttpNotOk (status : Z) (statusText : string)
| HttpAbort
| HttpFail (e : JsError).
Arguments HttpOk {A} _.
Arguments HttpNotOk {A} _ _.
Arguments HttpAbort {A}.
Arguments HttpFail {A} _.

(** The arguments of one call of [sendDiscordAlert]. *)
Record DiscordAlert := {
  da_title : string;
  da_description : string;
  da_color : Z;
}.

(** One POST to the webhook: the embed and its [timestamp]. *)
Record WebhookPost := {
  wp_embed : DiscordAlert;
  wp_timestamp : string;
}.

Inductive LogLevel := LOG | WARN | ERROR.

Record LogLine := { ll_level : LogLevel; ll_args : list string }.

(** ** The environment and the process state *)

Record Env := {
  (** [export const nodes = parseNodes()] *)
  nodes : list ProxmoxNode;
  (** [process.env.DISCORD_WEBHOOK_URL || ''] *)
  DISCORD_WEBHOOK_URL : string;
  (** the n-th reading of the system clock, in epoch milliseconds *)
  system_clock : nat -> Z;
  (** the Proxmox API, by request round and node *)
  api_status : nat -> ProxmoxNode -> HttpResult RawStatus;
  api_qemu : nat -> ProxmoxNode -> HttpResult (list RawVM);
  api_lxc : nat -> ProxmoxNode -> HttpResult (list RawVM);
  (** when both listings of a node fail in a round: whether the LXC request
      is the one that fails first *)
  lxc_fails_first : nat -> ProxmoxNode -> bool;
  (** the n-th POST to the Discord webhook *)
  webhook_fetch : nat -> Settled unit;
}.

Record World := {
  (** [alerts.ts]: [const alertCooldowns: Map<string, number>] *)
  alertCooldowns : gmap string Z;
  (** [proxmox.ts]: [let lastNodeErrors: Map<string, string>] *)
  lastNodeErrors : gmap string string;
  (** the tables of [bot.db] *)
  alert_thresholds : Table AlertThreshold;
  alert_history : Table AlertHistory;
  metric_history : Table MetricHistory;
  bot_config : gmap string string;
  (** calls of [sendDiscordAlert], POSTs issued, console output *)
  notifier_calls : list DiscordAlert;
  webhook_posts : list WebhookPost;
  console : list LogLine;
  (** how many times the clock and the Proxmox API have been used *)
  clock_reads : nat;
  api_rounds : nat;
}.

(** Field updates of [World]. *)

Definition set_alertCooldowns (v : gmap string Z) (w : World) : World :=
  {| alertCooldowns := v; lastNodeErrors := lastNodeErrors w;
     alert_thresholds := alert_thresholds w;
     alert_history := alert_history w; metric_history := metric_history w;
     bot_config := bot_config w; notifier_calls := notifier_calls w;
     webhook_posts := webhook_posts w; console := console w;
     clock_reads := clock_reads w; api_rounds := api_rounds w |}.

Definition set_lastNodeErrors (v : gmap string string) (w : World) : World :=
  {| alertCooldowns := alertCooldowns w; lastNodeErrors := v;
     alert_thresholds := alert_thresholds w;
     alert_history := alert_history w; metric_history := metric_history w;
     bot_config := bot_config w; notifier_calls := notifier_calls w;
     webhook_posts := webhook_posts w; console := console w;
     clock_reads := clock_reads w; api_rounds := api_rounds w |}.

Definition set_alert_thresholds (v : Table AlertThreshold) (w : World) : World :=
  {| alertCooldowns := alertCooldowns w; lastNodeErrors := lastNodeErrors w;
     alert_thresholds := v; alert_history := alert_history w;
     metric_history := metric_history w; bot_config := bot_config w;
     notifier_calls := notifier_calls w; webhook_posts := webhook_posts w;
     console := console w; clock_reads := clock_reads w;
     api_rounds := api_rounds w |}.

Definition set_alert_history (v : Table AlertHistory) (w : World) : World :=
  {| alertCooldowns := alertCooldowns w; lastNodeErrors := lastNodeErrors w;
     alert_thresholds := alert_thresholds w; alert_history := v;
     metric_history := metric_history w; bot_config := bot_config w;
     notifier_calls := notifier_calls w; webhook_posts := webhook_posts w;
     console := console w; clock_reads := clock_reads w;
     api_rounds := api_rounds w |}.

Definition set_metric_history (v : Table MetricHistory) (w : World) : World :=
  {| alertCooldowns := alertCooldowns w; lastNodeErrors := lastNodeErrors w;
     alert_thresholds := alert_thresholds w;
     alert_history := alert_history w; metric_history := v;
     bot_config := bot_config w; notifier_calls := notifier_calls w;
     webhook_posts := webhook_posts w; console := console w;
     clock_reads := clock_reads w; api_rounds := api_rounds w |}.

Definition set_bot_config (v : gmap string string) (w : World) : World :=
  {| alertCooldowns := alertCooldowns w; lastNodeErrors := lastNodeErrors w;
     alert_thresholds := alert_thresholds w;
     alert_history := alert_history w; metric_history := metric_history w;
     bot_config := v; notifier_calls := notifier_calls w;
     webhook_posts := webhook_posts w; console := console w;
     clock_reads := clock_reads w; api_rounds := api_rounds w |}.

Definition set_notifier_calls (v : list DiscordAlert) (w : World) : World :=
  {| alertCooldowns := alertCooldowns w; lastNodeErrors := lastNodeErrors w;
     alert_thresholds := alert_thresholds w;
     alert_history := alert_history w; metric_history := metric_history w;
     bot_config := bot_config w; notifier_calls := v;
     webhook_posts := webhook_posts w; console := console w;
     clock_reads := clock_reads w; api_rounds := api_rounds w |}.

Definition set_webhook_posts (v : list WebhookPost) (w : World) : World :=
  {| alertCooldowns := alertCooldowns w; lastNodeErrors := lastNodeErrors w;
     alert_thresholds := alert_thresholds w;
     alert_history := alert_history w; metric_history := metric_history w;
     bot_config := bot_config w; notifier_calls := notifier_calls w;
     webhook_posts := v; console := console w; clock_reads := clock_reads w;
     api_rounds := api_rounds w |}.

Definition set_console (v : list LogLine) (w : World) : World :=
  {| alertCooldowns := alertCooldowns w; lastNodeErrors := lastNodeErrors w;
     alert_thresholds := alert_thresholds w;
     alert_history := alert_history w; metric_history := metric_history w;
     bot_config := bot_config w; notifier_calls := notifier_calls w;
     webhook_posts := webhook_posts w; console := v;
     clock_reads := clock_reads w; api_rounds := api_rounds w |}.

Definition set_clock_reads (v : nat) (w : World) : World :=
  {| alertCooldowns := alertCooldowns w; lastNodeErrors := lastNodeErrors w;
     alert_thresholds := alert_thresholds w;
     alert_history := alert_history w; metric_history := metric_history w;
     bot_config := bot_config w; notifier_calls := notifier_calls w;
     webhook_posts := webhook_posts w; console := console w;
     clock_reads := v; api_rounds := api_rounds w |}.

Definition set_api_rounds (v : nat) (w : World) : World :=
  {| alertCooldowns := alertCooldowns w; lastNodeErrors := lastNodeErrors w;
     alert_thresholds := alert_thresholds w;
     alert_history := alert_history w; metric_history := metric_history w;
     bot_config := bot_config w; notifier_calls := notifier_calls w;
     webhook_posts := webhook_posts w; console := console w;
     clock_reads := clock_reads w; api_rounds := v |}.

(** ** The state monad of the process *)

Definition M (A : Type) : Type := World -> A * World.

Definition ret {A} (a : A) : M A := fun w => (a, w).

Definition bind {A B} (m : M A) (k : A -> M B) : M B :=
  fun w => let r := m w in k (fst r) (snd r).

Definition gets {A} (f : World -> A) : M A := fun w => (f w, w).

Definition modify (f : World -> World) : M unit := fun w => (tt, f w).

(** The state a computation leaves and the value it returns. *)
Definition exec {A} (m : M A) (w : World) : World := snd (m w).

Definition eval {A} (m : M A) (w : World) : A := fst (m w).

(** stdpp's monad notations: [x ← m; k] and [m ;; k]. *)
#[global] Instance M_ret : MRet M := @ret.
#[global] Instance M_bind : MBind M := fun A B k m => bind m k.

(** [for (const x of xs) body] *)
Fixpoint forEach {A} (xs : list A) (body : A -> M unit) : M unit :=
  match xs with
  | [] => ret tt
  | x :: xs' => body x ;; forEach xs' body
  end.

(** A [for] loop that carries a local variable. *)
Fixpoint forAcc {A S} (xs : list A) (body : A -> S -> M S) (s : S) : M S :=
  match xs with
  | [] => ret s
  | x :: xs' => s' ← body x s; forAcc xs' body s'
  end.

(** Inside a [try] block: a statement that throws skips the rest. *)
Definition and_then {A B} (m : M (Settled A)) (k : A -> M (Settled B)) : M (Settled B) :=
  r ← m;
  match r with
  | Fulfilled a => k a
  | Rejected e => ret (Rejected e)
  end.

(** A [for] loop inside a [try] block. *)
Fixpoint tryEach {A} (xs : list A) (body : A -> M (Settled unit)) : M (Settled unit) :=
  match xs with
  | [] => ret (Fulfilled tt)
  | x :: xs' => and_then (body x) (fun _ => tryEach xs' body)
  end.

(** [Date.now()]: the next reading of the system clock. *)
Definition Date_now (env : Env) : M Z :=
  fun w => (system_clock env (clock_reads w), set_clock_reads (S (clock_reads w)) w).

Definition console_out (level : LogLevel) (args : list string) : M unit :=
  modify (fun w => set_console (console w ++ [{| ll_level := level; ll_args := args |}]) w).

(** [String(error)]: [Error.prototype.toString]. *)
Definition String_of_error (e : JsError) : string :=
  if truthy_string (err_name e)
  then if truthy_string (err_message e)
       then err_name e +:+ ": " +:+ err_message e
       else err_name e
  else err_message e.

Definition mkError (message : string) : JsError :=
  {| err_name := "Error"; err_message := message |}.

(** ** [database.ts] *)

(** The statements are taken to run on a healthy database file: the only
    failure modelled is the one the bound values can cause.  SQLite binds a
    NaN as NULL, which a [REAL NOT NULL] column refuses, and better-sqlite3
    throws. *)
Definition SqliteError (message : string) : JsError :=
  {| err_name := "SqliteError"; err_message := message |}.

(** SQLite evaluates [DEFAULT CURRENT_TIMESTAMP] on the system clock, to the
    second. *)
Definition CURRENT_TIMESTAMP (env : Env) : M string :=
  now ← Date_now env; ret (sqlite_datetime now).

(** INSERT into a table whose [id] is AUTOINCREMENT. *)
Definition insert_row {A} (mk : Z -> A) (t : Table A) : Table A :=
  {| rows := rows t ++ [mk (seq t + 1)]; seq := seq t + 1 |}.

Definition set_rows {A} (l : list A) (t : Table A) : Table A :=
  {| rows := l; seq := seq t |}.

Definition empty_table {A} : Table A := {| rows := []; seq := 0 |}.

(** [INSERT OR IGNORE INTO alert_thresholds (metric, threshold, enabled)]:
    [metric] is UNIQUE, so the row is dropped when the metric has one. *)
Definition insert_or_ignore_threshold (env : Env)
    (metric : string) (threshold : float) (enabled : Z) : M unit :=
  ths ← gets (fun w => rows (alert_thresholds w));
  if existsb (fun r => String.eqb (at_metric r) metric) ths then ret tt
  else
    created_at ← CURRENT_TIMESTAMP env;
    modify (fun w => set_alert_thresholds
      (insert_row (fun id => {| at_id := id; at_metric := metric;
                                at_threshold := threshold; at_enabled := enabled;
                                at_created_at := created_at |})
                  (alert_thresholds w)) w).

Definition initDatabase (env : Env) : M unit :=
  insert_or_ignore_threshold env "cpu" 80%float 1 ;;
  insert_or_ignore_threshold env "memory" 85%float 1 ;;
  insert_or_ignore_threshold env "disk" 90%float 1 ;;
  console_out LOG ["Database initialized"%string].

Definition getAlertThresholds : M (list AlertThreshold) :=
  gets (fun w => rows (alert_thresholds w)).

Definition getAlertThreshold (metric : string) : M (option AlertThreshold) :=
  gets (fun w => List.find (fun r => String.eqb (at_metric r) metric)
                           (rows (alert_thresholds w))).

(** [UPDATE alert_thresholds SET threshold = ?, enabled = ? WHERE metric = ?];
    [threshold] is [REAL NOT NULL]. *)
Definition updateAlertThreshold (metric : string) (threshold : float) (enabled : bool)
    : M (Settled unit) :=
  ths ← gets (fun w => rows (alert_thresholds w));
  if PrimFloat.is_nan threshold && existsb (fun r => String.eqb (at_metric r) metric) ths
  then ret (Rejected (SqliteError "NOT NULL constraint failed: alert_thresholds.threshold"))
  else
    modify (fun w => set_alert_thresholds
      (set_rows
         (map (fun r => if String.eqb (at_metric r) metric
                        then {| at_id := at_id r; at_metric := at_metric r;
                                at_threshold := threshold;
                                at_enabled := if enabled then 1 else 0;
                                at_created_at := at_created_at r |}
                        else r)
              (rows (alert_thresholds w)))
         (alert_thresholds w)) w) ;;
    ret (Fulfilled tt).

(** [value] and [threshold] are [REAL NOT NULL]; the one call site,
    [checkThresholds], passes them after [currentValue >= threshold] has held,
    so neither is NaN there and the INSERT does not throw. *)
Definition addAlertHistory (env : Env)
    (metric : string) (value threshold : float) (message : string) : M unit :=
  created_at ← CURRENT_TIMESTAMP env;
  modify (fun w => set_alert_history
    (insert_row (fun id => {| ah_id := id; ah_metric := metric; ah_value := value;
                              ah_threshold := threshold; ah_message := message;
                              ah_created_at := created_at |})
                (alert_history w)) w).

Definition addMetricHistory (env : Env) (node metric : string) (value : float)
    : M (Settled unit) :=
  if PrimFloat.is_nan value
  then ret (Rejected (SqliteError "NOT NULL constraint failed: metric_history.value"))
  else
    created_at ← CURRENT_TIMESTAMP env;
    modify (fun w => set_metric_history
      (insert_row (fun id => {| mh_id := id; mh_node := node; mh_metric := metric;
                                mh_value := value; mh_created_at := created_at |})
                  (metric_history w)) w) ;;
    ret (Fulfilled tt).

Definition getConfig (key : string) : M (option string) :=
  gets (fun w => bot_config w !! key).

(** [INSERT OR REPLACE INTO bot_config (key, value)] *)
Definition setConfig (key value : string) : M unit :=
  modify (fun w => set_bot_config (<[key := value]> (bot_config w)) w).

(** [ORDER BY created_at DESC]: TEXT compares bytewise.  Rows with equal
    [created_at] are left in rowid order; SQLite promises no order for them. *)
Fixpoint insert_desc (r : AlertHistory) (l : list AlertHistory) : list AlertHistory :=
  match l with
  | [] => [r]
  | x :: l' =>
      if String.ltb (ah_created_at r) (ah_created_at x)
      then x :: insert_desc r l'
      else r :: l
  end.

Definition order_by_created_at_desc (l : list AlertHistory) : list AlertHistory :=
  foldr insert_desc [] l.

(** [SELECT id FROM alert_history ORDER BY created_at DESC LIMIT n] *)
Definition newest_ids (n : nat) (l : list AlertHistory) : list Z :=
  map ah_id (take n (order_by_created_at_desc l)).

Definition cleanupOldHistory (env : Env) : M unit :=
  now ← Date_now env;
  let weekAgo := toISOString (now - 7 * 24 * 60 * 60 * 1000) in
  (* DELETE FROM metric_history WHERE created_at < ? *)
  modify (fun w => set_metric_history
    (set_rows (List.filter (fun r => negb (String.ltb (mh_created_at r) weekAgo))
                      (rows (metric_history w)))
              (metric_history w)) w) ;;
  (* DELETE FROM alert_history WHERE id NOT IN (... LIMIT 1000) *)
  modify (fun w =>
    let keep := newest_ids 1000 (rows (alert_history w)) in
    set_alert_history
      (set_rows (List.filter (fun r => existsb (Z.eqb (ah_id r)) keep)
                        (rows (alert_history w)))
                (alert_history w)) w).

(** ** [proxmox.ts] *)

Section Proxmox.
Context `{JSHost} (env : Env).

(** [proxmoxFetch]: what the promise settles to, given what [fetch] did.  The
    request itself (URL, token and Cloudflare headers, the 15 s abort timer)
    is the environment's side. *)
Definition proxmoxFetch {T} (node : ProxmoxNode) (r : HttpResult T) : Settled T :=
  match r with
  | HttpOk data => Fulfilled data
  | HttpNotOk status statusText =>
      Rejected (mkError ("Proxmox API error (" +:+ pn_name node +:+ "): "
                         +:+ dec status +:+ " " +:+ statusText))
  | HttpAbort =>
      Rejected (mkError ("Timeout connecting to " +:+ pn_name node +:+ " ("
                         +:+ dec (15000 / 1000) +:+ "s)"))
  | HttpFail e => Rejected e
  end.

Definition getNode (name : option string) : option ProxmoxNode :=
  if negb (truthy_opt name) then head (nodes env)
  else List.find
         (fun n => String.eqb (toLowerCase (pn_name n)) (toLowerCase (default ""%string name)))
         (nodes env).

Definition getNodeNames : list string := map pn_name (nodes env).

Definition undefined_or (o : option string) : string := default "undefined"%string o.

(** [getNodeStatus], answered by request round [round] of the API. *)
Definition getNodeStatus (round : nat) (nodeName : option string) : Settled ProxmoxNodeStatus :=
  match getNode nodeName with
  | None => Rejected (mkError ("Node " +:+ dq +:+ undefined_or nodeName +:+ dq +:+ " not found"))
  | Some node =>
      match proxmoxFetch node (api_status env round node) with
      | Rejected e => Rejected e
      | Fulfilled status =>
          Fulfilled {| ns_node := pn_name node;
                       ns_cpu := PrimFloat.mul (raw_cpu status) 100%float;
                       ns_memory := {| used := used (raw_memory status);
                                       total := total (raw_memory status);
                                       free := free (raw_memory status) |};
                       ns_disk := {| used := used (raw_rootfs status);
                                     total := total (raw_rootfs status);
                                     free := free (raw_rootfs status) |};
                       ns_uptime := raw_uptime status;
                       ns_loadavg := default [0%float; 0%float; 0%float] (raw_loadavg status) |}
      end
  end.

(** [results.filter(r => r.status === 'fulfilled').map(r => r.value)] *)
Definition fulfilled_values {A} (results : list (Settled A)) : list A :=
  omap (fun r => match r with Fulfilled v => Some v | Rejected _ => None end) results.

(** A new request round: every request of one fan-out is answered by the same
    index of the API oracle. *)
Definition next_round : M nat :=
  fun w => (api_rounds w, set_api_rounds (S (api_rounds w)) w).

Definition getAllNodesStatus : M (list ProxmoxNodeStatus) :=
  round ← next_round;
  let results := map (fun node => getNodeStatus round (Some (pn_name node))) (nodes env) in
  ret (fulfilled_values results).

Definition getLastNodeErrors : M (gmap string string) := gets lastNodeErrors.

(** [Promise.all([qemu, lxc])]: it rejects with the rejection that settles
    first, [second_first] telling whether that is the second one when both
    reject. *)
Definition Promise_all2 {A B} (second_first : bool) (a : Settled A) (b : Settled B)
    : Settled (A * B) :=
  match a, b with
  | Fulfilled x, Fulfilled y => Fulfilled (x, y)
  | Rejected e, Fulfilled _ => Rejected e
  | Fulfilled _, Rejected e => Rejected e
  | Rejected e1, Rejected e2 => Rejected (if second_first then e2 else e1)
  end.

Definition to_vm (type : string) (node : ProxmoxNode) (vm : RawVM) : ProxmoxVM :=
  {| vm_vmid := raw_vmid vm; vm_name := raw_name vm; vm_status := raw_status vm;
     vm_type := type; vm_node := pn_name node |}.

(** [allVMs.sort((a, b) => a.vmid - b.vmid)]: a stable sort by vmid. *)
Fixpoint insert_by_vmid (v : ProxmoxVM) (l : list ProxmoxVM) : list ProxmoxVM :=
  match l with
  | [] => [v]
  | x :: l' => if vm_vmid v <=? vm_vmid x then v :: l else x :: insert_by_vmid v l'
  end.

Definition sort_by_vmid (l : list ProxmoxVM) : list ProxmoxVM := foldr insert_by_vmid [] l.

(** Body of the loop over [targetNodes] in [getVMs]. *)
Definition getVMs_body (node : ProxmoxNode) (allVMs : list ProxmoxVM) : M (list ProxmoxVM) :=
  console_out LOG ["Fetching VMs from node " +:+ dq +:+ pn_name node +:+ dq +:+ " via /nodes/"
                   +:+ pn_name node +:+ "/qemu and /nodes/" +:+ pn_name node +:+ "/lxc"] ;;
  round ← next_round;
  match Promise_all2 (lxc_fails_first env round node)
                     (proxmoxFetch node (api_qemu env round node))
                     (proxmoxFetch node (api_lxc env round node)) with
  | Fulfilled (qemu, lxc) =>
      console_out LOG ["Node " +:+ dq +:+ pn_name node +:+ dq +:+ ": Found "
                       +:+ dec (Z.of_nat (length qemu)) +:+ " QEMU VMs, "
                       +:+ dec (Z.of_nat (length lxc)) +:+ " LXC containers"] ;;
      ret (allVMs ++ map (to_vm "qemu" node) qemu ++ map (to_vm "lxc" node) lxc)
  | Rejected error =>
      let errorMsg := if truthy_string (err_message error)
                      then err_message error else String_of_error error in
      console_out ERROR ["Failed to get VMs from " +:+ dq +:+ pn_name node +:+ dq +:+ ":"; errorMsg] ;;
      modify (fun w => set_lastNodeErrors (<[pn_name node := errorMsg]> (lastNodeErrors w)) w) ;;
      ret allVMs
  end.

Definition getVMs (nodeName : option string) : M (list ProxmoxVM) :=
  let targetNodes := if truthy_opt nodeName
                     then match getNode nodeName with Some n => [n] | None => [] end
                     else nodes env in
  modify (set_lastNodeErrors ∅) ;;
  allVMs ← forAcc targetNodes getVMs_body [];
  errors ← gets lastNodeErrors;
  (if bool_decide (length allVMs = 0%nat) && bool_decide (0 < size errors)%nat
   then console_out WARN ["No VMs found and " +:+ dec (Z.of_nat (size errors))
                          +:+ " node(s) had errors. Check PROXMOX_NODE configuration."]
   else ret tt) ;;
  ret (sort_by_vmid allVMs).

End Proxmox.

(** ** [alerts.ts] *)

Section Alerts.
Context `{JSHost} (env : Env).

Definition COOLDOWN_MS : Z := 15 * 60 * 1000.

(** [new Date().toISOString()] *)
Definition new_Date_toISOString : M string :=
  now ← Date_now env; ret (toISOString now).

(** [await fetch(DISCORD_WEBHOOK_URL, ...)]: the POST is issued and the
    environment settles it. *)
Definition fetch_webhook (embed : DiscordAlert) (timestamp : string) : M (Settled unit) :=
  fun w => (webhook_fetch env (length (webhook_posts w)),
            set_webhook_posts
              (webhook_posts w ++ [{| wp_embed := embed; wp_timestamp := timestamp |}]) w).

Definition sendDiscordAlert (title description : string) (color : Z) : M unit :=
  modify (fun w => set_notifier_calls
    (notifier_calls w ++ [{| da_title := title; da_description := description;
                             da_color := color |}]) w) ;;
  if negb (truthy_string (DISCORD_WEBHOOK_URL env))
  then console_out WARN ["Discord webhook URL not configured"%string]
  else
    (* try *)
    timestamp ← new_Date_toISOString;
    r ← fetch_webhook {| da_title := title; da_description := description;
                         da_color := color |} timestamp;
    match r with
    | Fulfilled _ => console_out LOG ["Alert: " +:+ title]
    | Rejected error =>
        (* catch (error) *)
        console_out ERROR ["Failed to send alert:"%string; String_of_error error]
    end.

Definition getCooldownKey (node metric : string) : string := node +:+ ":" +:+ metric.

Definition isOnCooldown (node metric : string) : M bool :=
  let key := getCooldownKey node metric in
  lastAlert ← gets (fun w => alertCooldowns w !! key);
  match lastAlert with
  | None => ret false
  | Some lastAlert =>
      if negb (truthy_Z lastAlert) then ret false
      else now ← Date_now env; ret (now - lastAlert <? COOLDOWN_MS)
  end.

Definition setCooldown (node metric : string) : M unit :=
  now ← Date_now env;
  modify (fun w => set_alertCooldowns (<[getCooldownKey node metric := now]> (alertCooldowns w)) w).

Definition percent (u : Usage) : float := PrimFloat.mul (PrimFloat.div (used u) (total u)) 100%float.

Definition collectMetrics_body (status : ProxmoxNodeStatus) : M (Settled unit) :=
  let memPercent := percent (ns_memory status) in
  let diskPercent := percent (ns_disk status) in
  and_then (addMetricHistory env (ns_node status) "cpu" (ns_cpu status)) (fun _ =>
  and_then (addMetricHistory env (ns_node status) "memory" memPercent) (fun _ =>
  addMetricHistory env (ns_node status) "disk" diskPercent)).

(** The [try] block holds the fetch, which never rejects, and the loop. *)
Definition collectMetrics : M unit :=
  nodesStatus ← getAllNodesStatus env;
  r ← tryEach nodesStatus collectMetrics_body;
  match r with
  | Fulfilled _ => ret tt
  | Rejected error =>
      (* catch (error) *)
      console_out ERROR ["Error collecting metrics:"%string; String_of_error error]
  end.

(** The [switch (threshold.metric)]: [currentValue] and [metricName]. *)
Definition switch_metric (status : ProxmoxNodeStatus) (metric : string) : float * string :=
  if String.eqb metric "cpu" then (ns_cpu status, "CPU"%string)
  else if String.eqb metric "memory" then (percent (ns_memory status), "RAM"%string)
  else if String.eqb metric "disk" then (percent (ns_disk status), "Disk"%string)
  else (0%float, EmptyString).

(** Body of the inner loop of [checkThresholds]: one node and one threshold row. *)
Definition checkThresholds_body (status : ProxmoxNodeStatus) (threshold : AlertThreshold) : M unit :=
  if negb (truthy_Z (at_enabled threshold)) then ret tt (* continue *)
  else
    let currentValue := fst (switch_metric status (at_metric threshold)) in
    let metricName := snd (switch_metric status (at_metric threshold)) in
    if float_ge currentValue (at_threshold threshold) then
      onCooldown ← isOnCooldown (ns_node status) (at_metric threshold);
      if negb onCooldown then
        let message := metricName +:+ " on " +:+ ns_node status +:+ ": "
                       +:+ toFixed1 currentValue +:+ "% (threshold: "
                       +:+ Number_toString (at_threshold threshold) +:+ "%)" in
        addAlertHistory env (at_metric threshold) currentValue (at_threshold threshold) message ;;
        sendDiscordAlert
          ("⚠️ " +:+ metricName +:+ " Alert")
          ("**" +:+ ns_node status +:+ "** exceeded threshold" +:+ lf +:+ metricName
           +:+ ": **" +:+ toFixed1 currentValue +:+ "%** / "
           +:+ Number_toString (at_threshold threshold) +:+ "%")
          0xffaa00 ;;
        setCooldown (ns_node status) (at_metric threshold)
      else ret tt
    else ret tt.

(** *** The iteration at its [await]

    [checkThresholds] is an async function: at [await sendDiscordAlert(...)]
    it gives the event loop back, and another flow (the start-up run beside
    the cron callback, or a second cron callback) can run until the POST has
    settled.  The iteration is cut here in the two parts that run without
    interruption. *)

(** What the iteration waits for. *)
Inductive Pending :=
| PendingFetch (title : string) (outcome : Settled unit)
    (* the POST is out; [outcome] is how it settles *)
| PendingReturn.
    (* [sendDiscordAlert] returned at its guard *)

(** [sendDiscordAlert] up to its [await fetch(...)]. *)
Definition sendDiscordAlert_issue (title description : string) (color : Z) : M Pending :=
  modify (fun w => set_notifier_calls
    (notifier_calls w ++ [{| da_title := title; da_description := description;
                             da_color := color |}]) w) ;;
  if negb (truthy_string (DISCORD_WEBHOOK_URL env))
  then console_out WARN ["Discord webhook URL not configured"%string] ;; ret PendingReturn
  else
    timestamp ← new_Date_toISOString;
    r ← fetch_webhook {| da_title := title; da_description := description;
                         da_color := color |} timestamp;
    ret (PendingFetch title r).

(** [sendDiscordAlert] from the settled POST on. *)
Definition sendDiscordAlert_settle (p : Pending) : M unit :=
  match p with
  | PendingReturn => ret tt
  | PendingFetch title (Fulfilled _) => console_out LOG ["Alert: " +:+ title]
  | PendingFetch _ (Rejected error) =>
      console_out ERROR ["Failed to send alert:"%string; String_of_error error]
  end.

(** The iteration up to its [await]; [None] when it ends without one. *)
Definition checkThresholds_body_until_await (status : ProxmoxNodeStatus)
    (threshold : AlertThreshold) : M (option Pending) :=
  if negb (truthy_Z (at_enabled threshold)) then ret None
  else
    let currentValue := fst (switch_metric status (at_metric threshold)) in
    let metricName := snd (switch_metric status (at_metric threshold)) in
    if float_ge currentValue (at_threshold threshold) then
      onCooldown ← isOnCooldown (ns_node status) (at_metric threshold);
      if negb onCooldown then
        let message := metricName +:+ " on " +:+ ns_node status +:+ ": "
                       +:+ toFixed1 currentValue +:+ "% (threshold: "
                       +:+ Number_toString (at_threshold threshold) +:+ "%)" in
        addAlertHistory env (at_metric threshold) currentValue (at_threshold threshold) message ;;
        p ← sendDiscordAlert_issue
              ("⚠️ " +:+ metricName +:+ " Alert")
              ("**" +:+ ns_node status +:+ "** exceeded threshold" +:+ lf +:+ metricName
               +:+ ": **" +:+ toFixed1 currentValue +:+ "%** / "
               +:+ Number_toString (at_threshold threshold) +:+ "%")
              0xffaa00;
        ret (Some p)
      else ret None
    else ret None.

(** The iteration from the settled POST on. *)
Definition checkThresholds_body_after_await (status : ProxmoxNodeStatus)
    (threshold : AlertThreshold) (p : Pending) : M unit :=
  sendDiscordAlert_settle p ;;
  setCooldown (ns_node status) (at_metric threshold).

(** The two nested loops, over the batch and the rows read at the start. *)
Definition checkThresholds_loop (nodesStatus : list ProxmoxNodeStatus)
    (thresholds : list AlertThreshold) : M unit :=
  forEach nodesStatus (fun status =>
    forEach thresholds (fun threshold => checkThresholds_body status threshold)).

(** Nothing inside the [try] block of [checkThresholds] throws: the fetch
    never rejects, [sendDiscordAlert] catches its own errors, and the values
    given to [addAlertHistory] are numbers. *)
Definition checkThresholds : M unit :=
  nodesStatus ← getAllNodesStatus env;
  thresholds ← getAlertThresholds;
  checkThresholds_loop nodesStatus thresholds.

Definition vm_key (vm : ProxmoxVM) : string := vm_node vm +:+ ":" +:+ dec (vm_vmid vm).

(** [vm.name || `VM ${vm.vmid}`] *)
Definition vm_label (vm : ProxmoxVM) : string :=
  if truthy_string (vm_name vm) then vm_name vm else "VM " +:+ dec (vm_vmid vm).

(** Body of the loop of [checkVMStatus]; [currentStatesMap] is the loop's
    local variable. *)
Definition checkVMStatus_body (prevStatesMap : gmap string string)
    (vm : ProxmoxVM) (currentStatesMap : gmap string string) : M (gmap string string) :=
  let key := vm_key vm in
  let currentStatesMap := <[key := vm_status vm]> currentStatesMap in
  (if bool_decide (prevStatesMap !! key = Some "running"%string)
      && String.eqb (vm_status vm) "stopped"
   then sendDiscordAlert "🔴 VM Stopped" ("**" +:+ vm_label vm +:+ "** on " +:+ vm_node vm) 0xff0000
   else ret tt) ;;
  (if bool_decide (prevStatesMap !! key = Some "stopped"%string)
      && String.eqb (vm_status vm) "running"
   then sendDiscordAlert "🟢 VM Started" ("**" +:+ vm_label vm +:+ "** on " +:+ vm_node vm) 0x00ff00
   else ret tt) ;;
  ret currentStatesMap.

(** In the [try] block of [checkVMStatus] only [JSON.parse] can throw. *)
Definition checkVMStatus : M unit :=
  vms ← getVMs env None;
  previousStates ← getConfig "vm_states";
  match (if truthy_opt previousStates
         then JSON_parse (default EmptyString previousStates)
         else Some ∅) with
  | None =>
      (* JSON.parse threw: catch (error) *)
      console_out ERROR ["Error checking VM status:"%string; "SyntaxError"%string]
  | Some prevStatesMap =>
      currentStatesMap ← forAcc vms (checkVMStatus_body prevStatesMap) ∅;
      setConfig "vm_states" (JSON_stringify currentStatesMap)
  end.

(** The callback of [cron.schedule(CHECK_INTERVAL, ...)]. *)
Definition scheduled_check : M unit :=
  console_out LOG ["🔍 Running checks..."%string] ;;
  collectMetrics ;;
  checkThresholds ;;
  checkVMStatus ;;
  cleanupOldHistory env.

(** The callback of the start-up [setTimeout], when it finishes within its
    30 s race. *)
Definition initial_collection : M unit :=
  console_out LOG ["Initial data collection..."%string] ;;
  collectMetrics ;;
  checkThresholds ;;
  checkVMStatus ;;
  console_out LOG ["Initial data collection complete"%string].

End Alerts.

(** ** More of [database.ts] *)

(** [LIMIT ?]: a negative limit is no limit in SQLite. *)
Definition sql_limit {A} (limit : Z) (l : list A) : list A :=
  if limit <? 0 then l else take (Z.to_nat limit) l.

(** [getAlertHistory(limit = 10)] *)
Definition getAlertHistory (limit : option Z) : M (list AlertHistory) :=
  gets (fun w => sql_limit (default 10 limit)
                   (order_by_created_at_desc (rows (alert_history w)))).

(** [getLastAlert]: [WHERE metric = ? ORDER BY created_at DESC LIMIT 1] *)
Definition getLastAlert (metric : string) : M (option AlertHistory) :=
  gets (fun w => head (order_by_created_at_desc
                         (List.filter (fun r => String.eqb (ah_metric r) metric)
                                      (rows (alert_history w))))).

(** [ORDER BY created_at ASC] on [metric_history]; rows with equal
    [created_at] are left in rowid order. *)
Fixpoint insert_asc (r : MetricHistory) (l : list MetricHistory) : list MetricHistory :=
  match l with
  | [] => [r]
  | x :: l' =>
      if String.ltb (mh_created_at x) (mh_created_at r)
      then x :: insert_asc r l'
      else r :: l
  end.

Definition order_by_created_at_asc (l : list MetricHistory) : list MetricHistory :=
  foldr insert_asc [] l.

(** [getMetricHistory(node, metric, hours = 24)]: [hours] is one of the
    integer choices of the [/graph] command. *)
Definition getMetricHistory (env : Env) (node metric : string) (hours : option Z)
    : M (list MetricHistory) :=
  now ← Date_now env;
  let since := toISOString (now - default 24 hours * 60 * 60 * 1000) in
  gets (fun w => order_by_created_at_asc
    (List.filter (fun r => String.eqb (mh_node r) node && String.eqb (mh_metric r) metric
                           && String.ltb since (mh_created_at r))
                 (rows (metric_history w)))).

(** ** More of [proxmox.ts] *)

Section ProxmoxMore.
Context `{JSHost} (env : Env).

(** [vms.find(vm => vm.vmid === vmid) || null] *)
Definition getVM (vmid : Z) (nodeName : option string) : M (option ProxmoxVM) :=
  vms ← getVMs env nodeName;
  ret (List.find (fun vm => vm_vmid vm =? vmid) vms).

(** The object [testNodeConnection] resolves to; [None] is an absent field. *)
Record ConnectionTest := {
  ct_node : string;
  ct_success : bool;
  ct_responseTimeMs : option Z;
  ct_qemuCount : option Z;
  ct_lxcCount : option Z;
  ct_error : option string;
}.

Definition testNodeConnection (nodeName : option string) : M ConnectionTest :=
  match getNode env nodeName with
  | None =>
      ret {| ct_node := if truthy_opt nodeName then default EmptyString nodeName
                        else "unknown"%string;
             ct_success := false; ct_responseTimeMs := None;
             ct_qemuCount := None; ct_lxcCount := None;
             ct_error := Some "Node not found in configuration"%string |}
  | Some node =>
      startTime ← Date_now env;
      round ← next_round;
      match Promise_all2 (lxc_fails_first env round node)
                         (proxmoxFetch node (api_qemu env round node))
                         (proxmoxFetch node (api_lxc env round node)) with
      | Fulfilled (qemu, lxc) =>
          endTime ← Date_now env;
          ret {| ct_node := pn_name node; ct_success := true;
                 ct_responseTimeMs := Some (endTime - startTime);
                 ct_qemuCount := Some (Z.of_nat (length qemu));
                 ct_lxcCount := Some (Z.of_nat (length lxc));
                 ct_error := None |}
      | Rejected error =>
          endTime ← Date_now env;
          ret {| ct_node := pn_name node; ct_success := false;
                 ct_responseTimeMs := Some (endTime - startTime);
                 ct_qemuCount := None; ct_lxcCount := None;
                 ct_error := Some (if truthy_string (err_message error)
                                   then err_message error else String_of_error error) |}
      end
  end.

End ProxmoxMore.

(** [formatUptime], on a whole number of seconds: [Math.floor] of a quotient
    is [Z.div], [%] is the truncated remainder [Z.rem], and [`${n}`] prints
    the digits of [n].  This holds for the integers a number holds exactly,
    those below 2^53 in absolute value; beyond them the quotients of the
    source are rounded and large numbers print with an exponent: [None], not
    modelled. *)
Definition uptime_days (seconds : Z) : Z := seconds / 86400.

Definition uptime_hours (seconds : Z) : Z := Z.rem seconds 86400 / 3600.

Definition uptime_minutes (seconds : Z) : Z := Z.rem seconds 3600 / 60.

Definition formatUptime (seconds : Z) : option string :=
  if Z.abs seconds <? 2 ^ 53 then
    let days := uptime_days seconds in
    let hours := uptime_hours seconds in
    let minutes := uptime_minutes seconds in
    let parts :=
      (if 0 <? days then [dec days +:+ "d"] else [])
      ++ (if 0 <? hours then [dec hours +:+ "h"] else [])
      ++ (if 0 <? minutes then [dec minutes +:+ "m"] else []) in
    Some (if truthy_string (String.concat " " parts) then String.concat " " parts
          else "< 1m"%string)
  else None.

(** ** The [/setalert] command of the front end *)

Section Commands.
Context `{JSHost}.
(** [String.prototype.toUpperCase] *)
Variable toUpperCase : string -> string.

(** [handleSetAlert(metric, threshold, enabled?)]; what the UPDATE throws goes
    on to the caller. *)
Definition handleSetAlert (metric : string) (threshold : float) (enabled : option bool)
    : M (Settled string) :=
  let isEnabled := default true enabled in
  r ← updateAlertThreshold metric threshold isEnabled;
  match r with
  | Rejected error => ret (Rejected error)
  | Fulfilled _ =>
      ret (Fulfilled ("✅ **" +:+ toUpperCase metric +:+ "** threshold set to **"
                      +:+ Number_toString threshold +:+ "%** ("
                      +:+ (if isEnabled then "enabled" else "disabled") +:+ ")"))
  end.

End Commands.

(** [formatBytes]: the [while] loop divides at most [units.length - 1 = 4]
    times, the unit index going up by one each time. *)
Definition units : list string := ["B"; "KB"; "MB"; "GB"; "TB"]%string.

Fixpoint formatBytes_loop (fuel : nat) (value : float) (unitIndex : nat) : float * nat :=
  match fuel with
  | O => (value, unitIndex)
  | S fuel' =>
      if float_ge value 1024%float && (unitIndex <? length units - 1)%nat
      then formatBytes_loop fuel' (PrimFloat.div value 1024%float) (S unitIndex)
      else (value, unitIndex)
  end.

Definition formatBytes `{JSHost} (bytes : float) : string :=
  let '(value, unitIndex) := formatBytes_loop (length units - 1) bytes 0 in
  toFixed1 value +:+ " " +:+ nth unitIndex units "undefined"%string.

(** ** More of the front end *)

(** A value read from a property of an object; [None] is [undefined]. *)
Inductive JsValue :=
| JsInt (z : Z)
| JsNumber (x : float)
| JsString (s : string)
| JsBoolean (b : bool).

(** The properties of a row of [alert_history] as [SELECT *] returns it. *)
Definition AlertHistory_get (h : AlertHistory) (property : string) : option JsValue :=
  if String.eqb property "id" then Some (JsInt (ah_id h))
  else if String.eqb property "metric" then Some (JsString (ah_metric h))
  else if String.eqb property "value" then Some (JsNumber (ah_value h))
  else if String.eqb property "threshold" then Some (JsNumber (ah_threshold h))
  else if String.eqb property "message" then Some (JsString (ah_message h))
  else if String.eqb property "created_at" then Some (JsString (ah_created_at h))
  else None.

(** The card a command answers with: title, colour, the time of
    [setTimestamp()] and the description. *)
Record Embed := {
  eb_title : string;
  eb_color : Z;
  eb_timestamp : Z;
  eb_description : option string;
}.

Definition setDescription (description : string) (e : Embed) : Embed :=
  {| eb_title := eb_title e; eb_color := eb_color e; eb_timestamp := eb_timestamp e;
     eb_description := Some description |}.

Definition setColor (color : Z) (e : Embed) : Embed :=
  {| eb_title := eb_title e; eb_color := color; eb_timestamp := eb_timestamp e;
     eb_description := eb_description e |}.

(** [String.prototype.replace] of the first occurrence of a character. *)
Fixpoint replace_first (c d : ascii) (s : string) : string :=
  match s with
  | EmptyString => EmptyString
  | String x s' => if Ascii.eqb x c then String d s' else String x (replace_first c d s')
  end.

(** [array.map(f)] with a callback that may throw. *)
Fixpoint try_map {A B} (f : A -> Settled B) (l : list A) : Settled (list B) :=
  match l with
  | [] => Fulfilled []
  | x :: l' =>
      match f x with
      | Rejected e => Rejected e
      | Fulfilled y =>
          match try_map f l' with
          | Rejected e => Rejected e
          | Fulfilled ys => Fulfilled (y :: ys)
          end
      end
  end.

Section FrontEnd.
Context `{JSHost} (env : Env).
(** [Date.parse] of a text and the time value of a number; [None] is NaN. *)
Variable Date_parse : string -> option Z.
Variable TimeClip : float -> option Z.

(** [`${value}`] *)
Definition template (v : option JsValue) : string :=
  match v with
  | None => "undefined"
  | Some (JsInt z) => dec z
  | Some (JsNumber x) => Number_toString x
  | Some (JsString s) => s
  | Some (JsBoolean b) => if b then "true" else "false"
  end.

Definition truthy_value (v : option JsValue) : bool :=
  match v with
  | None => false
  | Some (JsInt z) => truthy_Z z
  | Some (JsNumber x) => negb (PrimFloat.eqb x 0%float) && PrimFloat.eqb x x
  | Some (JsString s) => truthy_string s
  | Some (JsBoolean b) => b
  end.

(** [new Date(value)]: its time value, [None] for an invalid date. *)
Definition new_Date (v : option JsValue) : option Z :=
  match v with
  | None => None
  | Some (JsInt z) => if Z.abs z <=? 8640000000000000 then Some z else None
  | Some (JsNumber x) => TimeClip x
  | Some (JsString s) => Date_parse s
  | Some (JsBoolean b) => Some (if b then 1 else 0)
  end.

(** [Date.prototype.toISOString] throws on an invalid date. *)
Definition Date_toISOString (d : option Z) : Settled string :=
  match d with
  | None => Rejected {| err_name := "RangeError"; err_message := "Invalid time value" |}
  | Some t => Fulfilled (toISOString t)
  end.

(** [handleAlertsHistory()] *)
Definition handleAlertsHistory : M (Settled Embed) :=
  history ← getAlertHistory (Some 10);
  timestamp ← Date_now env;
  let embed := {| eb_title := "Alert History"; eb_color := 0x2f3136;
                  eb_timestamp := timestamp; eb_description := None |} in
  if (length history =? 0)%nat then ret (Fulfilled (setDescription "No alerts" embed))
  else
    let lines := try_map (fun h =>
      match Date_toISOString (new_Date (AlertHistory_get h "timestamp")) with
      | Rejected e => Rejected e
      | Fulfilled iso =>
          let date := replace_first "T" " " (String.substring 0 16 iso) in
          Fulfilled ("`" +:+ date +:+ "` " +:+ template (AlertHistory_get h "message"))
      end) history in
    match lines with
    | Rejected e => ret (Rejected e)
    | Fulfilled lines => ret (Fulfilled (setDescription (String.concat lf lines) embed))
    end.

(** The properties of the object [testNodeConnection] resolves to. *)
Definition ConnectionTest_get (r : ConnectionTest) (property : string) : option JsValue :=
  if String.eqb property "node" then Some (JsString (ct_node r))
  else if String.eqb property "success" then Some (JsBoolean (ct_success r))
  else if String.eqb property "responseTimeMs" then JsInt <$> ct_responseTimeMs r
  else if String.eqb property "qemuCount" then JsInt <$> ct_qemuCount r
  else if String.eqb property "lxcCount" then JsInt <$> ct_lxcCount r
  else if String.eqb property "error" then JsString <$> ct_error r
  else None.

(** Body of the loop over [nodeNames] in [handleTestProxmox]. *)
Definition handleTestProxmox_body (nodeName : string) (acc : list string * Embed)
    : M (list string * Embed) :=
  let '(results, embed) := acc in
  r ← testNodeConnection env (Some nodeName);
  if truthy_value (ConnectionTest_get r "success")
  then ret (results ++ ["✅ **" +:+ nodeName +:+ "** │ "
                        +:+ template (ConnectionTest_get r "responseTime") +:+ "ms │ "
                        +:+ template (ConnectionTest_get r "vmCount") +:+ " VMs │ CF: "
                        +:+ (if truthy_value (ConnectionTest_get r "cfAccess")
                             then "Yes" else "No")],
            embed)
  else ret (results ++ ["❌ **" +:+ nodeName +:+ "** │ "
                        +:+ template (ConnectionTest_get r "error")],
            setColor 0xff0000 embed).

(** [handleTestProxmox()] *)
Definition handleTestProxmox : M Embed :=
  timestamp ← Date_now env;
  let embed := {| eb_title := "API Test"; eb_color := 0x2f3136;
                  eb_timestamp := timestamp; eb_description := None |} in
  let nodeNames := getNodeNames env in
  if (length nodeNames =? 0)%nat
  then ret (setDescription
              ("❌ No nodes configured" +:+ lf
               +:+ "Check `.env`: `PROXMOX_URL`, `PROXMOX_TOKEN_ID`, `PROXMOX_TOKEN_SECRET`")
              (setColor 0xff0000 embed))
  else
    acc ← forAcc nodeNames handleTestProxmox_body ([], embed);
    ret (setDescription (String.concat lf (fst acc)) (snd acc)).

End FrontEnd.

(** ** Vocabulary of the statements *)

(** The process right after start-up, before [initDatabase]: empty tables,
    empty maps, nothing sent. *)
Definition fresh_world : World :=
  {| alertCooldowns := ∅; lastNodeErrors := ∅;
     alert_thresholds := empty_table; alert_history := empty_table;
     metric_history := empty_table; bot_config := ∅;
     notifier_calls := []; webhook_posts := []; console := [];
     clock_reads := 0; api_rounds := 0 |}.

(** The metric names present in the threshold store. *)
Definition threshold_metrics (w : World) : list string :=
  map at_metric (rows (alert_thresholds w)).

Section Vocabulary.
Context `{JSHost} (env : Env).

(** The value the evaluator observes for a metric, and its label. *)
Definition currentValue (status : ProxmoxNodeStatus) (metric : string) : float :=
  fst (switch_metric status metric).

Definition metricName (status : ProxmoxNodeStatus) (metric : string) : string :=
  snd (switch_metric status metric).

(** The row is enabled and the observed value reaches its threshold. *)
Definition breaches (status : ProxmoxNodeStatus) (threshold : AlertThreshold) : bool :=
  truthy_Z (at_enabled threshold)
  && float_ge (currentValue status (at_metric threshold)) (at_threshold threshold).

(** The [message] written to [alert_history] and the call of the Notifier for
    a threshold alert, as [checkThresholds] builds them. *)
Definition threshold_message (status : ProxmoxNodeStatus) (threshold : AlertThreshold) : string :=
  metricName status (at_metric threshold) +:+ " on " +:+ ns_node status +:+ ": "
  +:+ toFixed1 (currentValue status (at_metric threshold)) +:+ "% (threshold: "
  +:+ Number_toString (at_threshold threshold) +:+ "%)".

Definition threshold_alert (status : ProxmoxNodeStatus) (threshold : AlertThreshold) : DiscordAlert :=
  {| da_title := "⚠️ " +:+ metricName status (at_metric threshold) +:+ " Alert";
     da_description :=
       "**" +:+ ns_node status +:+ "** exceeded threshold" +:+ lf
       +:+ metricName status (at_metric threshold) +:+ ": **"
       +:+ toFixed1 (currentValue status (at_metric threshold)) +:+ "%** / "
       +:+ Number_toString (at_threshold threshold) +:+ "%";
     da_color := 0xffaa00 |}.

(** What an [alert_history] row records besides its id and time. *)
Definition entry_view (r : AlertHistory) : string * float * float * string :=
  (ah_metric r, ah_value r, ah_threshold r, ah_message r).

(** What a [metric_history] row records besides its id and time. *)
Definition point_view (r : MetricHistory) : string * string * float :=
  (mh_node r, mh_metric r, mh_value r).

(** The three points [collectMetrics] writes for one node status. *)
Definition points_of (status : ProxmoxNodeStatus) : list (string * string * float) :=
  [(ns_node status, "cpu"%string, ns_cpu status);
   (ns_node status, "memory"%string, percent (ns_memory status));
   (ns_node status, "disk"%string, percent (ns_disk status))].

(** The points of a list that reach the table: an INSERT of a value that is
    not a number throws, and [collectMetrics] gives up at this point. *)
Fixpoint written_prefix (points : list (string * string * float))
    : list (string * string * float) :=
  match points with
  | [] => []
  | p :: rest => if PrimFloat.is_nan (snd p) then [] else p :: written_prefix rest
  end.

(** Every value a batch gives rise to is a number. *)
Definition all_numbers (batch : list ProxmoxNodeStatus) : Prop :=
  Forall (fun p => PrimFloat.is_nan (snd p) = false) (flat_map points_of batch).

(** The calls of the Notifier for the two workload transitions. *)
Definition vm_stopped_alert (vm : ProxmoxVM) : DiscordAlert :=
  {| da_title := "🔴 VM Stopped";
     da_description := "**" +:+ vm_label vm +:+ "** on " +:+ vm_node vm;
     da_color := 0xff0000 |}.

Definition vm_started_alert (vm : ProxmoxVM) : DiscordAlert :=
  {| da_title := "🟢 VM Started";
     da_description := "**" +:+ vm_label vm +:+ "** on " +:+ vm_node vm;
     da_color := 0x00ff00 |}.

(** The Notifier calls one iteration of the detector's loop makes, read off
    the two [if]s of [checkVMStatus_body]. *)
Definition transition_alerts (prevStatesMap : gmap string string) (vm : ProxmoxVM)
    : list DiscordAlert :=
  (if bool_decide (prevStatesMap !! vm_key vm = Some "running"%string)
      && String.eqb (vm_status vm) "stopped"
   then [vm_stopped_alert vm] else [])
  ++ (if bool_decide (prevStatesMap !! vm_key vm = Some "stopped"%string)
         && String.eqb (vm_status vm) "running"
      then [vm_started_alert vm] else []).

(** The current-state map the detector builds from an inventory. *)
Definition states_of (vms : list ProxmoxVM) (init : gmap string string) : gmap string string :=
  foldl (fun m vm => <[vm_key vm := vm_status vm]> m) init vms.

(** The snapshot the detector compares against: the parsed [vm_states] blob,
    the empty map when there is none, [None] when [JSON.parse] throws. *)
Definition previous_snapshot (w : World) : option (gmap string string) :=
  if truthy_opt (bot_config w !! "vm_states"%string)
  then JSON_parse (default EmptyString (bot_config w !! "vm_states"%string))
  else Some ∅.

(** An inventory lists a workload identity with one run-state. *)
Definition consistent_inventory (vms : list ProxmoxVM) : Prop :=
  forall v1 v2, v1 ∈ vms -> v2 ∈ vms -> vm_key v1 = vm_key v2 -> vm_status v1 = vm_status v2.

(** The workload fetch of [getVMs] for [node] in request round [round] failed. *)
Definition vm_fetch_failed (round : nat) (node : ProxmoxNode) : Prop :=
  match Promise_all2 (lxc_fails_first env round node)
                     (proxmoxFetch node (api_qemu env round node))
                     (proxmoxFetch node (api_lxc env round node)) with
  | Fulfilled _ => False
  | Rejected _ => True
  end.

(** The system clock is past the epoch and never runs backwards. *)
Definition clock_sane : Prop :=
  (forall i, 0 < system_clock env i)
  /\ (forall i j, (i <= j)%nat -> system_clock env i <= system_clock env j).

(** The operations of the running process: the scheduler's steps, the operator
    command that edits a threshold, and a single iteration of the evaluator's
    inner loop. *)
Inductive Op :=
| OpCollectMetrics
| OpFetchStatus
| OpEvaluate (status : ProxmoxNodeStatus) (threshold : AlertThreshold)
| OpCheckThresholds
| OpCheckVMStatus
| OpCleanup
| OpScheduledCheck
| OpInitialCollection
| OpUpdateThreshold (metric : string) (threshold : float) (enabled : bool).

Definition run_op (op : Op) : M unit :=
  match op with
  | OpCollectMetrics => collectMetrics env
  | OpFetchStatus => getAllNodesStatus env ;; ret tt
  | OpEvaluate status threshold => checkThresholds_body env status threshold
  | OpCheckThresholds => checkThresholds env
  | OpCheckVMStatus => checkVMStatus env
  | OpCleanup => cleanupOldHistory env
  | OpScheduledCheck => scheduled_check env
  | OpInitialCollection => initial_collection env
  | OpUpdateThreshold metric threshold enabled =>
      updateAlertThreshold metric threshold enabled ;; ret tt
  end.

(** The operations of [ops] one after the other, each run to its end: the
    history of a process in which no flow gives way to another in the middle
    of an operation.  Two flows that overlap at an [await] are not of this
    form; [two_flows_interleaved] is such a history. *)
Definition run (ops : list Op) : M unit := forEach ops run_op.

(** The iteration cut at its [await], run without another flow in between. *)
Definition checkThresholds_body_resumed (status : ProxmoxNodeStatus)
    (threshold : AlertThreshold) : M unit :=
  p ← checkThresholds_body_until_await env status threshold;
  match p with
  | Some p => checkThresholds_body_after_await env status threshold p
  | None => ret tt
  end.

(** Two flows, the cron callback and the start-up run (or two cron
    callbacks), both in [checkThresholds] at the iteration of the same pair:
    the second reaches its [await] while the POST of the first is pending;
    then the POST of the first settles, then the one of the second. *)
Definition two_flows_interleaved (status : ProxmoxNodeStatus) (threshold : AlertThreshold)
    : M unit :=
  first ← checkThresholds_body_until_await env status threshold;
  second ← checkThresholds_body_until_await env status threshold;
  match first with
  | Some p => checkThresholds_body_after_await env status threshold p
  | None => ret tt
  end ;;
  match second with
  | Some p => checkThresholds_body_after_await env status threshold p
  | None => ret tt
  end.

(** [cooldown_floor key i0]: the stamp stored under [key] is not older than the
    clock's reading number [i0], and that reading has been taken. *)
Definition cooldown_floor (key : string) (i0 : nat) (w : World) : Prop :=
  (exists t', alertCooldowns w !! key = Some t' /\ system_clock env i0 <= t')
  /\ (i0 <= clock_reads w)%nat.

(** The environment with another behaviour of the Discord webhook. *)
Definition with_webhook (f : nat -> Settled unit) : Env :=
  {| nodes := nodes env; DISCORD_WEBHOOK_URL := DISCORD_WEBHOOK_URL env;
     system_clock := system_clock env; api_status := api_status env;
     api_qemu := api_qemu env; api_lxc := api_lxc env;
     lxc_fails_first := lxc_fails_first env; webhook_fetch := f |}.

End Vocabulary.

(** [preserves I m]: running [m] keeps the invariant [I]. *)
Definition preserves {A} (I : World -> Prop) (m : M A) : Prop :=
  forall w, I w -> I (exec m w).

(** Everything but the console: the cooldown map, the error map, the tables,
    the stored snapshot, the Notifier calls and requests made, the counters. *)
Definition bookkeeping (w : World) : World := set_console [] w.

(** Two states that differ at most in the console, and two computations that
    keep such states so and return the same value. *)
Definition agree (w w' : World) : Prop := bookkeeping w = bookkeeping w'.

Definition related {A} (m m' : M A) : Prop :=
  forall w w', agree w w' -> eval m w = eval m' w' /\ agree (exec m w) (exec m' w').

(** A string without [":"]: the separator of [getCooldownKey]. *)
Fixpoint no_colon (s : string) : bool :=
  match s with
  | EmptyString => true
  | String c s' => negb (Ascii.eqb c ":"%char) && no_colon s'
  end.

(** ** Concrete scenarios

    A host, some environments and some states on which the statements are
    evaluated. *)

Module Scenario.

Definition lower_ascii (c : ascii) : ascii :=
  let n := nat_of_ascii c in
  if (65 <=? n)%nat && (n <=? 90)%nat then ascii_of_nat (n + 32) else c.

Fixpoint lower (s : string) : string :=
  match s with
  | EmptyString => EmptyString
  | String c s' => String (lower_ascii c) (lower s')
  end.

(** Two snapshots and their JSON text. *)
Definition web_running : gmap string string := {[ "pve1:100"%string := "running"%string ]}.

Definition web_stopped : gmap string string := {[ "pve1:100"%string := "stopped"%string ]}.

Definition json_of_web (state : string) : string :=
  "{" +:+ dq +:+ "pve1:100" +:+ dq +:+ ":" +:+ dq +:+ state +:+ dq +:+ "}".

(** A host that knows the few values the scenarios need. *)
#[local] Instance host : JSHost := {|
  toFixed1 := fun x => if PrimFloat.eqb x 85.3%float then "85.3"%string
                       else if PrimFloat.eqb x 87.5%float then "87.5"%string
                       else "?"%string;
  Number_toString := fun x => if PrimFloat.eqb x 80%float then "80"%string else "?"%string;
  toLowerCase := lower;
  JSON_stringify := fun m =>
    if bool_decide (m = web_running) then json_of_web "running"
    else if bool_decide (m = web_stopped) then json_of_web "stopped"
    else "{}"%string;
  JSON_parse := fun s =>
    if String.eqb s (json_of_web "running") then Some web_running
    else if String.eqb s (json_of_web "stopped") then Some web_stopped
    else if String.eqb s "{}" then Some ∅
    else None;
|}.

Definition pve (name : string) : ProxmoxNode :=
  {| pn_name := name; pn_url := "https://" +:+ name +:+ ":8006" |}.

Definition usage (u t : float) : Usage := {| used := u; total := t; free := PrimFloat.sub t u |}.

(** A status answer with the given cpu fraction, memory at 25 % and disk at 50 %. *)
Definition status_answer (cpu : float) : RawStatus :=
  {| raw_cpu := cpu; raw_memory := usage 1 4; raw_rootfs := usage 1 2;
     raw_uptime := 3600%float; raw_loadavg := None |}.

(** 2026-11-02T12:00:00Z, in epoch milliseconds. *)
Definition noon : Z := 1793620800000.

(** One node [pve1] at 85.3 % cpu with one running workload; the clock starts
    at [noon] and advances a second per reading; the webhook accepts. *)
Definition env : Env :=
  {| nodes := [pve "pve1"];
     DISCORD_WEBHOOK_URL := "https://discord.example/api/webhooks/1";
     system_clock := fun n => noon + 1000 * Z.of_nat n;
     api_status := fun _ _ => HttpOk (status_answer 0.853%float);
     api_qemu := fun _ _ =>
       HttpOk [{| raw_vmid := 100; raw_name := "web"; raw_status := "running" |}];
     api_lxc := fun _ _ => HttpOk [];
     lxc_fails_first := fun _ _ => false;
     webhook_fetch := fun _ => Fulfilled tt |}.

(** The process after [initDatabase]. *)
Definition seeded : World := exec (initDatabase env) fresh_world.

Definition pve1_status : ProxmoxNodeStatus :=
  {| ns_node := "pve1"; ns_cpu := 85.3%float; ns_memory := usage 1 4;
     ns_disk := usage 1 2; ns_uptime := 3600%float;
     ns_loadavg := [0%float; 0%float; 0%float] |}.

Definition cpu_row : AlertThreshold :=
  {| at_id := 1; at_metric := "cpu"; at_threshold := 80%float; at_enabled := 1;
     at_created_at := "2026-11-02 12:00:00" |}.

(** The seeded process with the [cpu] row switched off by the operator. *)
Definition cpu_disabled : World := exec (updateAlertThreshold "cpu" 80%float false) seeded.

(** The seeded process whose stored snapshot has workload 100 stopped. *)
Definition web_was_stopped : World :=
  exec (setConfig "vm_states" (json_of_web "stopped")) seeded.

(** A webhook that rejects every POST. *)
Definition webhook_down : nat -> Settled unit :=
  fun _ => Rejected {| err_name := "TypeError"; err_message := "fetch failed" |}.

(** Three nodes; the status request of [pve2] always times out, every
    workload request succeeds. *)
Definition env_status_timeout : Env :=
  {| nodes := [pve "pve1"; pve "pve2"; pve "pve3"];
     DISCORD_WEBHOOK_URL := "https://discord.example/api/webhooks/1";
     system_clock := fun n => noon + 1000 * Z.of_nat n;
     api_status := fun _ node =>
       if String.eqb (pn_name node) "pve2" then HttpAbort
       else HttpOk (status_answer 0.5%float);
     api_qemu := fun _ _ => HttpOk [];
     api_lxc := fun _ _ => HttpOk [];
     lxc_fails_first := fun _ _ => false;
     webhook_fetch := fun _ => Fulfilled tt |}.

(** One node whose cpu is at 50 % when the collector asks (round 0) and at
    87.5 % when the evaluator asks (round 1). *)
Definition env_cpu_rises : Env :=
  {| nodes := [pve "pve1"];
     DISCORD_WEBHOOK_URL := "https://discord.example/api/webhooks/1";
     system_clock := fun n => noon + 1000 * Z.of_nat n;
     api_status := fun round _ =>
       match round with
       | O => HttpOk (status_answer 0.5%float)
       | _ => HttpOk (status_answer 0.875%float)
       end;
     api_qemu := fun _ _ => HttpOk [];
     api_lxc := fun _ _ => HttpOk [];
     lxc_fails_first := fun _ _ => false;
     webhook_fetch := fun _ => Fulfilled tt |}.

(** A clock that first reads [age] milliseconds before [noon] of 2026-11-02
    and reads [noon] from then on. *)
Definition env_point_aged (age : Z) : Env :=
  {| nodes := [pve "pve1"];
     DISCORD_WEBHOOK_URL := "https://discord.example/api/webhooks/1";
     system_clock := fun n => match n with O => noon - age | _ => noon end;
     api_status := fun _ _ => HttpOk (status_answer 0.5%float);
     api_qemu := fun _ _ => HttpOk [];
     api_lxc := fun _ _ => HttpOk [];
     lxc_fails_first := fun _ _ => false;
     webhook_fetch := fun _ => Fulfilled tt |}.

(** One node that lists workload 100 twice, as a running QEMU machine and as
    a stopped container. *)
Definition env_listed_twice : Env :=
  {| nodes := [pve "pve1"];
     DISCORD_WEBHOOK_URL := "https://discord.example/api/webhooks/1";
     system_clock := fun n => noon + 1000 * Z.of_nat n;
     api_status := fun _ _ => HttpOk (status_answer 0.5%float);
     api_qemu := fun _ _ =>
       HttpOk [{| raw_vmid := 100; raw_name := "web"; raw_status := "running" |}];
     api_lxc := fun _ _ =>
       HttpOk [{| raw_vmid := 100; raw_name := "web"; raw_status := "stopped" |}];
     lxc_fails_first := fun _ _ => false;
     webhook_fetch := fun _ => Fulfilled tt |}.

(** Two nodes; [pve1] reports a memory of 0 bytes used of 0, [pve2] is at
    50 % cpu, 25 % memory and 50 % disk. *)
Definition env_memory_nan : Env :=
  {| nodes := [pve "pve1"; pve "pve2"];
     DISCORD_WEBHOOK_URL := "https://discord.example/api/webhooks/1";
     system_clock := fun n => noon + 1000 * Z.of_nat n;
     api_status := fun _ node =>
       if String.eqb (pn_name node) "pve1"
       then HttpOk {| raw_cpu := 0.5%float; raw_memory := usage 0 0; raw_rootfs := usage 1 2;
                      raw_uptime := 3600%float; raw_loadavg := None |}
       else HttpOk (status_answer 0.5%float);
     api_qemu := fun _ _ => HttpOk [];
     api_lxc := fun _ _ => HttpOk [];
     lxc_fails_first := fun _ _ => false;
     webhook_fetch := fun _ => Fulfilled tt |}.

(** The seeded process with a [vm_states] text that is no JSON. *)
Definition corrupt_states : World := exec (setConfig "vm_states" "{oops") seeded.

Definition hour_ms : Z := 60 * 60 * 1000.

Definition day_ms : Z := 24 * hour_ms.

(** A point written [age] milliseconds before a cleanup pass at [noon]: the
    [created_at] it got, and the rows the pass leaves. *)
Definition point_then_cleanup (age : Z) : string * list MetricHistory :=
  let w1 := exec (addMetricHistory (env_point_aged age) "pve1" "cpu" 50%float) fresh_world in
  let w2 := exec (cleanupOldHistory (env_point_aged age)) w1 in
  (String.concat "," (map mh_created_at (rows (metric_history w1))),
   rows (metric_history w2)).

End Scenario.

From Stdlib Require Import Sorting.Sorted Sorting.Permutation DecimalPos.

(** ** Vocabulary of the further properties *)

(** [a] is not older than [b], by the text of [created_at]. *)
Definition not_older (a b : AlertHistory) : Prop :=
  String.ltb (ah_created_at a) (ah_created_at b) = false.

Definition not_later (a b : MetricHistory) : Prop :=
  String.ltb (mh_created_at b) (mh_created_at a) = false.

(** The ids of a table are positive, strictly increasing in rowid order and
    not above the AUTOINCREMENT counter, which never is negative. *)
Definition table_ok {A} (id : A -> Z) (t : Table A) : Prop :=
  0 <= seq t
  /\ StronglySorted Z.lt (map id (rows t))
  /\ Forall (fun i => 0 < i <= seq t) (map id (rows t)).

Definition db_ok (w : World) : Prop :=
  table_ok at_id (alert_thresholds w)
  /\ table_ok ah_id (alert_history w)
  /\ table_ok mh_id (metric_history w).

Section MoreVocabulary.
Context `{JSHost} (env : Env).

(** The nodes [getVMs] asks: the one named, or all of them. *)
Definition target_nodes (nodeName : option string) : list ProxmoxNode :=
  if truthy_opt nodeName
  then match getNode env nodeName with Some n => [n] | None => [] end
  else nodes env.

(** The workloads one node lists in request round [round]; none when one of
    its two listings fails. *)
Definition fetched_vms (round : nat) (node : ProxmoxNode) : list ProxmoxVM :=
  match Promise_all2 (lxc_fails_first env round node)
                     (proxmoxFetch node (api_qemu env round node))
                     (proxmoxFetch node (api_lxc env round node)) with
  | Fulfilled (qemu, lxc) => map (to_vm "qemu" node) qemu ++ map (to_vm "lxc" node) lxc
  | Rejected _ => []
  end.

(** The workloads of a list of nodes asked one after the other, from request
    round [round] on. *)
Fixpoint fetched_from (round : nat) (targets : list ProxmoxNode) : list ProxmoxVM :=
  match targets with
  | [] => []
  | node :: rest => fetched_vms round node ++ fetched_from (S round) rest
  end.

Definition by_vmid (a b : ProxmoxVM) : Prop := vm_vmid a <= vm_vmid b.

(** The names of the configured nodes, lower-cased as [getNode] compares
    them. *)
Definition lowered_names : list string :=
  map (fun n => toLowerCase (pn_name n)) (nodes env).

End MoreVocabulary.

(** The status request of [node] in request round [round] is answered. *)
Definition status_ok (env : Env) (round : nat) (node : ProxmoxNode) : bool :=
  match api_status env round node with HttpOk _ => true | _ => false end.

Section AlertVocabulary.
Context `{JSHost} (env : Env).

(** What the [alert_history] row of a threshold alert records. *)
Definition fired_entry (p : ProxmoxNodeStatus * AlertThreshold)
    : string * float * float * string :=
  (at_metric (snd p), currentValue (fst p) (at_metric (snd p)), at_threshold (snd p),
   threshold_message (fst p) (snd p)).

Definition fired_alert (p : ProxmoxNodeStatus * AlertThreshold) : DiscordAlert :=
  threshold_alert (fst p) (snd p).

(** From [w] to [w'], threshold alerts were raised for the pairs [fired], in
    this order, and nothing else was written to the history or asked of the
    Notifier; the other tables and the stored snapshot are as before. *)
Definition raised (fired : list (ProxmoxNodeStatus * AlertThreshold)) (w w' : World) : Prop :=
  notifier_calls w' = notifier_calls w ++ map fired_alert fired
  /\ map entry_view (rows (alert_history w'))
     = map entry_view (rows (alert_history w)) ++ map fired_entry fired
  /\ alert_thresholds w' = alert_thresholds w
  /\ metric_history w' = metric_history w
  /\ bot_config w' = bot_config w
  /\ lastNodeErrors w' = lastNodeErrors w.

(** The embeds posted are the Notifier's calls when a webhook URL is
    configured; nothing is posted when none is. *)
Definition posts_mirror_calls (w : World) : Prop :=
  if truthy_string (DISCORD_WEBHOOK_URL env)
  then map wp_embed (webhook_posts w) = notifier_calls w
  else webhook_posts w = [].

End AlertVocabulary.

(** [bytes] divided [j] times by 1024, as [formatBytes] does it. *)
Definition scaled (bytes : float) (j : nat) : float :=
  Nat.iter j (fun value => PrimFloat.div value 1024%float) bytes.

Section FrontEndVocabulary.
Context `{JSHost} (env : Env).

(** The reports of [testNodeConnection] called for [names] one after the
    other, from the state [w] on. *)
Fixpoint connection_reports (names : list string) (w : World) : list ConnectionTest :=
  match names with
  | [] => []
  | name :: rest =>
      eval (testNodeConnection env (Some name)) w
      :: connection_reports rest (exec (testNodeConnection env (Some name)) w)
  end.

(** The line of [/testproxmox] for one node, as it comes out. *)
Definition connection_line (name : string) (r : ConnectionTest) : string :=
  if ct_success r
  then "✅ **" +:+ name +:+ "** │ undefinedms │ undefined VMs │ CF: No"
  else "❌ **" +:+ name +:+ "** │ " +:+ default "undefined"%string (ct_error r).

End FrontEndVocabulary.

(** ** Further scenarios *)

Module MoreScenario.
Import Scenario.
#[local] Existing Instance Scenario.host.

Definition upper_ascii (c : ascii) : ascii :=
  let n := nat_of_ascii c in
  if (97 <=? n)%nat && (n <=? 122)%nat then ascii_of_nat (n - 32) else c.

Fixpoint upper (s : string) : string :=
  match s with
  | EmptyString => EmptyString
  | String c s' => String (upper_ascii c) (upper s')
  end.

(** The seeded process after three alerts were archived. *)
Definition three_alerts : World :=
  exec (addAlertHistory env "cpu" 85.3%float 80%float "CPU on pve1: 85.3% (threshold: 80%)" ;;
        addAlertHistory env "memory" 87.5%float 85%float "RAM on pve1: 87.5% (threshold: 85%)" ;;
        addAlertHistory env "cpu" 85.3%float 80%float "CPU on pve1: 85.3% (threshold: 80%)")
       seeded.

(** A point written 6 days and 18 hours before a cleanup pass at [noon]. *)
Definition stale_age : Z := 6 * day_ms + 18 * hour_ms.

Definition one_point : World :=
  exec (addMetricHistory (env_point_aged stale_age) "pve1" "cpu" 50%float) fresh_world.

Definition the_point : MetricHistory :=
  {| mh_id := 1; mh_node := "pve1"; mh_metric := "cpu"; mh_value := 50%float;
     mh_created_at := "2026-10-26 18:00:00" |}.

(** Two nodes; the second one, configured in upper case, does not answer its
    status request. *)
Definition two_nodes : Env :=
  {| nodes := [pve "pve1"; pve "PVE2"];
     DISCORD_WEBHOOK_URL := "https://discord.example/api/webhooks/1";
     system_clock := fun n => noon + 1000 * Z.of_nat n;
     api_status := fun _ node =>
       if String.eqb (pn_name node) "pve1" then HttpOk (status_answer 0.5%float)
       else HttpAbort;
     api_qemu := fun _ _ => HttpOk [];
     api_lxc := fun _ _ => HttpOk [];
     lxc_fails_first := fun _ _ => false;
     webhook_fetch := fun _ => Fulfilled tt |}.

(** The seeded process after the cpu alert was switched off. *)
Definition cpu_switched_off : World :=
  exec (updateAlertThreshold "cpu" 80%float false) seeded.

Definition cpu_off_row : AlertThreshold :=
  {| at_id := 1; at_metric := "cpu"; at_threshold := 80%float; at_enabled := 0;
     at_created_at := "2026-11-02 12:00:00" |}.

End MoreScenario.

(** ** Ids over time *)

(** From the table [t1] to the later table [t2]: the AUTOINCREMENT counter
    has not gone down, and every row of [t2] is an [old] one or carries an
    id above the counter of [t1]. *)
Definition table_later {A} (id : A -> Z) (old : A -> Prop) (t1 t2 : Table A) : Prop :=
  seq t1 <= seq t2 /\ Forall (fun r => old r \/ seq t1 < id r) (rows t2).

(** The same for the three tables of the process.  A row of the two
    histories is old when it is a row of the earlier table; a threshold row,
    which an update rewrites in place, when its id is one of the earlier
    table. *)
Definition db_later (w1 w2 : World) : Prop :=
  table_later at_id (fun r => In (at_id r) (map at_id (rows (alert_thresholds w1))))
              (alert_thresholds w1) (alert_thresholds w2)
  /\ table_later ah_id (fun r => In r (rows (alert_history w1)))
                 (alert_history w1) (alert_history w2)
  /\ table_later mh_id (fun r => In r (rows (metric_history w1)))
                 (metric_history w1) (metric_history w2).

(** ** The text of an uptime *)

(** The text for [d] days, [h] hours and [m] minutes: the numbers that are
    not zero, each with its letter, separated by blanks; [< 1m] when all
    three are zero. *)
Definition uptime_text (d h m : Z) : string :=
  match omap (fun p : Z * string => if fst p =? 0 then None else Some (dec (fst p) +:+ snd p))
             [(d, "d"%string); (h, "h"%string); (m, "m"%string)] with
  | [] => "< 1m"%string
  | parts => String.concat " " parts
  end.

(** * Properties *)

(** ** Reasoning about the state monad *)

Lemma exec_ret {A} (a : A) w : exec (ret a) w = w.
Proof. reflexivity. Qed.

Lemma exec_bind {A B} (m : M A) (k : A -> M B) w :
  exec (m ≫= k) w = exec (k (eval m w)) (exec m w).
Proof. reflexivity. Qed.

Lemma eval_bind {A B} (m : M A) (k : A -> M B) w :
  eval (m ≫= k) w = eval (k (eval m w)) (exec m w).
Proof. reflexivity. Qed.

Lemma exec_forEach_cons {A} (x : A) xs body w :
  exec (forEach (x :: xs) body) w = exec (forEach xs body) (exec (body x) w).
Proof. reflexivity. Qed.

Lemma exec_forEach_app {A} (xs ys : list A) body w :
  exec (forEach (xs ++ ys) body) w = exec (forEach ys body) (exec (forEach xs body) w).
Proof.
  revert w. induction xs as [|x xs IH]; intros w; [reflexivity|].
  rewrite <- app_comm_cons, !exec_forEach_cons. apply IH.
Qed.

Lemma eval_ret {A} (a : A) w : eval (ret a) w = a.
Proof. reflexivity. Qed.

Lemma exec_forAcc_cons {A S} (x : A) xs (body : A -> S -> M S) s w :
  exec (forAcc (x :: xs) body s) w
  = exec (forAcc xs body (eval (body x s) w)) (exec (body x s) w).
Proof. reflexivity. Qed.

Lemma eval_forAcc_cons {A S} (x : A) xs (body : A -> S -> M S) s w :
  eval (forAcc (x :: xs) body s) w
  = eval (forAcc xs body (eval (body x s) w)) (exec (body x s) w).
Proof. reflexivity. Qed.

Lemma no_colon_append (a b : string) : no_colon (a +:+ String ":" b) = false.
Proof.
  induction a as [|c a IH]; [reflexivity|].
  change (String c a +:+ String ":" b)%string with (String c (a +:+ String ":" b)).
  cbn [no_colon]. rewrite IH. apply andb_false_r.
Qed.

(** [node:metric] determines a colon-free [metric]. *)
Lemma colon_key_metric (node node' metric metric' : string) :
  no_colon metric = true -> no_colon metric' = true ->
  (node +:+ ":" +:+ metric = node' +:+ ":" +:+ metric')%string -> metric = metric'.
Proof.
  intros Hm Hm'. revert node'.
  induction node as [|c node IH]; intros [|c' node'] E; cbv [String.append] in E;
    fold String.append in E.
  - now injection E.
  - injection E as Hc E'. rewrite E', no_colon_append in Hm. discriminate.
  - injection E as Hc E'. rewrite <- E', no_colon_append in Hm'. discriminate.
  - injection E as Hc E'. apply (IH node'). cbv [String.append]. fold String.append.
    exact E'.
Qed.

(** Lists without duplicates under a map. *)
Lemma NoDup_map_eq {A B} (f : A -> B) (l : list A) a b :
  NoDup (map f l) -> In a l -> In b l -> f a = f b -> a = b.
Proof.
  induction l as [|x l IH]; cbn; intros Hnd Ha Hb E; [contradiction|].
  apply NoDup_cons in Hnd as [Hx Hnd].
  destruct Ha as [->|Ha], Hb as [->|Hb]; auto.
  - exfalso. apply Hx, list_elem_of_In. rewrite E. now apply in_map.
  - exfalso. apply Hx, list_elem_of_In. rewrite <- E. now apply in_map.
Qed.

Lemma NoDup_of_map {A B} (f : A -> B) (l : list A) : NoDup (map f l) -> NoDup l.
Proof.
  induction l as [|x l IH]; cbn; intros Hnd; [constructor|].
  apply NoDup_cons in Hnd as [Hx Hnd]. apply NoDup_cons. split; [|now apply IH].
  intros Hin. apply Hx, list_elem_of_In, in_map, list_elem_of_In, Hin.
Qed.

Lemma NoDup_map_pair {A B} (x : A) (k : list B) : NoDup k -> NoDup (map (pair x) k).
Proof.
  induction 1 as [|y k Hy Hk IH]; cbn [map]; [constructor|].
  apply NoDup_cons. split; [|exact IH].
  intros Hin. apply list_elem_of_In, in_map_iff in Hin as (y' & [= ->] & Hin).
  now apply Hy, list_elem_of_In.
Qed.

Lemma NoDup_list_prod {A B} (l : list A) (k : list B) :
  NoDup l -> NoDup k -> NoDup (list_prod l k).
Proof.
  induction 1 as [|x l Hx Hl IH]; intros Hk; cbn [list_prod]; [constructor|].
  apply NoDup_app. split; [now apply NoDup_map_pair|]. split; [|now apply IH].
  intros [a b] Hin Hin'.
  apply list_elem_of_In, in_map_iff in Hin as (y' & [= -> ->] & Hin).
  apply list_elem_of_In, in_prod_iff in Hin' as [Ha _].
  now apply Hx, list_elem_of_In.
Qed.

#[local] Arguments toISOString : simpl never.
#[local] Arguments sqlite_datetime : simpl never.
#[local] Arguments dec : simpl never.
#[local] Arguments String_of_error : simpl never.

(** *** Invariants

    The rules for [preserves] follow the structure of the code, so an invariant of the primitive state updates is one of every
    function built from them. *)

Lemma preserves_ret {A} I (a : A) : preserves I (ret a).
Proof. intros w Hw. exact Hw. Qed.

Lemma preserves_mret {A} I (a : A) : preserves I (mret a).
Proof. intros w Hw. exact Hw. Qed.

Lemma preserves_bind {A B} I (m : M A) (k : A -> M B) :
  preserves I m -> (forall a, preserves I (k a)) -> preserves I (m ≫= k).
Proof. intros Hm Hk w Hw. rewrite exec_bind. apply Hk, Hm, Hw. Qed.

Lemma preserves_gets {A} I (f : World -> A) : preserves I (gets f).
Proof. intros w Hw. exact Hw. Qed.

Lemma preserves_step {A} (I : World -> Prop) (a : World -> A) (g : World -> World) :
  (forall w, I w -> I (g w)) -> preserves I (fun w => (a w, g w)).
Proof. intros Hg w Hw. apply Hg, Hw. Qed.

Lemma preserves_modify I (g : World -> World) :
  (forall w, I w -> I (g w)) -> preserves I (modify g).
Proof. intros Hg w Hw. apply Hg, Hw. Qed.

Lemma preserves_forEach {A} I (xs : list A) body :
  (forall x, preserves I (body x)) -> preserves I (forEach xs body).
Proof.
  intros Hb. induction xs as [|x xs IH]; [apply preserves_ret|].
  cbn [forEach]. apply preserves_bind; [apply Hb | intros _; exact IH].
Qed.

Lemma preserves_forAcc {A S} I (xs : list A) (body : A -> S -> M S) s :
  (forall x s, preserves I (body x s)) -> preserves I (forAcc xs body s).
Proof.
  intros Hb. revert s. induction xs as [|x xs IH]; intros s; [apply preserves_ret|].
  cbn [forAcc]. apply preserves_bind; [apply Hb | intros s'; apply IH].
Qed.

Lemma preserves_tryEach {A} I (xs : list A) body :
  (forall x, preserves I (body x)) -> preserves I (tryEach xs body).
Proof.
  intros Hb. induction xs as [|x xs IH]; [apply preserves_ret|].
  cbn [tryEach]. unfold and_then. apply preserves_bind; [apply Hb|].
  intros [[]|e]; [exact IH | apply preserves_ret].
Qed.

Lemma preserves_forEach_in {A} I (xs : list A) body :
  (forall x, x ∈ xs -> preserves I (body x)) -> preserves I (forEach xs body).
Proof.
  induction xs as [|x xs IH]; intros Hb; [apply preserves_ret|].
  cbn [forEach]. apply preserves_bind.
  - apply Hb. left.
  - intros _. apply IH. intros y Hy. apply Hb. now right.
Qed.

Lemma preserves_and {A} (I J : World -> Prop) (m : M A) :
  preserves I m -> preserves J m -> preserves (fun w => I w /\ J w) m.
Proof. intros HI HJ w [Hi Hj]. split; [apply HI, Hi | apply HJ, Hj]. Qed.

Create HintDb model discriminated.
#[local] Hint Unfold CURRENT_TIMESTAMP insert_or_ignore_threshold initDatabase
  getAlertThresholds getAlertThreshold updateAlertThreshold addAlertHistory
  addMetricHistory getConfig setConfig cleanupOldHistory
  getAllNodesStatus getLastNodeErrors getVMs_body getVMs
  new_Date_toISOString isOnCooldown
  collectMetrics_body collectMetrics checkThresholds_body checkThresholds_loop
  checkThresholds checkVMStatus_body checkVMStatus scheduled_check
  initial_collection console_out Date_now next_round fetch_webhook
  and_then run run_op : model.

Ltac pres_leaf := intros; cbn in *; try tauto; try lia; auto.

Ltac pres_step leaf :=
  match goal with
  | |- preserves _ (ret _) => apply preserves_ret
  | |- preserves _ (mret _) => apply preserves_mret
  | |- preserves _ (_ ≫= _) => apply preserves_bind; [|intros ?]
  | |- preserves _ (gets _) => apply preserves_gets
  | |- preserves _ (modify _) => apply preserves_modify; leaf
  | |- preserves _ (forEach _ _) => apply preserves_forEach; intros ?
  | |- preserves _ (forAcc _ _ _) => apply preserves_forAcc; intros ? ?
  | |- preserves _ (tryEach _ _) => apply preserves_tryEach; intros ?
  | |- preserves _ (fun w => _) => apply preserves_step; leaf
  | |- preserves _ (if ?b then _ else _) => destruct b
  | |- preserves _ (match ?x with _ => _ end) => destruct x
  | |- preserves _ (let x := _ in _) => cbv zeta
  | |- preserves _ (sendDiscordAlert _ _ _ _) => unfold sendDiscordAlert
  | |- preserves _ (setCooldown _ _ _) => unfold setCooldown
  | |- preserves _ _ => progress autounfold with model
  end.

(** Solves [preserves I m] when [I] only reads fields that [m] leaves alone
    (or moves the way [I] allows). *)
Ltac pres := repeat (pres_step pres_leaf).

(** Unfolds a loop-free computation down to the record updates it makes.
    [sendDiscordAlert] and [setCooldown] stay folded in the hint base, so that
    the structural tactics can treat them as single steps. *)
Ltac run_m :=
  unfold sendDiscordAlert, setCooldown in *;
  autounfold with model in *;
  unfold exec, eval, mbind, M_bind, mret, M_ret, bind, ret, gets, modify in *;
  cbn in *.

(** *** Computations that differ at most in what they print *)

Lemma agree_fields w w' :
  agree w w' <->
  alertCooldowns w = alertCooldowns w' /\ lastNodeErrors w = lastNodeErrors w'
  /\ alert_thresholds w = alert_thresholds w' /\ alert_history w = alert_history w'
  /\ metric_history w = metric_history w' /\ bot_config w = bot_config w'
  /\ notifier_calls w = notifier_calls w' /\ webhook_posts w = webhook_posts w'
  /\ clock_reads w = clock_reads w' /\ api_rounds w = api_rounds w'.
Proof.
  unfold agree, bookkeeping. split.
  - intros E.
    repeat split;
      [ apply (f_equal alertCooldowns) in E | apply (f_equal lastNodeErrors) in E
      | apply (f_equal alert_thresholds) in E | apply (f_equal alert_history) in E
      | apply (f_equal metric_history) in E | apply (f_equal bot_config) in E
      | apply (f_equal notifier_calls) in E | apply (f_equal webhook_posts) in E
      | apply (f_equal clock_reads) in E | apply (f_equal api_rounds) in E ];
      exact E.
  - intros (E1 & E2 & E3 & E4 & E5 & E6 & E7 & E8 & E9 & E10).
    destruct w, w'. cbn in *. subst. reflexivity.
Qed.

Lemma related_ret {A} (a : A) : related (ret a) (ret a).
Proof. intros w w' Hw. split; [reflexivity|exact Hw]. Qed.

Lemma related_mret {A} (a : A) : related (mret a) (mret a).
Proof. intros w w' Hw. split; [reflexivity|exact Hw]. Qed.

Lemma related_bind {A B} (m m' : M A) (k k' : A -> M B) :
  related m m' -> (forall a, related (k a) (k' a)) -> related (m ≫= k) (m' ≫= k').
Proof.
  intros Hm Hk w w' Hw. destruct (Hm w w' Hw) as [Ev Ex].
  rewrite !exec_bind, !eval_bind, Ev. apply Hk, Ex.
Qed.

Lemma related_gets {A} (f f' : World -> A) :
  (forall w w', agree w w' -> f w = f' w') -> related (gets f) (gets f').
Proof. intros Hf w w' Hw. split; [apply Hf, Hw | exact Hw]. Qed.

Lemma related_modify (g g' : World -> World) :
  (forall w w', agree w w' -> agree (g w) (g' w')) -> related (modify g) (modify g').
Proof. intros Hg w w' Hw. split; [reflexivity | apply Hg, Hw]. Qed.

Lemma related_step {A} (a a' : World -> A) (g g' : World -> World) :
  (forall w w', agree w w' -> a w = a' w' /\ agree (g w) (g' w')) ->
  related (fun w => (a w, g w)) (fun w => (a' w, g' w)).
Proof. intros Hg w w' Hw. apply Hg, Hw. Qed.

Lemma related_forEach {A} (xs : list A) body body' :
  (forall x, related (body x) (body' x)) -> related (forEach xs body) (forEach xs body').
Proof.
  intros Hb. induction xs as [|x xs IH]; [apply related_ret|].
  cbn [forEach]. apply related_bind; [apply Hb | intros _; exact IH].
Qed.

Lemma related_forAcc {A S} (xs : list A) (body body' : A -> S -> M S) s :
  (forall x s, related (body x s) (body' x s)) -> related (forAcc xs body s) (forAcc xs body' s).
Proof.
  intros Hb. revert s. induction xs as [|x xs IH]; intros s; [apply related_ret|].
  cbn [forAcc]. apply related_bind; [apply Hb | intros s'; apply IH].
Qed.

Lemma related_tryEach {A} (xs : list A) body body' :
  (forall x, related (body x) (body' x)) -> related (tryEach xs body) (tryEach xs body').
Proof.
  intros Hb. induction xs as [|x xs IH]; [apply related_ret|].
  cbn [tryEach]. unfold and_then. apply related_bind; [apply Hb|].
  intros [[]|e]; [exact IH | apply related_ret].
Qed.

Ltac agree_leaf :=
  let w := fresh "w" in
  let w' := fresh "w'" in
  let Hw := fresh "Hw" in
  intros w w' Hw; apply agree_fields in Hw; destruct w, w'; cbn in Hw;
  destruct Hw as (? & ? & ? & ? & ? & ? & ? & ? & ? & ?); subst;
  lazymatch goal with
  | |- agree _ _ => apply agree_fields; cbn; repeat split; reflexivity
  | |- _ /\ agree _ _ =>
      split; [reflexivity | apply agree_fields; cbn; repeat split; reflexivity]
  | |- _ => reflexivity
  end.

(** ** The Notifier *)

Section Notifier.
Context `{JSHost} (env : Env).

(** A call of [sendDiscordAlert] is recorded, may read the clock, POST and
    print, and does nothing else: whatever the webhook answers, it returns. *)
Lemma sendDiscordAlert_exec title description color w :
  exists n posts out,
    exec (sendDiscordAlert env title description color) w
    = set_console out (set_webhook_posts posts (set_clock_reads n
        (set_notifier_calls
           (notifier_calls w ++ [{| da_title := title; da_description := description;
                                    da_color := color |}]) w)))
    /\ (clock_reads w <= n)%nat.
Proof.
  destruct w. run_m.
  destruct (truthy_string (DISCORD_WEBHOOK_URL env)) eqn:Hurl; cbn.
  - match goal with
    | |- context [webhook_fetch env ?i] => destruct (webhook_fetch env i)
    end; cbn; (do 3 eexists; split; [reflexivity | cbn; lia]).
  - do 3 eexists. split; [reflexivity | cbn; lia].
Qed.

End Notifier.


(** ** The threshold evaluator *)

Section Evaluator.
Context `{JSHost} (env : Env).

Lemma isOnCooldown_eval node metric w :
  eval (isOnCooldown env node metric) w
  = match alertCooldowns w !! getCooldownKey node metric with
    | None => false
    | Some lastAlert =>
        truthy_Z lastAlert && (system_clock env (clock_reads w) - lastAlert <? COOLDOWN_MS)
    end.
Proof.
  run_m. destruct (alertCooldowns w !! getCooldownKey node metric) as [last|]; [|reflexivity].
  destruct (truthy_Z last); reflexivity.
Qed.

Lemma isOnCooldown_exec node metric w :
  exists n, exec (isOnCooldown env node metric) w = set_clock_reads n w
            /\ (clock_reads w <= n)%nat.
Proof.
  destruct w. run_m.
  match goal with |- context [?m !! ?k] => destruct (m !! k) as [last|] end;
    [destruct (truthy_Z last)|]; cbn; eexists; (split; [reflexivity|cbn; lia]).
Qed.

Lemma breaches_true status threshold :
  breaches status threshold = true ->
  truthy_Z (at_enabled threshold) = true
  /\ float_ge (fst (switch_metric status (at_metric threshold))) (at_threshold threshold) = true.
Proof. unfold breaches, currentValue. intros Hb. apply andb_prop in Hb. exact Hb. Qed.

(** A row that is disabled, or whose threshold is not reached, leaves the
    process exactly as it was. *)
Lemma checkThresholds_body_skip status threshold w :
  breaches status threshold = false ->
  exec (checkThresholds_body env status threshold) w = w.
Proof.
  unfold breaches, currentValue. intros Hb. unfold checkThresholds_body.
  destruct (truthy_Z (at_enabled threshold)); cbn [negb]; [|reflexivity].
  cbn [andb] in Hb. rewrite Hb. reflexivity.
Qed.

(** On cooldown, the iteration only reads the clock. *)
Lemma checkThresholds_body_suppressed status threshold w :
  breaches status threshold = true ->
  eval (isOnCooldown env (ns_node status) (at_metric threshold)) w = true ->
  exec (checkThresholds_body env status threshold) w = set_clock_reads (S (clock_reads w)) w.
Proof.
  intros Hb Hcd. apply breaches_true in Hb as [Hen Hge].
  rewrite isOnCooldown_eval in Hcd.
  unfold checkThresholds_body. rewrite Hen, Hge. cbn [negb].
  rewrite exec_bind, isOnCooldown_eval.
  destruct (alertCooldowns w !! _) as [last|] eqn:Hk; [|discriminate].
  rewrite Hcd. cbn [negb].
  apply andb_prop in Hcd as [Hlast _].
  run_m. rewrite Hk, Hlast. reflexivity.
Qed.

Lemma checkThresholds_body_fires status threshold w :
  breaches status threshold = true ->
  eval (isOnCooldown env (ns_node status) (at_metric threshold)) w = false ->
  exists n posts out created_at,
    exec (checkThresholds_body env status threshold) w
    = set_alertCooldowns
        (<[getCooldownKey (ns_node status) (at_metric threshold) := system_clock env n]>
           (alertCooldowns w))
        (set_clock_reads (S n) (set_console out (set_webhook_posts posts
          (set_notifier_calls (notifier_calls w ++ [threshold_alert status threshold])
            (set_alert_history
               (insert_row (fun id => {| ah_id := id; ah_metric := at_metric threshold;
                                         ah_value := currentValue status (at_metric threshold);
                                         ah_threshold := at_threshold threshold;
                                         ah_message := threshold_message status threshold;
                                         ah_created_at := created_at |})
                           (alert_history w)) w)))))
    /\ (clock_reads w < n)%nat.
Proof.
  intros Hb Hcd. apply breaches_true in Hb as [Hen Hge].
  unfold checkThresholds_body. rewrite Hen, Hge. cbn [negb].
  rewrite exec_bind, Hcd. cbn [negb]. rewrite !exec_bind.
  destruct (isOnCooldown_exec (ns_node status) (at_metric threshold) w) as (n0 & -> & Hn0).
  match goal with
  | |- context [exec (sendDiscordAlert env ?t ?d ?c) ?w1] =>
      destruct (sendDiscordAlert_exec env t d c w1) as (n & posts & out & -> & Hn)
  end.
  destruct w. run_m. do 4 eexists. split; [reflexivity|]. lia.
Qed.

(** The three things one iteration of the inner loop can do. *)
Lemma checkThresholds_body_cases status threshold w :
  exec (checkThresholds_body env status threshold) w = w
  \/ exec (checkThresholds_body env status threshold) w = set_clock_reads (S (clock_reads w)) w
  \/ (breaches status threshold = true
      /\ exists n posts out created_at,
           exec (checkThresholds_body env status threshold) w
           = set_alertCooldowns
               (<[getCooldownKey (ns_node status) (at_metric threshold) := system_clock env n]>
                  (alertCooldowns w))
               (set_clock_reads (S n) (set_console out (set_webhook_posts posts
                 (set_notifier_calls (notifier_calls w ++ [threshold_alert status threshold])
                   (set_alert_history
                      (insert_row (fun id => {| ah_id := id; ah_metric := at_metric threshold;
                                                ah_value := currentValue status (at_metric threshold);
                                                ah_threshold := at_threshold threshold;
                                                ah_message := threshold_message status threshold;
                                                ah_created_at := created_at |})
                                  (alert_history w)) w)))))).
Proof.
  destruct (breaches status threshold) eqn:Hb.
  - destruct (eval (isOnCooldown env (ns_node status) (at_metric threshold)) w) eqn:Hcd.
    + right. left. apply checkThresholds_body_suppressed; assumption.
    + right. right. split; [reflexivity|].
      destruct (checkThresholds_body_fires status threshold w Hb Hcd)
        as (n & posts & out & ts & Hex & _).
      eauto.
  - left. apply checkThresholds_body_skip, Hb.
Qed.

Lemma breaches_enabled status threshold :
  breaches status threshold = true -> truthy_Z (at_enabled threshold) = true.
Proof. intros Hb. apply breaches_true in Hb. tauto. Qed.

Lemma checkThresholds_unfold w :
  exec (checkThresholds env) w
  = exec (checkThresholds_loop env (eval (getAllNodesStatus env) w) (rows (alert_thresholds w)))
         (exec (getAllNodesStatus env) w).
Proof. reflexivity. Qed.

(** *** The iteration and its two parts *)

(** Run without another flow in between, the two parts of the iteration are
    the iteration. *)
Lemma checkThresholds_body_split status threshold w :
  exec (checkThresholds_body env status threshold) w
  = exec (checkThresholds_body_resumed env status threshold) w.
Proof.
  unfold checkThresholds_body_resumed, checkThresholds_body, checkThresholds_body_until_await,
    checkThresholds_body_after_await.
  destruct (negb (truthy_Z (at_enabled threshold))); [reflexivity|]. cbv zeta.
  destruct (float_ge _ _); [|reflexivity].
  rewrite !exec_bind, !eval_bind. cbn beta.
  destruct (negb (eval (isOnCooldown env (ns_node status) (at_metric threshold)) w));
    [|reflexivity].
  set (w1 := exec (isOnCooldown env (ns_node status) (at_metric threshold)) w).
  destruct w1. unfold sendDiscordAlert_issue, sendDiscordAlert_settle. run_m.
  destruct (truthy_string (DISCORD_WEBHOOK_URL env)); cbn; [|reflexivity].
  match goal with
  | |- context [webhook_fetch env ?i] => destruct (webhook_fetch env i)
  end; reflexivity.
Qed.

(** *** One pass of the evaluator *)

(** [node:metric] determines the node and a colon-free metric. *)
Lemma colon_key_inj (node node' metric metric' : string) :
  no_colon metric = true -> no_colon metric' = true ->
  getCooldownKey node metric = getCooldownKey node' metric' ->
  node = node' /\ metric = metric'.
Proof.
  unfold getCooldownKey. intros Hm Hm'. revert node'.
  induction node as [|c node IH]; intros [|c' node'] E; cbv [String.append] in E;
    fold String.append in E.
  - split; [reflexivity|now injection E].
  - injection E as Hc E'. rewrite E', no_colon_append in Hm. discriminate.
  - injection E as Hc E'. rewrite <- E', no_colon_append in Hm'. discriminate.
  - injection E as Hc E'. destruct (IH node') as [-> ->].
    + cbv [String.append]. fold String.append. exact E'.
    + now subst c'.
Qed.

Lemma raised_nil w : raised [] w w.
Proof. unfold raised. cbn. rewrite !app_nil_r. auto 10. Qed.

Lemma raised_app f1 f2 w w1 w2 :
  raised f1 w w1 -> raised f2 w1 w2 -> raised (f1 ++ f2) w w2.
Proof.
  intros (A1 & B1 & C1 & D1 & E1 & F1) (A2 & B2 & C2 & D2 & E2 & F2).
  unfold raised. rewrite A2, A1, B2, B1, !map_app, <- !app_assoc.
  repeat split; congruence.
Qed.

(** The key of the cooldown map an iteration works on. *)
Definition pair_key (p : ProxmoxNodeStatus * AlertThreshold) : string :=
  getCooldownKey (ns_node (fst p)) (at_metric (snd p)).

(** One iteration raises its pair or nothing, reads the clock forward and
    touches the cooldown of its own key only. *)
Lemma checkThresholds_body_effect status threshold w :
  exists fired,
    raised fired w (exec (checkThresholds_body env status threshold) w)
    /\ sublist fired [(status, threshold)]
    /\ Forall (fun p => breaches (fst p) (snd p) = true) fired
    /\ (clock_reads w <= clock_reads (exec (checkThresholds_body env status threshold) w))%nat
    /\ forall k, k <> pair_key (status, threshold) ->
         alertCooldowns (exec (checkThresholds_body env status threshold) w) !! k
         = alertCooldowns w !! k.
Proof.
  destruct (breaches status threshold) eqn:Hb.
  - destruct (eval (isOnCooldown env (ns_node status) (at_metric threshold)) w) eqn:Hcd.
    + rewrite (checkThresholds_body_suppressed _ _ _ Hb Hcd).
      exists []. split; [|split; [apply sublist_nil_l|split; [constructor|split]]].
      * destruct w. unfold raised. cbn. rewrite !app_nil_r. auto 10.
      * cbn. lia.
      * intros k _. now destruct w.
    + destruct (checkThresholds_body_fires status threshold w Hb Hcd)
        as (n & posts & out & ts & -> & Hn).
      exists [(status, threshold)].
      split; [|split; [reflexivity|split; [repeat constructor; exact Hb|split]]].
      * destruct w. unfold raised. cbn. rewrite map_app. auto 10.
      * cbn. lia.
      * intros k Hk. cbn. apply lookup_insert_ne. intros E. apply Hk. now rewrite <- E.
  - rewrite (checkThresholds_body_skip _ _ _ Hb).
    exists []. split; [apply raised_nil|]. split; [apply sublist_nil_l|].
    split; [constructor|]. split; [lia|auto].
Qed.

(** The iterations of a list of pairs, none of which has the key [k]. *)
Lemma pairs_loop_effect (pairs : list (ProxmoxNodeStatus * AlertThreshold)) k w :
  Forall (fun p => pair_key p <> k) pairs ->
  let w' := exec (forEach pairs (fun p => checkThresholds_body env (fst p) (snd p))) w in
  exists fired,
    raised fired w w'
    /\ sublist fired pairs
    /\ Forall (fun p => breaches (fst p) (snd p) = true) fired
    /\ (clock_reads w <= clock_reads w')%nat
    /\ alertCooldowns w' !! k = alertCooldowns w !! k.
Proof.
  revert w. induction pairs as [|[s t] l IH]; intros w Hk w'.
  - exists []. split; [apply raised_nil|]. split; [constructor|].
    split; [constructor|]. split; [subst w'; cbn; lia|reflexivity].
  - apply Forall_cons in Hk as [Hk Hl]. subst w'. rewrite exec_forEach_cons. cbn [fst snd].
    destruct (checkThresholds_body_effect s t w) as (f1 & R1 & S1 & B1 & C1 & K1).
    destruct (IH (exec (checkThresholds_body env s t) w) Hl) as (f2 & R2 & S2 & B2 & C2 & K2).
    exists (f1 ++ f2). split; [eapply raised_app; eassumption|].
    split; [apply (sublist_app f1 [(s, t)] f2 _ S1 S2)|].
    split; [apply Forall_app; auto|]. split; [lia|].
    rewrite K2. apply K1. intros E. apply Hk. now rewrite E.
Qed.

Lemma forEach_map_pairs {A B} (f : A -> B) (l : list A) (body : B -> M unit) w :
  exec (forEach (map f l) body) w = exec (forEach l (fun x => body (f x))) w.
Proof.
  revert w. induction l as [|x l IH]; intros w; [reflexivity|].
  cbn [map]. rewrite !exec_forEach_cons. apply IH.
Qed.

(** The two nested loops visit the pairs of batch and table in the order of
    [list_prod]. *)
Lemma checkThresholds_loop_pairs batch thresholds w :
  exec (checkThresholds_loop env batch thresholds) w
  = exec (forEach (list_prod batch thresholds)
            (fun p => checkThresholds_body env (fst p) (snd p))) w.
Proof.
  unfold checkThresholds_loop. revert w.
  induction batch as [|s l IH]; intros w; [reflexivity|].
  cbn [list_prod]. rewrite exec_forEach_cons, exec_forEach_app, forEach_map_pairs.
  cbn [fst snd]. apply IH.
Qed.

Lemma in_list_prod_key batch thresholds (p q : ProxmoxNodeStatus * AlertThreshold) :
  NoDup (map ns_node batch) ->
  NoDup (map at_metric thresholds) ->
  (forall r, r ∈ thresholds -> no_colon (at_metric r) = true) ->
  p ∈ list_prod batch thresholds -> q ∈ list_prod batch thresholds ->
  pair_key p = pair_key q -> p = q.
Proof.
  intros Hb Ht Hc Hp Hq E. destruct p as [s t], q as [s' t'].
  apply list_elem_of_In, in_prod_iff in Hp as [Hs Hth].
  apply list_elem_of_In, in_prod_iff in Hq as [Hs' Hth'].
  assert (Ct : no_colon (at_metric t) = true) by (apply Hc, list_elem_of_In, Hth).
  assert (Ct' : no_colon (at_metric t') = true) by (apply Hc, list_elem_of_In, Hth').
  destruct (colon_key_inj _ _ _ _ Ct Ct' E) as [En Em].
  f_equal.
  - exact (NoDup_map_eq ns_node batch s s' Hb Hs Hs' En).
  - exact (NoDup_map_eq at_metric thresholds t t' Ht Hth Hth' Em).
Qed.

(** C8. In one pass of the evaluator, a node status of the batch whose value
    reaches the threshold of an enabled row of the table, the pair not being
    on cooldown, raises exactly one alert for this pair: one [alert_history]
    row with the row's metric, the observed value and the threshold, and one
    call of the Notifier with the title of the metric, both in loop order
    among the alerts of the other pairs; and the cooldown of the pair is set
    to a reading of the clock taken during the pass.  The node names of the
    batch and the metrics of the table are taken pairwise different, the
    metrics without a colon, the clock not running backwards.  For the row
    [{cpu, 80}] and [pve1] at 85.3 this is one row [(cpu, 85.3, 80)] and one
    call titled [⚠️ CPU Alert]. *)
Theorem evaluator_fires_on_breach (status : ProxmoxNodeStatus) (threshold : AlertThreshold)
    (w : World) :
  let batch := eval (getAllNodesStatus env) w in
  let table := rows (alert_thresholds w) in
  clock_sane env ->
  status ∈ batch -> threshold ∈ table ->
  NoDup (map ns_node batch) ->
  NoDup (map at_metric table) ->
  (forall r, r ∈ table -> no_colon (at_metric r) = true) ->
  truthy_Z (at_enabled threshold) = true ->
  float_ge (currentValue status (at_metric threshold)) (at_threshold threshold) = true ->
  eval (isOnCooldown env (ns_node status) (at_metric threshold)) w = false ->
  let w' := exec (checkThresholds env) w in
  exists earlier later,
    notifier_calls w'
    = notifier_calls w ++ map fired_alert earlier
      ++ [threshold_alert status threshold] ++ map fired_alert later
    /\ map entry_view (rows (alert_history w'))
       = map entry_view (rows (alert_history w)) ++ map fired_entry earlier
         ++ [(at_metric threshold, currentValue status (at_metric threshold),
              at_threshold threshold, threshold_message status threshold)]
         ++ map fired_entry later
    /\ Forall (fun p => ~ (ns_node (fst p) = ns_node status
                           /\ at_metric (snd p) = at_metric threshold))
              (earlier ++ later)
    /\ exists n, (clock_reads w <= n < clock_reads w')%nat
         /\ alertCooldowns w' !! getCooldownKey (ns_node status) (at_metric threshold)
            = Some (system_clock env n).
Proof.
  intros batch table Hsane Hs Ht Hnb Hnt Hcol Hen Hge Hcd w'.
  assert (Hb : breaches status threshold = true) by (unfold breaches; now rewrite Hen, Hge).
  set (k := getCooldownKey (ns_node status) (at_metric threshold)).
  assert (Hin : (status, threshold) ∈ list_prod batch table).
  { apply list_elem_of_In, in_prod_iff. split; now apply list_elem_of_In. }
  assert (Hnd : NoDup (list_prod batch table)).
  { apply NoDup_list_prod; [eapply NoDup_of_map, Hnb | eapply NoDup_of_map, Hnt]. }
  destruct (list_elem_of_split _ _ Hin) as (l1 & l2 & Hsplit).
  assert (Hother : Forall (fun p => pair_key p <> k) (l1 ++ l2)).
  { apply Forall_forall. intros p Hp Hk.
    assert (Hpin : p ∈ list_prod batch table).
    { rewrite Hsplit. apply elem_of_app in Hp as [Hp|Hp]; apply elem_of_app;
        [now left|right; now right]. }
    assert (E : p = (status, threshold))
      by (eapply in_list_prod_key; eauto).
    subst p. rewrite Hsplit in Hnd. apply NoDup_app in Hnd as (_ & Hd & Hnd2).
    apply NoDup_cons in Hnd2 as [Hnot _].
    apply elem_of_app in Hp as [Hp|Hp]; [|contradiction].
    apply (Hd _ Hp). left. }
  apply Forall_app in Hother as [Hk1 Hk2].
  subst w'. rewrite checkThresholds_unfold, checkThresholds_loop_pairs.
  fold batch table. rewrite Hsplit, exec_forEach_app, exec_forEach_cons. cbn [fst snd].
  set (wa := exec (getAllNodesStatus env) w).
  destruct (pairs_loop_effect l1 k wa Hk1) as (f1 & R1 & S1 & _ & C1 & K1).
  set (w1 := exec (forEach l1 _) wa) in *.
  assert (Hcd1 : eval (isOnCooldown env (ns_node status) (at_metric threshold)) w1 = false).
  { rewrite isOnCooldown_eval in *. fold k in Hcd |- *. rewrite K1.
    change (alertCooldowns wa) with (alertCooldowns w).
    destruct (alertCooldowns w !! k) as [t|]; [|reflexivity].
    apply andb_false_iff in Hcd as [Hz|Hlt]; [now rewrite Hz|].
    apply andb_false_intro2. apply Z.ltb_ge in Hlt. apply Z.ltb_ge.
    destruct Hsane as [_ Hmono].
    assert (system_clock env (clock_reads w) <= system_clock env (clock_reads w1)).
    { apply Hmono. change (clock_reads wa) with (clock_reads w) in C1. exact C1. }
    lia. }
  destruct (checkThresholds_body_fires status threshold w1 Hb Hcd1)
    as (n & posts & out & ts & Hex & Hn).
  set (w2 := exec (checkThresholds_body env status threshold) w1) in *.
  destruct (pairs_loop_effect l2 k w2 Hk2) as (f2 & R2 & S2 & _ & C2 & K2).
  set (w3 := exec (forEach l2 _) w2) in *.
  assert (R12 : raised [(status, threshold)] w1 w2).
  { rewrite Hex. destruct w1. unfold raised. cbn. rewrite map_app. auto 10. }
  assert (Ra : raised [] w wa) by (destruct w; unfold raised; cbn; rewrite !app_nil_r; auto 10).
  pose proof (raised_app _ _ _ _ _ Ra (raised_app _ _ _ _ _ R1 (raised_app _ _ _ _ _ R12 R2)))
    as (Hcalls & Hrows & _).
  cbn [app] in Hcalls, Hrows. rewrite !map_app in Hcalls, Hrows.
  exists f1, f2. split; [exact Hcalls|]. split; [exact Hrows|]. split.
  - apply Forall_app. split.
    + apply Forall_forall. intros p Hp [En Em].
      apply (proj1 (Forall_forall _ _) Hk1 p); [eapply elem_of_sublist; eauto|].
      unfold pair_key, k. now rewrite En, Em.
    + apply Forall_forall. intros p Hp [En Em].
      apply (proj1 (Forall_forall _ _) Hk2 p); [eapply elem_of_sublist; eauto|].
      unfold pair_key, k. now rewrite En, Em.
  - exists n. split.
    + assert (clock_reads w2 = S n) by (rewrite Hex; reflexivity).
      change (clock_reads wa) with (clock_reads w) in C1. lia.
    + rewrite K2, Hex. cbn. apply lookup_insert_eq.
Qed.

(** *** The cooldown window *)

Lemma setCooldown_floor key i0 node metric :
  clock_sane env -> preserves (cooldown_floor env key i0) (setCooldown env node metric).
Proof.
  intros [_ Hmono] w [(t' & Hk & Ht') Hi]. unfold cooldown_floor.
  change (exec (setCooldown env node metric) w)
    with (set_alertCooldowns
            (<[getCooldownKey node metric := system_clock env (clock_reads w)]> (alertCooldowns w))
            (set_clock_reads (S (clock_reads w)) w)).
  cbn. split; [|lia].
  destruct (decide (getCooldownKey node metric = key)) as [->|Hne].
  - rewrite lookup_insert_eq. eexists. split; [reflexivity|]. apply Hmono, Hi.
  - rewrite lookup_insert_ne by exact Hne. eauto.
Qed.

Ltac pres_floor Hsane :=
  repeat first [ apply (setCooldown_floor _ _ _ _ Hsane)
               | pres_step ltac:(unfold cooldown_floor; intros; cbn in *;
                                 try (split; [tauto|lia]); try tauto) ].

Lemma run_op_floor key i0 op :
  clock_sane env -> preserves (cooldown_floor env key i0) (run_op env op).
Proof. intros Hsane. destruct op; cbn [run_op]; pres_floor Hsane. Qed.

Lemma run_floor key i0 ops :
  clock_sane env -> preserves (cooldown_floor env key i0) (run env ops).
Proof. intros Hsane. apply preserves_forEach. intros op. apply run_op_floor, Hsane. Qed.


(** *** Disabled rows *)

Lemma disabled_not_breaches status threshold :
  truthy_Z (at_enabled threshold) = false -> breaches status threshold = false.
Proof. intros Hd. unfold breaches. now rewrite Hd. Qed.

(** What one iteration leaves alone when its row is not an enabled row of
    [metric]: the [alert_history] rows of [metric] and the cooldown of every
    [(node, metric)]. *)
Lemma checkThresholds_body_frame metric status threshold w :
  (at_metric threshold = metric -> truthy_Z (at_enabled threshold) = false) ->
  no_colon metric = true -> no_colon (at_metric threshold) = true ->
  let w' := exec (checkThresholds_body env status threshold) w in
  List.filter (fun r => String.eqb (ah_metric r) metric) (rows (alert_history w'))
  = List.filter (fun r => String.eqb (ah_metric r) metric) (rows (alert_history w))
  /\ forall node, alertCooldowns w' !! getCooldownKey node metric
                  = alertCooldowns w !! getCooldownKey node metric.
Proof.
  intros Hdis Hm Hm' w'. subst w'.
  destruct (checkThresholds_body_cases status threshold w)
    as [-> | [-> | (Hb & n & posts & out & ts & ->)]]; [auto | auto |].
  assert (Hne : at_metric threshold <> metric).
  { intros E. apply Hdis in E. apply breaches_enabled in Hb. congruence. }
  cbn. split.
  - rewrite List.filter_app. cbn.
    destruct (String.eqb_spec (at_metric threshold) metric); [contradiction|].
    apply app_nil_r.
  - intros node. apply lookup_insert_ne. intros E.
    apply Hne. eapply colon_key_metric, E; assumption.
Qed.

Lemma inner_loop_without_disabled metric status (thresholds : list AlertThreshold) w :
  (forall r, r ∈ thresholds -> at_metric r = metric -> truthy_Z (at_enabled r) = false) ->
  exec (forEach thresholds (fun threshold => checkThresholds_body env status threshold)) w
  = exec (forEach (List.filter (fun r => negb (String.eqb (at_metric r) metric)) thresholds)
                  (fun threshold => checkThresholds_body env status threshold)) w.
Proof.
  revert w. induction thresholds as [|r l IH]; intros w Hdis; [reflexivity|].
  rewrite exec_forEach_cons. cbn [List.filter].
  assert (Hl : forall r', r' ∈ l -> at_metric r' = metric -> truthy_Z (at_enabled r') = false)
    by (intros r' Hr'; apply Hdis; now right).
  destruct (String.eqb_spec (at_metric r) metric) as [E|_]; cbn [negb].
  - rewrite checkThresholds_body_skip
      by (apply disabled_not_breaches, (Hdis r); [left | exact E]).
    apply IH, Hl.
  - rewrite exec_forEach_cons. apply IH, Hl.
Qed.

Lemma loop_without_disabled metric nodesStatus (thresholds : list AlertThreshold) w :
  (forall r, r ∈ thresholds -> at_metric r = metric -> truthy_Z (at_enabled r) = false) ->
  exec (checkThresholds_loop env nodesStatus thresholds) w
  = exec (checkThresholds_loop env nodesStatus
            (List.filter (fun r => negb (String.eqb (at_metric r) metric)) thresholds)) w.
Proof.
  intros Hdis. unfold checkThresholds_loop. revert w.
  induction nodesStatus as [|status l IH]; intros w; [reflexivity|].
  rewrite !exec_forEach_cons, <- inner_loop_without_disabled by exact Hdis. apply IH.
Qed.

(** C2. When the row of a metric is disabled, the evaluator writes no
    [alert_history] row for that metric, leaves the cooldown of every
    (node, metric) pair untouched, and behaves in everything, the Notifier
    included, as if the row were not in the table: whatever the nodes report. *)
Theorem disabled_threshold_skipped (metric : string) (w : World) :
  (forall r, r ∈ rows (alert_thresholds w) ->
             at_metric r = metric -> truthy_Z (at_enabled r) = false) ->
  no_colon metric = true ->
  (forall r, r ∈ rows (alert_thresholds w) -> no_colon (at_metric r) = true) ->
  let w' := exec (checkThresholds env) w in
  List.filter (fun r => String.eqb (ah_metric r) metric) (rows (alert_history w'))
  = List.filter (fun r => String.eqb (ah_metric r) metric) (rows (alert_history w))
  /\ (forall node, alertCooldowns w' !! getCooldownKey node metric
                   = alertCooldowns w !! getCooldownKey node metric)
  /\ w' = exec (checkThresholds_loop env (eval (getAllNodesStatus env) w)
                 (List.filter (fun r => negb (String.eqb (at_metric r) metric))
                              (rows (alert_thresholds w))))
               (exec (getAllNodesStatus env) w).
Proof.
  intros Hdis Hm Hall w'. subst w'. rewrite checkThresholds_unfold.
  split; [|split]; [| |apply loop_without_disabled, Hdis].
  - apply (preserves_forEach_in
      (fun w' => List.filter (fun r => String.eqb (ah_metric r) metric) (rows (alert_history w'))
                 = List.filter (fun r => String.eqb (ah_metric r) metric) (rows (alert_history w)))).
    + intros status _. apply preserves_forEach_in. intros r Hr w1 Hw1.
      rewrite <- Hw1. apply checkThresholds_body_frame; auto.
    + reflexivity.
  - intros node.
    apply (preserves_forEach_in
      (fun w' => alertCooldowns w' !! getCooldownKey node metric
                 = alertCooldowns w !! getCooldownKey node metric)).
    + intros status _. apply preserves_forEach_in. intros r Hr w1 Hw1.
      rewrite <- Hw1. apply checkThresholds_body_frame; auto.
    + reflexivity.
Qed.

End Evaluator.

(** ** Delivery failures *)

Section Delivery.
Context `{JSHost} (env : Env).

(** Whatever the webhook answers, a call of the Notifier leaves the same
    state behind, the console apart. *)
Lemma sendDiscordAlert_related f title description color :
  related (sendDiscordAlert (with_webhook env f) title description color)
          (sendDiscordAlert env title description color).
Proof.
  intros w w' Hw. split.
  { destruct (eval _ w), (eval _ w'). reflexivity. }
  apply agree_fields in Hw. destruct Hw as (? & ? & ? & ? & ? & ? & ? & ? & ? & ?).
  apply agree_fields. run_m.
  destruct (truthy_string (DISCORD_WEBHOOK_URL env)); cbn;
    repeat match goal with
           | |- context [match ?x with Fulfilled _ => _ | Rejected _ => _ end] => destruct x
           end; cbn; repeat split; congruence.
Qed.

Ltac rel_step :=
  cbn [with_webhook nodes DISCORD_WEBHOOK_URL system_clock api_status api_qemu api_lxc
       lxc_fails_first];
  match goal with
  | |- related (sendDiscordAlert _ _ _ _) (sendDiscordAlert _ _ _ _) =>
      apply sendDiscordAlert_related
  | |- related (ret _) (ret _) => apply related_ret
  | |- related (mret _) (mret _) => apply related_mret
  | |- related (_ ≫= _) (_ ≫= _) => apply related_bind; [|intros ?]
  | |- related (gets _) (gets _) => apply related_gets; agree_leaf
  | |- related (modify _) (modify _) => apply related_modify; agree_leaf
  | |- related (forEach _ _) (forEach _ _) => apply related_forEach; intros ?
  | |- related (forAcc _ _ _) (forAcc _ _ _) => apply related_forAcc; intros ? ?
  | |- related (tryEach _ _) (tryEach _ _) => apply related_tryEach; intros ?
  | |- related (fun w1 => _) (fun w2 => _) => apply related_step; agree_leaf
  | |- related (if ?b then _ else _) (if ?b then _ else _) => destruct b
  | |- related (match ?x with _ => _ end) (match ?x with _ => _ end) => destruct x
  | |- related (let x := _ in _) _ => cbv zeta
  | |- related (setCooldown _ _ _) (setCooldown _ _ _) => unfold setCooldown
  | |- related _ _ => progress autounfold with model
  end.

Ltac rel := repeat rel_step.

Lemma checkThresholds_body_related f status threshold :
  related (checkThresholds_body (with_webhook env f) status threshold)
          (checkThresholds_body env status threshold).
Proof. rel. Qed.

Lemma checkVMStatus_related f :
  related (checkVMStatus (with_webhook env f)) (checkVMStatus env).
Proof. rel. Qed.

Lemma scheduled_check_related f :
  related (scheduled_check (with_webhook env f)) (scheduled_check env).
Proof. rel. Qed.

Lemma agree_refl w : agree w w.
Proof. reflexivity. Qed.

(** C6. For a breach that is not on cooldown, the [alert_history] row is
    written and the cooldown stamp is set under every behaviour [f] of the
    webhook, a rejected POST included; and replacing the webhook's behaviour
    changes nothing in what the evaluator, the detector and a whole scheduled
    check leave behind (cooldown map, tables, stored snapshot, counters), the
    console apart: the rejection is consumed inside [sendDiscordAlert]. *)
Theorem delivery_failure_contained (f : nat -> Settled unit)
    (status : ProxmoxNodeStatus) (threshold : AlertThreshold) (w : World) :
  breaches status threshold = true ->
  eval (isOnCooldown env (ns_node status) (at_metric threshold)) w = false ->
  let env' := with_webhook env f in
  let w' := exec (checkThresholds_body env' status threshold) w in
  (map entry_view (rows (alert_history w'))
   = map entry_view (rows (alert_history w))
     ++ [(at_metric threshold, currentValue status (at_metric threshold),
          at_threshold threshold, threshold_message status threshold)]
   /\ exists n, (clock_reads w <= n)%nat
        /\ alertCooldowns w'
           = <[getCooldownKey (ns_node status) (at_metric threshold) := system_clock env n]>
               (alertCooldowns w))
  /\ bookkeeping w' = bookkeeping (exec (checkThresholds_body env status threshold) w)
  /\ (forall w0, bookkeeping (exec (scheduled_check env') w0)
                 = bookkeeping (exec (scheduled_check env) w0))
  /\ (forall w0, bookkeeping (exec (checkVMStatus env') w0)
                 = bookkeeping (exec (checkVMStatus env) w0)).
Proof.
  intros Hb Hcd env' w'. repeat split.
  - destruct (checkThresholds_body_fires env' status threshold w Hb Hcd)
      as (n & posts & out & ts & Hex & Hn).
    subst w'. rewrite Hex. cbn. rewrite map_app. reflexivity.
  - destruct (checkThresholds_body_fires env' status threshold w Hb Hcd)
      as (n & posts & out & ts & Hex & Hn).
    exists n. subst w'. rewrite Hex. cbn. split; [lia|reflexivity].
  - apply (checkThresholds_body_related f status threshold w w), agree_refl.
  - intros w0. apply (scheduled_check_related f w0 w0), agree_refl.
  - intros w0. apply (checkVMStatus_related f w0 w0), agree_refl.
Qed.

End Delivery.

(** ** The workload transition detector *)

Section Detector.
Context `{JSHost} (env : Env).

Lemma getVMs_keeps_bot_config nodeName X :
  preserves (fun w => bot_config w = X) (getVMs env nodeName).
Proof. pres. Qed.

Lemma getVMs_keeps_notifier_calls nodeName X :
  preserves (fun w => notifier_calls w = X) (getVMs env nodeName).
Proof. pres. Qed.

Lemma getVMs_bot_config nodeName w :
  bot_config (exec (getVMs env nodeName) w) = bot_config w.
Proof. now apply getVMs_keeps_bot_config. Qed.

Lemma getVMs_notifier_calls nodeName w :
  notifier_calls (exec (getVMs env nodeName) w) = notifier_calls w.
Proof. now apply getVMs_keeps_notifier_calls. Qed.

Lemma sendDiscordAlert_notifier_calls title description color w :
  notifier_calls (exec (sendDiscordAlert env title description color) w)
  = notifier_calls w ++ [{| da_title := title; da_description := description;
                            da_color := color |}].
Proof.
  destruct (sendDiscordAlert_exec env title description color w)
    as (n & posts & out & -> & _).
  reflexivity.
Qed.

Lemma sendDiscordAlert_bot_config title description color w :
  bot_config (exec (sendDiscordAlert env title description color) w) = bot_config w.
Proof.
  destruct (sendDiscordAlert_exec env title description color w)
    as (n & posts & out & -> & _).
  reflexivity.
Qed.

Lemma checkVMStatus_body_eval prev vm cur w :
  eval (checkVMStatus_body env prev vm cur) w = <[vm_key vm := vm_status vm]> cur.
Proof. reflexivity. Qed.

Lemma checkVMStatus_body_notifier_calls prev vm cur w :
  notifier_calls (exec (checkVMStatus_body env prev vm cur) w)
  = notifier_calls w ++ transition_alerts prev vm.
Proof.
  unfold checkVMStatus_body, transition_alerts. repeat (rewrite exec_bind; cbn beta).
  rewrite exec_ret.
  destruct (bool_decide (prev !! vm_key vm = Some "running"%string)
            && String.eqb (vm_status vm) "stopped");
    destruct (bool_decide (prev !! vm_key vm = Some "stopped"%string)
              && String.eqb (vm_status vm) "running");
    repeat first [rewrite exec_ret | rewrite sendDiscordAlert_notifier_calls];
    rewrite ?app_nil_r, <- ?app_assoc; reflexivity.
Qed.

Lemma checkVMStatus_body_bot_config prev vm cur w :
  bot_config (exec (checkVMStatus_body env prev vm cur) w) = bot_config w.
Proof.
  unfold checkVMStatus_body. repeat (rewrite exec_bind; cbn beta). rewrite exec_ret.
  destruct (bool_decide (prev !! vm_key vm = Some "running"%string)
            && String.eqb (vm_status vm) "stopped");
    destruct (bool_decide (prev !! vm_key vm = Some "stopped"%string)
              && String.eqb (vm_status vm) "running");
    repeat first [rewrite exec_ret | rewrite sendDiscordAlert_bot_config]; reflexivity.
Qed.

(** The loop over the inventory: the map it builds and the calls it makes. *)
Lemma detector_loop prev vms cur w :
  eval (forAcc vms (checkVMStatus_body env prev) cur) w = states_of vms cur
  /\ notifier_calls (exec (forAcc vms (checkVMStatus_body env prev) cur) w)
     = notifier_calls w ++ flat_map (transition_alerts prev) vms
  /\ bot_config (exec (forAcc vms (checkVMStatus_body env prev) cur) w) = bot_config w.
Proof.
  revert cur w. induction vms as [|vm vms IH]; intros cur w.
  - cbn. rewrite app_nil_r. auto.
  - rewrite exec_forAcc_cons, eval_forAcc_cons, checkVMStatus_body_eval.
    destruct (IH (<[vm_key vm := vm_status vm]> cur)
                 (exec (checkVMStatus_body env prev vm cur) w)) as (E1 & E2 & E3).
    rewrite E1, E2, E3, checkVMStatus_body_notifier_calls, checkVMStatus_body_bot_config.
    cbn [flat_map states_of foldl]. rewrite app_assoc. auto.
Qed.

(** With a readable snapshot, [checkVMStatus] is: fetch, loop, store. *)
Lemma checkVMStatus_unfold w prev :
  previous_snapshot w = Some prev ->
  exec (checkVMStatus env) w
  = exec (setConfig "vm_states"
            (JSON_stringify (states_of (eval (getVMs env None) w) ∅)))
         (exec (forAcc (eval (getVMs env None) w) (checkVMStatus_body env prev) ∅)
               (exec (getVMs env None) w)).
Proof.
  intros Hprev. unfold checkVMStatus.
  rewrite exec_bind, exec_bind.
  change (eval (getConfig "vm_states") (exec (getVMs env None) w))
    with (bot_config (exec (getVMs env None) w) !! "vm_states"%string).
  change (exec (getConfig "vm_states") (exec (getVMs env None) w))
    with (exec (getVMs env None) w).
  rewrite getVMs_bot_config. unfold previous_snapshot in Hprev. rewrite Hprev.
  rewrite exec_bind.
  destruct (detector_loop prev (eval (getVMs env None) w) ∅ (exec (getVMs env None) w))
    as (-> & _ & _).
  reflexivity.
Qed.

Lemma transition_alerts_cases prev vm :
  (prev !! vm_key vm = Some "stopped"%string -> vm_status vm = "running"%string ->
   transition_alerts prev vm = [vm_started_alert vm])
  /\ (prev !! vm_key vm = Some "running"%string -> vm_status vm = "stopped"%string ->
      transition_alerts prev vm = [vm_stopped_alert vm])
  /\ (prev !! vm_key vm = Some (vm_status vm) -> transition_alerts prev vm = [])
  /\ (prev !! vm_key vm = None -> transition_alerts prev vm = []).
Proof.
  unfold transition_alerts. repeat split.
  - intros -> ->. reflexivity.
  - intros -> ->. reflexivity.
  - intros ->.
    destruct (String.eqb_spec (vm_status vm) "stopped") as [->|_];
      destruct (String.eqb_spec (vm_status vm) "running") as [E|_];
      rewrite ?andb_false_r; try reflexivity; try discriminate.
    + rewrite E. reflexivity.
  - intros ->. reflexivity.
Qed.


(** *** Running the detector twice *)

Lemma states_of_lookup vms init k s :
  states_of vms init !! k = Some s ->
  (exists vm, vm ∈ vms /\ vm_key vm = k /\ vm_status vm = s) \/ init !! k = Some s.
Proof.
  revert init. induction vms as [|vm vms IH]; intros init Hk; [now right|].
  cbn [states_of foldl] in Hk. apply IH in Hk as [(vm' & Hin & Hkey & Hst) | Hk].
  - left. exists vm'. split; [now right | auto].
  - destruct (decide (vm_key vm = k)) as [E|Hne].
    + rewrite E, lookup_insert_eq in Hk. left. exists vm.
      split; [left | split; [exact E | congruence]].
    + rewrite lookup_insert_ne in Hk by exact Hne. now right.
Qed.

(** Against the map built from a consistent inventory, or against the empty
    map, no workload of that inventory shows a transition. *)
Lemma no_transition_against_own_states vms vm :
  consistent_inventory vms -> vm ∈ vms ->
  transition_alerts (states_of vms ∅) vm = [].
Proof.
  intros Hcons Hin.
  destruct (transition_alerts_cases (states_of vms ∅) vm) as (_ & _ & Hsame & Hnone).
  destruct (states_of vms ∅ !! vm_key vm) as [s|] eqn:Hk; [|now apply Hnone].
  apply states_of_lookup in Hk as Hk'.
  destruct Hk' as [(vm' & Hin' & Hkey & Hst) | Hk']; [|now rewrite lookup_empty in Hk'].
  apply Hsame. rewrite <- Hst. f_equal. apply Hcons; assumption.
Qed.

Lemma no_transition_against_empty vm : transition_alerts ∅ vm = [].
Proof.
  destruct (transition_alerts_cases ∅ vm) as (_ & _ & _ & Hnone).
  apply Hnone, lookup_empty.
Qed.

Lemma flat_map_nil {A B} (f : A -> list B) (l : list A) :
  (forall x, x ∈ l -> f x = []) -> flat_map f l = [].
Proof.
  induction l as [|x l IH]; intros Hf; [reflexivity|].
  cbn. rewrite (Hf x) by left. apply IH. intros y Hy. apply Hf. now right.
Qed.

Lemma checkVMStatus_persists w prev :
  previous_snapshot w = Some prev ->
  bot_config (exec (checkVMStatus env) w) !! "vm_states"%string
  = Some (JSON_stringify (states_of (eval (getVMs env None) w) ∅)).
Proof.
  intros Hprev. rewrite (checkVMStatus_unfold w prev Hprev). apply lookup_insert_eq.
Qed.

Lemma checkVMStatus_notifier_calls w prev :
  previous_snapshot w = Some prev ->
  notifier_calls (exec (checkVMStatus env) w)
  = notifier_calls w ++ flat_map (transition_alerts prev) (eval (getVMs env None) w).
Proof.
  intros Hprev. rewrite (checkVMStatus_unfold w prev Hprev).
  change (notifier_calls (exec (setConfig ?k ?v) ?w0)) with (notifier_calls w0).
  destruct (detector_loop prev (eval (getVMs env None) w) ∅ (exec (getVMs env None) w))
    as (_ & -> & _).
  now rewrite getVMs_notifier_calls.
Qed.


End Detector.

(** ** The metric collector and the per-node failures *)

Section Collector.
Context `{JSHost} (env : Env).

Lemma getAllNodesStatus_eval w :
  eval (getAllNodesStatus env) w
  = fulfilled_values
      (map (fun node => getNodeStatus env (api_rounds w) (Some (pn_name node))) (nodes env)).
Proof. reflexivity. Qed.

Lemma getAllNodesStatus_exec w :
  exec (getAllNodesStatus env) w = set_api_rounds (S (api_rounds w)) w.
Proof. reflexivity. Qed.

(** Every node whose status request is fulfilled is in the batch. *)
Lemma fulfilled_in_batch w node status :
  node ∈ nodes env ->
  getNodeStatus env (api_rounds w) (Some (pn_name node)) = Fulfilled status ->
  status ∈ eval (getAllNodesStatus env) w.
Proof.
  intros Hin Hst. rewrite getAllNodesStatus_eval. unfold fulfilled_values.
  apply list_elem_of_omap.
  exists (getNodeStatus env (api_rounds w) (Some (pn_name node))). split.
  - apply list_elem_of_In.
    apply (in_map (fun node => getNodeStatus env (api_rounds w) (Some (pn_name node)))).
    apply list_elem_of_In, Hin.
  - rewrite Hst. reflexivity.
Qed.

Lemma written_prefix_numbers points :
  Forall (fun p => PrimFloat.is_nan (snd p) = false) points -> written_prefix points = points.
Proof.
  induction 1 as [|p l Hp _ IH]; [reflexivity|]. cbn [written_prefix]. now rewrite Hp, IH.
Qed.

Lemma written_prefix_app points rest :
  written_prefix (points ++ rest)
  = if forallb (fun p => negb (PrimFloat.is_nan (snd p))) points
    then points ++ written_prefix rest else written_prefix points.
Proof.
  induction points as [|p l IH]; [reflexivity|]. cbn [app written_prefix forallb].
  destruct (PrimFloat.is_nan (snd p)); cbn [negb andb]; [reflexivity|].
  rewrite IH. now destruct (forallb _ l).
Qed.

(** One node of the batch: the points up to the first value that is no
    number are written, and the body throws at that value. *)
Lemma collectMetrics_body_points status w :
  map point_view (rows (metric_history (exec (collectMetrics_body env status) w)))
  = map point_view (rows (metric_history w)) ++ written_prefix (points_of status)
  /\ (exists e, eval (collectMetrics_body env status) w
                = if forallb (fun p => negb (PrimFloat.is_nan (snd p))) (points_of status)
                  then Fulfilled tt else Rejected e).
Proof.
  destruct w. unfold collectMetrics_body, and_then, addMetricHistory, points_of.
  cbn [written_prefix forallb snd].
  destruct (PrimFloat.is_nan (ns_cpu status));
    [run_m; rewrite app_nil_r; split; [reflexivity|eexists; reflexivity]|].
  destruct (PrimFloat.is_nan (percent (ns_memory status)));
    [run_m; rewrite map_app; split; [reflexivity|eexists; reflexivity]|].
  destruct (PrimFloat.is_nan (percent (ns_disk status)));
    run_m; rewrite !map_app, <- !app_assoc;
    (split; [reflexivity|first [eexists; reflexivity | exists (mkError EmptyString); reflexivity]]).
Qed.

Lemma collect_loop_points batch w :
  map point_view (rows (metric_history (exec (tryEach batch (collectMetrics_body env)) w)))
  = map point_view (rows (metric_history w)) ++ written_prefix (flat_map points_of batch).
Proof.
  revert w. induction batch as [|status batch IH]; intros w.
  - cbn. now rewrite app_nil_r.
  - cbn [tryEach flat_map]. unfold and_then. rewrite exec_bind. cbn beta.
    destruct (collectMetrics_body_points status w) as (Hp & e & He).
    rewrite He, written_prefix_app.
    destruct (forallb _ (points_of status)) eqn:Hall.
    + rewrite IH, Hp, <- app_assoc. f_equal. f_equal.
      apply written_prefix_numbers, List.Forall_forall. intros p Hin.
      rewrite forallb_forall in Hall. specialize (Hall p Hin).
      now destruct (PrimFloat.is_nan (snd p)).
    + rewrite exec_ret. exact Hp.
Qed.

Lemma catch_keeps_points (r : Settled unit) label w :
  metric_history
    (exec (match r with
           | Fulfilled _ => ret tt
           | Rejected error => console_out ERROR [label; String_of_error error]
           end) w)
  = metric_history w.
Proof. destruct r, w; reflexivity. Qed.

(** The points of a tick are computed from the batch its collection fetched,
    up to the first value that is no number. *)
Lemma collectMetrics_points w :
  map point_view (rows (metric_history (exec (collectMetrics env) w)))
  = map point_view (rows (metric_history w))
    ++ written_prefix (flat_map points_of (eval (getAllNodesStatus env) w)).
Proof.
  unfold collectMetrics. rewrite exec_bind. cbn beta. rewrite exec_bind. cbn beta.
  rewrite catch_keeps_points, collect_loop_points. reflexivity.
Qed.

Lemma collectMetrics_all_points w :
  all_numbers (eval (getAllNodesStatus env) w) ->
  map point_view (rows (metric_history (exec (collectMetrics env) w)))
  = map point_view (rows (metric_history w))
    ++ flat_map points_of (eval (getAllNodesStatus env) w).
Proof.
  intros Hn. rewrite collectMetrics_points. f_equal. now apply written_prefix_numbers.
Qed.

Lemma collectMetrics_keeps_errors X :
  preserves (fun w => lastNodeErrors w = X) (collectMetrics env).
Proof. pres. Qed.

Lemma checkThresholds_keeps_errors X :
  preserves (fun w => lastNodeErrors w = X) (checkThresholds env).
Proof. pres. Qed.

(** The value the evaluator compares is computed by the formula of the point. *)
Lemma currentValue_in_points status metric :
  metric ∈ ["cpu"; "memory"; "disk"]%string ->
  (ns_node status, metric, currentValue status metric) ∈ points_of status.
Proof.
  intros Hm. unfold points_of, currentValue, switch_metric.
  repeat (apply elem_of_cons in Hm as [-> | Hm]; [cbn; set_solver|]).
  now apply elem_of_nil in Hm.
Qed.

(** *** The error map *)

#[local] Arguments Promise_all2 : simpl never.
#[local] Arguments proxmoxFetch : simpl never.

Lemma getVMs_body_effect node acc w :
  api_rounds (exec (getVMs_body env node acc) w) = S (api_rounds w)
  /\ (vm_fetch_failed env (api_rounds w) node ->
      exists msg, lastNodeErrors (exec (getVMs_body env node acc) w)
                  = <[pn_name node := msg]> (lastNodeErrors w))
  /\ (~ vm_fetch_failed env (api_rounds w) node ->
      lastNodeErrors (exec (getVMs_body env node acc) w) = lastNodeErrors w).
Proof.
  unfold vm_fetch_failed. destruct w. run_m.
  destruct (Promise_all2 _ _ _) as [[qemu lxc]|e]; cbn; repeat split; try tauto; eauto.
Qed.

Lemma getVMs_loop_errors targetNodes acc w name :
  is_Some (lastNodeErrors (exec (forAcc targetNodes (getVMs_body env) acc) w) !! name)
  <-> is_Some (lastNodeErrors w !! name)
      \/ exists i node, targetNodes !! i = Some node /\ pn_name node = name
                        /\ vm_fetch_failed env (api_rounds w + i) node.
Proof.
  revert acc w. induction targetNodes as [|node l IH]; intros acc w.
  - cbn. split; [auto|]. intros [Hs|(i & node & Hi & _)]; [exact Hs|].
    now rewrite lookup_nil in Hi.
  - rewrite exec_forAcc_cons, IH.
    destruct (getVMs_body_effect node acc w) as (Hr & Hfail & Hok).
    rewrite Hr. split.
    + intros [Hs | (i & node' & Hi & Hname & Hf)].
      * assert (Hdec : vm_fetch_failed env (api_rounds w) node
                       \/ ~ vm_fetch_failed env (api_rounds w) node).
        { unfold vm_fetch_failed. destruct (Promise_all2 _ _ _); tauto. }
        destruct Hdec as [Hf | Hnf].
        -- destruct (Hfail Hf) as (msg & Hmap). rewrite Hmap in Hs.
           destruct (decide (pn_name node = name)) as [E|Hne].
           ++ right. exists 0%nat, node. rewrite Nat.add_0_r. auto.
           ++ left. now rewrite lookup_insert_ne in Hs.
        -- left. now rewrite (Hok Hnf) in Hs.
      * right. exists (S i), node'. rewrite Nat.add_succ_r. auto.
    + intros [Hs | (i & node' & Hi & Hname & Hf)].
      * left.
        assert (Hdec : vm_fetch_failed env (api_rounds w) node
                       \/ ~ vm_fetch_failed env (api_rounds w) node).
        { unfold vm_fetch_failed. destruct (Promise_all2 _ _ _); tauto. }
        destruct Hdec as [Hf | Hnf].
        -- destruct (Hfail Hf) as (msg & ->).
           destruct (decide (pn_name node = name)) as [E|Hne].
           ++ rewrite E, lookup_insert_eq. eauto.
           ++ now rewrite lookup_insert_ne.
        -- now rewrite (Hok Hnf).
      * destruct i as [|i]; cbn in Hi.
        -- injection Hi as <-. left. rewrite Nat.add_0_r in Hf.
           destruct (Hfail Hf) as (msg & ->). rewrite Hname, lookup_insert_eq. eauto.
        -- right. exists i, node'. rewrite Nat.add_succ_r in Hf. auto.
Qed.

Lemma getVMs_lastNodeErrors w :
  lastNodeErrors (exec (getVMs env None) w)
  = lastNodeErrors (exec (forAcc (nodes env) (getVMs_body env) []) (set_lastNodeErrors ∅ w)).
Proof.
  unfold getVMs. cbn [truthy_opt]. repeat (rewrite exec_bind; cbn beta).
  destruct (bool_decide _ && bool_decide _); reflexivity.
Qed.

(** After [getVMs], the error map has an entry for a name exactly when the
    workload fetch of a node of that name failed. *)
Lemma getVMs_errors w name :
  is_Some (lastNodeErrors (exec (getVMs env None) w) !! name)
  <-> exists i node, nodes env !! i = Some node /\ pn_name node = name
                     /\ vm_fetch_failed env (api_rounds w + i) node.
Proof.
  rewrite getVMs_lastNodeErrors, getVMs_loop_errors. cbn. rewrite lookup_empty.
  split; [intros [[? [=]]|Hx]; exact Hx | auto].
Qed.

Lemma after_getVMs_keeps_errors X vms :
  preserves (fun w => lastNodeErrors w = X)
    (previousStates ← getConfig "vm_states";
     match (if truthy_opt previousStates
            then JSON_parse (default EmptyString previousStates)
            else Some ∅) with
     | None => console_out ERROR ["Error checking VM status:"%string; "SyntaxError"%string]
     | Some prevStatesMap =>
         currentStatesMap ← forAcc vms (checkVMStatus_body env prevStatesMap) ∅;
         setConfig "vm_states" (JSON_stringify currentStatesMap)
     end).
Proof. pres. Qed.

Lemma checkVMStatus_lastNodeErrors w :
  lastNodeErrors (exec (checkVMStatus env) w) = lastNodeErrors (exec (getVMs env None) w).
Proof.
  unfold checkVMStatus. rewrite exec_bind. now apply after_getVMs_keeps_errors.
Qed.

Lemma cleanupOldHistory_keeps_errors X :
  preserves (fun w => lastNodeErrors w = X) (cleanupOldHistory env).
Proof. pres. Qed.

Lemma collectMetrics_keeps_rounds X batch :
  preserves (fun w => api_rounds w = X)
    (r ← tryEach batch (collectMetrics_body env);
     match r with
     | Fulfilled _ => ret tt
     | Rejected error =>
         console_out ERROR ["Error collecting metrics:"%string; String_of_error error]
     end).
Proof. pres. Qed.

Lemma check_loop_keeps_rounds X batch thresholds :
  preserves (fun w => api_rounds w = X) (checkThresholds_loop env batch thresholds).
Proof. pres. Qed.

Lemma collectMetrics_rounds w :
  api_rounds (exec (collectMetrics env) w) = S (api_rounds w).
Proof. unfold collectMetrics. rewrite exec_bind. now apply collectMetrics_keeps_rounds. Qed.

Lemma checkThresholds_rounds w :
  api_rounds (exec (checkThresholds env) w) = S (api_rounds w).
Proof. rewrite checkThresholds_unfold. now apply check_loop_keeps_rounds. Qed.

(** The error map a scheduled check leaves is the one of its workload fetch,
    which runs in the request rounds after the two status fetches. *)
Lemma scheduled_check_errors w name :
  is_Some (lastNodeErrors (exec (scheduled_check env) w) !! name)
  <-> exists i node, nodes env !! i = Some node /\ pn_name node = name
                     /\ vm_fetch_failed env (api_rounds w + 2 + i) node.
Proof.
  unfold scheduled_check. repeat (rewrite exec_bind; cbn beta).
  rewrite (cleanupOldHistory_keeps_errors _ _ eq_refl), checkVMStatus_lastNodeErrors.
  rewrite getVMs_errors, checkThresholds_rounds, collectMetrics_rounds.
  change (api_rounds (exec (console_out _ _) w)) with (api_rounds w).
  replace (S (S (api_rounds w))) with (api_rounds w + 2)%nat by lia. reflexivity.
Qed.



End Collector.

(** ** The stores *)

(** ** C10: updating a metric that has no row *)

Lemma update_rows_absent (metric : string) (f : AlertThreshold -> AlertThreshold)
    (l : list AlertThreshold) :
  (forall r, r ∈ l -> at_metric r <> metric) ->
  map (fun r => if String.eqb (at_metric r) metric then f r else r) l = l.
Proof.
  induction l as [|r l IH]; intros Hl; [reflexivity|].
  cbn [map]. rewrite IH by (intros r' Hr'; apply Hl; now right).
  destruct (String.eqb_spec (at_metric r) metric) as [E|_]; [|reflexivity].
  exfalso. apply (Hl r); [left|exact E].
Qed.

(** C10. Updating a metric name that has no row in [alert_thresholds] changes
    nothing: no row is modified and none is inserted; the whole process state
    is the one before. *)
Theorem updateAlertThreshold_absent_metric (metric : string) (threshold : float)
    (enabled : bool) (w : World) :
  (forall r, r ∈ rows (alert_thresholds w) -> at_metric r <> metric) ->
  exec (updateAlertThreshold metric threshold enabled) w = w.
Proof.
  intros Habs.
  assert (Hno : existsb (fun r => String.eqb (at_metric r) metric)
                        (rows (alert_thresholds w)) = false).
  { apply not_true_is_false. intros Hex. apply existsb_exists in Hex as (r & Hr & E).
    apply String.eqb_eq in E. apply (Habs r); [now apply list_elem_of_In|exact E]. }
  unfold updateAlertThreshold. rewrite exec_bind. cbn beta.
  change (eval (gets (fun w0 => rows (alert_thresholds w0))) w) with (rows (alert_thresholds w)).
  change (exec (gets (fun w0 => rows (alert_thresholds w0))) w) with w.
  rewrite Hno, andb_false_r. rewrite exec_bind, exec_ret. cbn beta.
  unfold exec, modify. cbn [snd].
  rewrite update_rows_absent by exact Habs.
  destruct w as [? ? [? ?] ? ? ? ? ? ? ? ?]. reflexivity.
Qed.

(** ** The statements on the concrete scenarios *)

Section Witnesses.
Import Scenario.
#[local] Existing Instance Scenario.host.

(** Splits a membership in an explicit list into its cases. *)
Ltac each_member H :=
  vm_compute in H;
  repeat (apply elem_of_cons in H as [-> | H]);
  [.. | apply elem_of_nil in H; destruct H].

Lemma demo_clock_sane : clock_sane env.
Proof. split; intros; cbn; unfold noon; lia. Defined.

(** The seeded table has no row for [network]: updating it changes nothing. *)
Lemma updateAlertThreshold_absent_metric_witness :
  exec (updateAlertThreshold "network" 50%float true) seeded = seeded.
Proof.
  apply updateAlertThreshold_absent_metric.
  intros r Hr. each_member Hr; discriminate.
Defined.

(** The spec's end-to-end scenario on the seeded process: one pass of the
    evaluator with [pve1] at 85.3 % cpu and the row [{cpu, 80}]. *)
Lemma evaluator_fires_on_breach_witness :
  let w' := exec (checkThresholds env) seeded in
  (exists earlier later,
     notifier_calls w'
     = notifier_calls seeded ++ map fired_alert earlier
       ++ [threshold_alert pve1_status cpu_row] ++ map fired_alert later
     /\ map entry_view (rows (alert_history w'))
        = map entry_view (rows (alert_history seeded)) ++ map fired_entry earlier
          ++ [(at_metric cpu_row, currentValue pve1_status (at_metric cpu_row),
               at_threshold cpu_row, threshold_message pve1_status cpu_row)]
          ++ map fired_entry later
     /\ Forall (fun p => ~ (ns_node (fst p) = ns_node pve1_status
                            /\ at_metric (snd p) = at_metric cpu_row))
               (earlier ++ later)
     /\ exists n, (clock_reads seeded <= n < clock_reads w')%nat
          /\ alertCooldowns w' !! getCooldownKey (ns_node pve1_status) (at_metric cpu_row)
             = Some (system_clock env n))
  /\ map entry_view (rows (alert_history w'))
     = [("cpu"%string, 85.3%float, 80%float, "CPU on pve1: 85.3% (threshold: 80%)"%string)]
  /\ map da_title (notifier_calls w') = ["⚠️ CPU Alert"%string]
  /\ alertCooldowns w' !! "pve1:cpu"%string = Some (noon + 5000).
Proof.
  split; [|repeat split; vm_compute; reflexivity].
  apply (evaluator_fires_on_breach env pve1_status cpu_row seeded demo_clock_sane).
  - vm_compute. left.
  - vm_compute. left.
  - refine (bool_decide_unpack _ _). vm_compute. exact I.
  - refine (bool_decide_unpack _ _). vm_compute. exact I.
  - intros r Hr. each_member Hr; reflexivity.
  - reflexivity.
  - vm_compute. reflexivity.
  - reflexivity.
Defined.

(** C1 (the code at the failing input). The iteration of [checkThresholds]
    checks the cooldown and writes the history row before its
    [await sendDiscordAlert(...)], and stamps the cooldown only after it.  Two
    flows of the process that evaluate the pair [(pve1, cpu)] at 85.3 % against
    the row [{cpu, 80}], the second reaching its [await] while the POST of the
    first is pending, both find the pair off cooldown: two [alert_history]
    rows and two Notifier calls for the one pair, two seconds apart.  Run
    without another flow in between, the two parts are the iteration. *)
Theorem cooldown_race_fires_twice :
  let w := exec (two_flows_interleaved env pve1_status cpu_row) seeded in
  (forall w0, exec (checkThresholds_body env pve1_status cpu_row) w0
              = exec (checkThresholds_body_resumed env pve1_status cpu_row) w0)
  /\ eval (isOnCooldown env "pve1" "cpu") seeded = false
  /\ map entry_view (rows (alert_history w))
     = [("cpu"%string, 85.3%float, 80%float, "CPU on pve1: 85.3% (threshold: 80%)"%string);
        ("cpu"%string, 85.3%float, 80%float, "CPU on pve1: 85.3% (threshold: 80%)"%string)]
  /\ map ah_created_at (rows (alert_history w))
     = ["2026-11-02 12:00:03"; "2026-11-02 12:00:05"]%string
  /\ map da_title (notifier_calls w) = ["⚠️ CPU Alert"; "⚠️ CPU Alert"]%string
  /\ map wp_timestamp (webhook_posts w)
     = ["2026-11-02T12:00:04.000Z"; "2026-11-02T12:00:06.000Z"]%string
  /\ alertCooldowns w !! "pve1:cpu"%string = Some (noon + 8000).
Proof.
  cbv zeta. split; [intros w0; apply checkThresholds_body_split|].
  repeat split; vm_compute; reflexivity.
Qed.


(** With the [cpu] row switched off, a node at 85.3 % cpu leaves no trace of
    [cpu] in the history and no cooldown for [cpu]. *)
Lemma disabled_threshold_skipped_witness :
  let w' := exec (checkThresholds env) cpu_disabled in
  List.filter (fun r => String.eqb (ah_metric r) "cpu") (rows (alert_history w'))
  = List.filter (fun r => String.eqb (ah_metric r) "cpu") (rows (alert_history cpu_disabled))
  /\ (forall node, alertCooldowns w' !! getCooldownKey node "cpu"
                   = alertCooldowns cpu_disabled !! getCooldownKey node "cpu")
  /\ w' = exec (checkThresholds_loop env (eval (getAllNodesStatus env) cpu_disabled)
                 (List.filter (fun r => negb (String.eqb (at_metric r) "cpu"))
                              (rows (alert_thresholds cpu_disabled))))
               (exec (getAllNodesStatus env) cpu_disabled).
Proof.
  apply (disabled_threshold_skipped env "cpu" cpu_disabled).
  - intros r Hr. each_member Hr; intros E; try discriminate E; reflexivity.
  - reflexivity.
  - intros r Hr. each_member Hr; reflexivity.
Defined.



(** The claim of C4 fails here.  With the stored text [{oops], which does not
    parse, a run leaves the text where it is: what is stored after the run is
    not the map of the current inventory.  And on an inventory that lists
    workload 100 of [pve1] twice, running and stopped, the first run stores
    the state [stopped] and the second run, on the same inventory, calls the
    Notifier with a start. *)
Lemma detector_claim_fails :
  (bot_config (exec (checkVMStatus env) corrupt_states) !! "vm_states"%string
   = Some "{oops"%string
   /\ JSON_stringify (states_of (eval (getVMs env None) corrupt_states) ∅)
      = json_of_web "running")
  /\ let w1 := exec (checkVMStatus env_listed_twice) seeded in
     eval (getVMs env_listed_twice None) w1 = eval (getVMs env_listed_twice None) seeded
     /\ map vm_key (eval (getVMs env_listed_twice None) seeded)
        = ["pve1:100"; "pve1:100"]%string
     /\ bot_config w1 !! "vm_states"%string = Some (json_of_web "stopped")
     /\ map da_title (notifier_calls (exec (checkVMStatus env_listed_twice) w1))
        = map da_title (notifier_calls w1) ++ ["🟢 VM Started"%string].
Proof. cbv zeta. repeat split; vm_compute; reflexivity. Qed.

(** A webhook that rejects every POST: the row is written, the stamp is set,
    and nothing but the console differs from the run with a working one. *)
Lemma delivery_failure_contained_witness :
  let env' := with_webhook env webhook_down in
  let w' := exec (checkThresholds_body env' pve1_status cpu_row) seeded in
  (map entry_view (rows (alert_history w'))
   = map entry_view (rows (alert_history seeded))
     ++ [(at_metric cpu_row, currentValue pve1_status (at_metric cpu_row),
          at_threshold cpu_row, threshold_message pve1_status cpu_row)]
   /\ exists n, (clock_reads seeded <= n)%nat
        /\ alertCooldowns w'
           = <[getCooldownKey (ns_node pve1_status) (at_metric cpu_row) := system_clock env n]>
               (alertCooldowns seeded))
  /\ bookkeeping w' = bookkeeping (exec (checkThresholds_body env pve1_status cpu_row) seeded)
  /\ (forall w0, bookkeeping (exec (scheduled_check env') w0)
                 = bookkeeping (exec (scheduled_check env) w0))
  /\ (forall w0, bookkeeping (exec (checkVMStatus env') w0)
                 = bookkeeping (exec (checkVMStatus env) w0)).
Proof.
  apply (delivery_failure_contained env webhook_down pve1_status cpu_row seeded eq_refl eq_refl).
Defined.




(** C9 (the code at the failing input). A cleanup pass at 2026-11-02 12:00:00
    UTC computes the cutoff [2026-10-26T12:00:00.000Z] and compares it, as
    text, with [created_at] values of the form [2026-10-26 18:00:00]: a point
    that is 8 days old is deleted and one that is 6 days old is kept, but a
    point that is 6 days and 18 hours old, written on the calendar day of the
    cutoff, is deleted too although it is younger than 7 days. *)
Theorem cleanupOldHistory_drops_point_of_cutoff_day :
  toISOString (noon - 7 * 24 * 60 * 60 * 1000) = "2026-10-26T12:00:00.000Z"%string
  /\ fst (point_then_cleanup (8 * day_ms)) = "2026-10-25 12:00:00"%string
  /\ snd (point_then_cleanup (8 * day_ms)) = []
  /\ fst (point_then_cleanup (6 * day_ms)) = "2026-10-27 12:00:00"%string
  /\ map point_view (snd (point_then_cleanup (6 * day_ms))) = [("pve1", "cpu", 50%float)]%string
  /\ 6 * day_ms + 18 * hour_ms < 7 * day_ms
  /\ fst (point_then_cleanup (6 * day_ms + 18 * hour_ms)) = "2026-10-26 18:00:00"%string
  /\ snd (point_then_cleanup (6 * day_ms + 18 * hour_ms)) = [].
Proof. repeat split; vm_compute; reflexivity. Qed.

End Witnesses.

(** * Further properties *)

(** ** The order of [created_at] texts *)

Lemma string_compare_refl (s : string) : String.compare s s = Eq.
Proof.
  induction s as [|c s IH]; [reflexivity|].
  cbn. unfold Ascii.compare. now rewrite N.compare_refl.
Qed.

Lemma string_compare_lt_trans (a b c : string) :
  String.compare a b = Lt -> String.compare b c = Lt -> String.compare a c = Lt.
Proof.
  revert b c. induction a as [|x a IH]; intros [|y b] [|z c]; cbn; try discriminate; auto.
  unfold Ascii.compare.
  destruct (N.compare_spec (N_of_ascii x) (N_of_ascii y)) as [Exy|Lxy|Gxy];
    destruct (N.compare_spec (N_of_ascii y) (N_of_ascii z)) as [Eyz|Lyz|Gyz];
    try discriminate; intros Hab Hbc.
  - rewrite Exy, Eyz, N.compare_refl. eapply IH; eassumption.
  - rewrite Exy. now apply N.compare_lt_iff in Lyz as ->.
  - rewrite <- Eyz. now apply N.compare_lt_iff in Lxy as ->.
  - assert (L : (N_of_ascii x < N_of_ascii z)%N) by lia.
    now apply N.compare_lt_iff in L as ->.
Qed.

Lemma ltb_irrefl (s : string) : String.ltb s s = false.
Proof. unfold String.ltb. now rewrite string_compare_refl. Qed.

Lemma ltb_asym (a b : string) : String.ltb a b = true -> String.ltb b a = false.
Proof.
  unfold String.ltb. rewrite (String.compare_antisym b a).
  destruct (String.compare a b); cbn; congruence.
Qed.

(** "Not less" is transitive: the order is total. *)
Lemma ltb_false_trans (a b c : string) :
  String.ltb a b = false -> String.ltb b c = false -> String.ltb a c = false.
Proof.
  unfold String.ltb. intros Hab Hbc.
  destruct (String.compare a c) eqn:Hac; try reflexivity. exfalso.
  destruct (String.compare a b) eqn:Eab; try discriminate.
  - apply String.compare_eq_iff in Eab. subst b. now rewrite Hac in Hbc.
  - assert (Hba : String.compare b a = Lt)
      by (rewrite String.compare_antisym, Eab; reflexivity).
    rewrite (string_compare_lt_trans b a c Hba Hac) in Hbc. discriminate.
Qed.

(** Texts [d1 ++ " " ++ x] and [d2 ++ "T" ++ y] with day parts of one length
    compare by their day parts; on equal days the space sorts first. *)
Lemma day_text_compare (d1 d2 x y : string) :
  String.length d1 = String.length d2 ->
  String.compare (d1 +:+ String " " x) (d2 +:+ String "T" y)
  = match String.compare d1 d2 with Eq => Lt | c => c end.
Proof.
  revert d2. induction d1 as [|c1 d1 IH]; intros [|c2 d2] Hlen; try discriminate Hlen.
  - reflexivity.
  - cbn [String.length] in Hlen.
    change (String.compare (String c1 (d1 +:+ String " " x)) (String c2 (d2 +:+ String "T" y))
            = match String.compare (String c1 d1) (String c2 d2) with Eq => Lt | c => c end).
    cbn [String.compare]. destruct (Ascii.compare c1 c2); try reflexivity.
    apply IH. congruence.
Qed.

(** How SQLite orders a [CURRENT_TIMESTAMP] text and a [toISOString] text:
    by calendar day alone. *)
Lemma sqlite_before_iso (t c : Z) :
  String.length (date_text t) = String.length (date_text c) ->
  String.ltb (sqlite_datetime t) (toISOString c) = negb (String.ltb (date_text c) (date_text t)).
Proof.
  intros Hlen. unfold String.ltb.
  change (sqlite_datetime t) with (date_text t +:+ String " " (time_text t)).
  change (toISOString c)
    with (date_text c +:+ String "T" (time_text c +:+ "." +:+ pad 3 (dec (c mod 1000)) +:+ "Z")).
  rewrite (day_text_compare _ _ _ _ Hlen), (String.compare_antisym (date_text t) (date_text c)).
  destruct (String.compare (date_text c) (date_text t)); reflexivity.
Qed.

Lemma iso_before_sqlite (t c : Z) :
  String.length (date_text t) = String.length (date_text c) ->
  String.ltb (toISOString c) (sqlite_datetime t) = String.ltb (date_text c) (date_text t).
Proof.
  intros Hlen. unfold String.ltb.
  rewrite (String.compare_antisym (toISOString c) (sqlite_datetime t)).
  change (sqlite_datetime t) with (date_text t +:+ String " " (time_text t)).
  change (toISOString c)
    with (date_text c +:+ String "T" (time_text c +:+ "." +:+ pad 3 (dec (c mod 1000)) +:+ "Z")).
  rewrite (day_text_compare _ _ _ _ Hlen), (String.compare_antisym (date_text t) (date_text c)).
  destruct (String.compare (date_text c) (date_text t)); reflexivity.
Qed.

(** ** Reading the alert log *)

Lemma insert_desc_perm r l : Permutation (insert_desc r l) (r :: l).
Proof.
  induction l as [|x l IH]; [reflexivity|]. cbn [insert_desc].
  destruct (String.ltb (ah_created_at r) (ah_created_at x)); [|reflexivity].
  rewrite IH. apply perm_swap.
Qed.

Lemma order_desc_perm l : Permutation (order_by_created_at_desc l) l.
Proof.
  induction l as [|x l IH]; [reflexivity|].
  cbn [order_by_created_at_desc foldr]. fold (order_by_created_at_desc l).
  rewrite insert_desc_perm. now apply perm_skip.
Qed.

Lemma insert_desc_sorted r l :
  StronglySorted not_older l -> StronglySorted not_older (insert_desc r l).
Proof.
  induction l as [|x l IH]; intros Hs; cbn [insert_desc].
  - repeat constructor.
  - apply StronglySorted_inv in Hs as [Hl Hx].
    destruct (String.ltb (ah_created_at r) (ah_created_at x)) eqn:Hlt.
    + constructor; [now apply IH|].
      eapply Permutation_Forall; [symmetry; apply insert_desc_perm|].
      constructor; [|exact Hx]. apply ltb_asym, Hlt.
    + constructor; [now constructor|]. constructor; [exact Hlt|].
      eapply List.Forall_impl; [|exact Hx]. intros y Hy.
      eapply ltb_false_trans; [exact Hlt|exact Hy].
Qed.

Lemma order_desc_sorted l : StronglySorted not_older (order_by_created_at_desc l).
Proof.
  induction l as [|x l IH]; [constructor|].
  cbn [order_by_created_at_desc foldr]. now apply insert_desc_sorted.
Qed.

Lemma sorted_prefix_dominates {A} (R : A -> A -> Prop) (l1 l2 : list A) a b :
  StronglySorted R (l1 ++ l2) -> a ∈ l1 -> b ∈ l2 -> R a b.
Proof.
  induction l1 as [|x l1 IH]; intros Hs Ha Hb; [now apply elem_of_nil in Ha|].
  cbn in Hs. apply StronglySorted_inv in Hs as [Hs Hx].
  apply elem_of_cons in Ha as [->|Ha]; [|now apply IH].
  rewrite List.Forall_forall in Hx. apply Hx, list_elem_of_In, elem_of_app. now right.
Qed.

(** What is left out of the first [n] rows of a sorted list is not newer
    than what is in. *)
Lemma take_sorted_dominates n (l : list AlertHistory) r r' :
  r ∈ take n (order_by_created_at_desc l) -> r' ∈ l ->
  r' ∉ take n (order_by_created_at_desc l) -> not_older r r'.
Proof.
  intros Hr Hr' Hout.
  apply (sorted_prefix_dominates not_older (take n (order_by_created_at_desc l))
           (drop n (order_by_created_at_desc l))); [|exact Hr|].
  - rewrite take_drop. apply order_desc_sorted.
  - assert (Hin : r' ∈ order_by_created_at_desc l).
    { apply list_elem_of_In. eapply Permutation_in; [symmetry; apply order_desc_perm|].
      now apply list_elem_of_In. }
    rewrite <- (take_drop n) in Hin. apply elem_of_app in Hin as [Hin|Hin]; [contradiction|exact Hin].
Qed.

Lemma sublist_sorted {A} (R : A -> A -> Prop) (l1 l2 : list A) :
  sublist l1 l2 -> StronglySorted R l2 -> StronglySorted R l1.
Proof.
  induction 1 as [|x l1 l2 Hsub IH|x l1 l2 Hsub IH]; intros Hs; [constructor| |].
  - apply StronglySorted_inv in Hs as [Hs Hx]. constructor; [now apply IH|].
    rewrite List.Forall_forall in *. intros y Hy. apply Hx, list_elem_of_In.
    eapply elem_of_sublist; [|exact Hsub]. now apply list_elem_of_In.
  - apply StronglySorted_inv in Hs as [Hs _]. now apply IH.
Qed.

(** X1. [getAlertHistory(limit)] returns the newest rows first, at most
    [limit] of them (all of them for a negative limit), each one a row of
    the table, and no row it leaves out is newer than a row it returns. *)
Theorem getAlertHistory_newest_first (limit : option Z) (w : World) :
  let all := rows (alert_history w) in
  let history := eval (getAlertHistory limit) w in
  length history
  = (if default 10 limit <? 0 then length all
     else Nat.min (Z.to_nat (default 10 limit)) (length all))
  /\ StronglySorted not_older history
  /\ (forall r, r ∈ history -> r ∈ all)
  /\ (forall r r', r ∈ history -> r' ∈ all -> r' ∉ history -> not_older r r').
Proof.
  intros all history.
  change history with (sql_limit (default 10 limit) (order_by_created_at_desc all)).
  clear history. unfold sql_limit.
  assert (Hlen : length (order_by_created_at_desc all) = length all)
    by apply Permutation_length, order_desc_perm.
  assert (Hin : forall r, r ∈ order_by_created_at_desc all -> r ∈ all).
  { intros r Hr. apply list_elem_of_In. eapply Permutation_in; [apply order_desc_perm|].
    now apply list_elem_of_In. }
  destruct (default 10 limit <? 0).
  - repeat split; [exact Hlen | apply order_desc_sorted | exact Hin |].
    intros r r' _ Hr' Hout. exfalso. apply Hout, list_elem_of_In.
    eapply Permutation_in; [symmetry; apply order_desc_perm|]. now apply list_elem_of_In.
  - repeat split.
    + now rewrite length_take, Hlen.
    + eapply sublist_sorted; [apply sublist_take | apply order_desc_sorted].
    + intros r Hr. apply Hin. eapply elem_of_sublist; [exact Hr | apply sublist_take].
    + intros r r'. apply take_sorted_dominates.
Qed.

(** X2. [getLastAlert(metric)] returns a row of that metric that no row of
    the metric is newer than, and returns nothing exactly when the table has
    no row of the metric. *)
Theorem getLastAlert_newest (metric : string) (w : World) :
  match eval (getLastAlert metric) w with
  | Some r =>
      r ∈ rows (alert_history w) /\ ah_metric r = metric
      /\ forall r', r' ∈ rows (alert_history w) -> ah_metric r' = metric -> not_older r r'
  | None => forall r', r' ∈ rows (alert_history w) -> ah_metric r' <> metric
  end.
Proof.
  change (eval (getLastAlert metric) w)
    with (head (order_by_created_at_desc
                  (List.filter (fun r => String.eqb (ah_metric r) metric)
                               (rows (alert_history w))))).
  set (of_metric := List.filter (fun r => String.eqb (ah_metric r) metric)
                                (rows (alert_history w))).
  pose proof (order_desc_perm of_metric) as Hperm.
  pose proof (order_desc_sorted of_metric) as Hsorted.
  assert (Hof : forall r, In r of_metric <-> In r (rows (alert_history w)) /\ ah_metric r = metric).
  { intros r. unfold of_metric. rewrite filter_In, String.eqb_eq. reflexivity. }
  destruct (order_by_created_at_desc of_metric) as [|r l] eqn:E; cbn [head].
  - intros r' Hr' Hm. apply Permutation_nil in Hperm.
    assert (Hin : In r' of_metric) by (apply Hof; split; [now apply list_elem_of_In|exact Hm]).
    now rewrite Hperm in Hin.
  - assert (Hr : In r of_metric) by (eapply Permutation_in; [exact Hperm|now left]).
    apply Hof in Hr as [Hr Hm]. split; [now apply list_elem_of_In|]. split; [exact Hm|].
    intros r' Hr' Hm'.
    assert (Hin : In r' (r :: l)).
    { eapply Permutation_in; [symmetry; exact Hperm|].
      apply Hof. split; [now apply list_elem_of_In|exact Hm']. }
    apply StronglySorted_inv in Hsorted as [_ Hall].
    destruct Hin as [<-|Hin]; [apply ltb_irrefl|].
    rewrite List.Forall_forall in Hall. now apply Hall.
Qed.

(** ** Retention *)

Lemma filter_sublist {A} (f : A -> bool) (l : list A) : sublist (List.filter f l) l.
Proof.
  induction l as [|x l IH]; [constructor|]. cbn [List.filter].
  destruct (f x); now constructor.
Qed.

Lemma sublist_full {A} (l1 l2 : list A) :
  sublist l1 l2 -> (length l2 <= length l1)%nat -> l1 = l2.
Proof.
  induction 1 as [|x l1 l2 Hsub IH|x l1 l2 Hsub IH]; cbn; intros Hlen; [reflexivity| |].
  - f_equal. apply IH. lia.
  - apply sublist_length in Hsub. lia.
Qed.

Lemma NoDup_perm {A} (l k : list A) : Permutation l k -> NoDup l -> NoDup k.
Proof.
  intros Hp Hl. apply NoDup_ListNoDup. eapply Permutation_NoDup; [exact Hp|].
  now apply NoDup_ListNoDup.
Qed.

Section Retention.
Context (env : Env).

Lemma cleanup_alert_rows w :
  rows (alert_history (exec (cleanupOldHistory env) w))
  = List.filter (fun r => existsb (Z.eqb (ah_id r)) (newest_ids 1000 (rows (alert_history w))))
                (rows (alert_history w)).
Proof. reflexivity. Qed.

Lemma cleanup_metric_rows w :
  rows (metric_history (exec (cleanupOldHistory env) w))
  = List.filter
      (fun r => negb (String.ltb (mh_created_at r)
                        (toISOString (system_clock env (clock_reads w) - 7 * 24 * 60 * 60 * 1000))))
      (rows (metric_history w)).
Proof. reflexivity. Qed.

(** With unique ids, the rows that pass the [id NOT IN] test are the first
    1000 of the sorted table. *)
Lemma kept_iff_among_newest (l : list AlertHistory) r :
  NoDup (map ah_id l) -> In r l ->
  existsb (Z.eqb (ah_id r)) (newest_ids 1000 l) = true
  <-> In r (take 1000 (order_by_created_at_desc l)).
Proof.
  intros Hnd Hr. unfold newest_ids. rewrite existsb_exists. split.
  - intros (i & Hi & E). apply Z.eqb_eq in E. apply in_map_iff in Hi as (r0 & Hid & Hr0).
    assert (Hr0l : In r0 l).
    { eapply Permutation_in; [apply order_desc_perm|].
      apply list_elem_of_In. eapply elem_of_sublist; [|apply sublist_take].
      apply list_elem_of_In, Hr0. }
    assert (r0 = r) by (eapply NoDup_map_eq; eauto; congruence). now subst.
  - intros Hin. exists (ah_id r). split; [now apply in_map|apply Z.eqb_refl].
Qed.

(** X3. With unique row ids, a cleanup pass leaves the newest 1000 rows of
    [alert_history] (all of them when there are no more), in table order:
    no row it deletes is newer than a row it keeps. *)
Theorem cleanupOldHistory_keeps_newest_1000 (w : World) :
  NoDup (map ah_id (rows (alert_history w))) ->
  let before := rows (alert_history w) in
  let after := rows (alert_history (exec (cleanupOldHistory env) w)) in
  length after = Nat.min 1000 (length before)
  /\ sublist after before
  /\ ((length before <= 1000)%nat -> after = before)
  /\ (forall kept dropped,
        kept ∈ after -> dropped ∈ before -> dropped ∉ after -> not_older kept dropped).
Proof.
  intros Hnd before after. subst after. rewrite cleanup_alert_rows. fold before.
  set (newest := take 1000 (order_by_created_at_desc before)).
  assert (Hkept : forall r, In r (List.filter
                     (fun r => existsb (Z.eqb (ah_id r)) (newest_ids 1000 before)) before)
                   <-> In r newest).
  { intros r. rewrite filter_In. split.
    - intros [Hr Hk]. now apply (kept_iff_among_newest before r Hnd Hr).
    - intros Hr.
      assert (Hrl : In r before).
      { eapply Permutation_in; [apply order_desc_perm|].
        apply list_elem_of_In. eapply elem_of_sublist; [|apply sublist_take].
        apply list_elem_of_In, Hr. }
      split; [exact Hrl|]. now apply (kept_iff_among_newest before r Hnd Hrl). }
  assert (Hlen : length (List.filter
                   (fun r => existsb (Z.eqb (ah_id r)) (newest_ids 1000 before)) before)
                 = Nat.min 1000 (length before)).
  { rewrite <- (Permutation_length (order_desc_perm before)), <- length_take.
    apply Permutation_length, list.NoDup_Permutation.
    - eapply sublist_NoDup; [eapply NoDup_of_map, Hnd | apply filter_sublist].
    - eapply sublist_NoDup; [|apply sublist_take].
      eapply NoDup_perm; [symmetry; apply order_desc_perm|].
      eapply NoDup_of_map, Hnd.
    - intros r. rewrite !list_elem_of_In. apply Hkept. }
  split; [exact Hlen|]. split; [apply filter_sublist|]. split.
  - intros Hsmall. apply sublist_full; [apply filter_sublist|]. rewrite Hlen. lia.
  - intros kept dropped Hk Hd Hout.
    apply (take_sorted_dominates 1000 before); [|exact Hd|].
    + apply list_elem_of_In, Hkept, list_elem_of_In, Hk.
    + intros Hin. apply Hout, list_elem_of_In, Hkept, list_elem_of_In, Hin.
Qed.

(** X4. A cleanup pass decides on a [metric_history] row by calendar day
    alone.  A row stamped by [CURRENT_TIMESTAMP] at time [t] is kept exactly
    when the text of its UTC day sorts after the text of the day of the
    cutoff (seven days before the pass): rows of later days are kept, rows of
    earlier days and every row of the cutoff's own day are deleted. *)
Theorem cleanupOldHistory_by_calendar_day (w : World) (r : MetricHistory) (t : Z) :
  let cutoff := system_clock env (clock_reads w) - 7 * 24 * 60 * 60 * 1000 in
  r ∈ rows (metric_history w) ->
  mh_created_at r = sqlite_datetime t ->
  String.length (date_text t) = String.length (date_text cutoff) ->
  r ∈ rows (metric_history (exec (cleanupOldHistory env) w))
  <-> String.ltb (date_text cutoff) (date_text t) = true.
Proof.
  intros cutoff Hr Hts Hlen. rewrite cleanup_metric_rows. fold cutoff.
  rewrite list_elem_of_In, filter_In, Hts, (sqlite_before_iso t cutoff Hlen), negb_involutive.
  apply list_elem_of_In in Hr. tauto.
Qed.

End Retention.

(** ** Reading the metric history *)

Lemma insert_asc_perm r l : Permutation (insert_asc r l) (r :: l).
Proof.
  induction l as [|x l IH]; [reflexivity|]. cbn [insert_asc].
  destruct (String.ltb (mh_created_at x) (mh_created_at r)); [|reflexivity].
  rewrite IH. apply perm_swap.
Qed.

Lemma order_asc_perm l : Permutation (order_by_created_at_asc l) l.
Proof.
  induction l as [|x l IH]; [reflexivity|].
  cbn [order_by_created_at_asc foldr]. fold (order_by_created_at_asc l).
  rewrite insert_asc_perm. now apply perm_skip.
Qed.

Lemma insert_asc_sorted r l :
  StronglySorted not_later l -> StronglySorted not_later (insert_asc r l).
Proof.
  induction l as [|x l IH]; intros Hs; cbn [insert_asc].
  - repeat constructor.
  - apply StronglySorted_inv in Hs as [Hl Hx].
    destruct (String.ltb (mh_created_at x) (mh_created_at r)) eqn:Hlt.
    + constructor; [now apply IH|].
      eapply Permutation_Forall; [symmetry; apply insert_asc_perm|].
      constructor; [|exact Hx]. apply ltb_asym, Hlt.
    + constructor; [now constructor|]. constructor; [exact Hlt|].
      eapply List.Forall_impl; [|exact Hx]. intros y Hy. unfold not_later in *.
      eapply ltb_false_trans; [exact Hy|exact Hlt].
Qed.

Lemma order_asc_sorted l : StronglySorted not_later (order_by_created_at_asc l).
Proof.
  induction l as [|x l IH]; [constructor|].
  cbn [order_by_created_at_asc foldr]. now apply insert_asc_sorted.
Qed.

(** X5. [getMetricHistory(node, metric, hours)] returns, oldest first, rows of
    that node and metric only; and it selects by calendar day alone: a row
    stamped by [CURRENT_TIMESTAMP] at time [t] is returned exactly when the
    text of its UTC day sorts after the text of the day of [now - hours], so
    no row written on that day itself is returned, however recent. *)
Theorem getMetricHistory_after_cutoff_day (env : Env) (node metric : string)
    (hours : option Z) (w : World) :
  let since := system_clock env (clock_reads w) - default 24 hours * 60 * 60 * 1000 in
  let result := eval (getMetricHistory env node metric hours) w in
  StronglySorted not_later result
  /\ (forall r, r ∈ result ->
        r ∈ rows (metric_history w) /\ mh_node r = node /\ mh_metric r = metric)
  /\ (forall r t,
        r ∈ rows (metric_history w) ->
        mh_created_at r = sqlite_datetime t ->
        String.length (date_text t) = String.length (date_text since) ->
        r ∈ result
        <-> mh_node r = node /\ mh_metric r = metric
            /\ String.ltb (date_text since) (date_text t) = true).
Proof.
  intros since result.
  change result with (order_by_created_at_asc
    (List.filter (fun r => String.eqb (mh_node r) node && String.eqb (mh_metric r) metric
                           && String.ltb (toISOString since) (mh_created_at r))
                 (rows (metric_history w)))).
  clear result.
  set (sel := List.filter _ _).
  assert (Hsel : forall r, In r (order_by_created_at_asc sel)
            <-> In r (rows (metric_history w))
                /\ mh_node r = node /\ mh_metric r = metric
                /\ String.ltb (toISOString since) (mh_created_at r) = true).
  { intros r. split.
    - intros Hr. apply (Permutation_in _ (order_asc_perm sel)) in Hr.
      unfold sel in Hr. rewrite filter_In, !andb_true_iff, !String.eqb_eq in Hr. tauto.
    - intros Hr. apply (Permutation_in _ (Permutation_sym (order_asc_perm sel))).
      unfold sel. rewrite filter_In, !andb_true_iff, !String.eqb_eq. tauto. }
  split; [apply order_asc_sorted|]. split.
  - intros r Hr. apply list_elem_of_In, Hsel in Hr. rewrite list_elem_of_In. tauto.
  - intros r t Hr Hts Hlen. rewrite list_elem_of_In, Hsel, Hts, (iso_before_sqlite t since Hlen).
    apply list_elem_of_In in Hr. tauto.
Qed.

(** ** The threshold table *)

Section Thresholds.
Context (env : Env).

Lemma insert_or_ignore_rows metric threshold enabled w :
  exists created_at,
    alert_thresholds (exec (insert_or_ignore_threshold env metric threshold enabled) w)
    = if existsb (fun r => String.eqb (at_metric r) metric) (rows (alert_thresholds w))
      then alert_thresholds w
      else insert_row (fun id => {| at_id := id; at_metric := metric;
                                    at_threshold := threshold; at_enabled := enabled;
                                    at_created_at := created_at |})
                      (alert_thresholds w).
Proof.
  unfold insert_or_ignore_threshold. rewrite exec_bind. cbn beta.
  change (eval (gets (fun w0 => rows (alert_thresholds w0))) w) with (rows (alert_thresholds w)).
  change (exec (gets (fun w0 => rows (alert_thresholds w0))) w) with w.
  destruct (existsb _ _); [exists EmptyString; reflexivity|].
  eexists. destruct w. reflexivity.
Qed.

Lemma existsb_metric (metric : string) (l : list AlertThreshold) :
  existsb (fun r => String.eqb (at_metric r) metric) l = true <-> In metric (map at_metric l).
Proof.
  rewrite existsb_exists, in_map_iff. split.
  - intros (r & Hr & E). apply String.eqb_eq in E. eauto.
  - intros (r & E & Hr). exists r. split; [exact Hr|]. now apply String.eqb_eq.
Qed.

(** One [INSERT OR IGNORE]: the rows stay, and the metric has a row after. *)
Lemma insert_or_ignore_spec metric threshold enabled w :
  exists added,
    rows (alert_thresholds (exec (insert_or_ignore_threshold env metric threshold enabled) w))
    = rows (alert_thresholds w) ++ added
    /\ Forall (fun r => (at_metric r, at_threshold r, at_enabled r) = (metric, threshold, enabled)
                        /\ ~ In metric (threshold_metrics w)) added
    /\ In metric (threshold_metrics
                    (exec (insert_or_ignore_threshold env metric threshold enabled) w)).
Proof.
  destruct (insert_or_ignore_rows metric threshold enabled w) as (ts & E).
  unfold threshold_metrics. rewrite E.
  destruct (existsb _ _) eqn:Hex.
  - exists []. rewrite app_nil_r. repeat split; [constructor|now apply existsb_metric].
  - eexists [_]. cbn. split; [reflexivity|]. split.
    + constructor; [|constructor]. cbn. split; [reflexivity|].
      intros Hin. apply existsb_metric in Hin. congruence.
    + rewrite map_app. apply in_or_app. right. now left.
Qed.

Lemma initDatabase_thresholds w :
  alert_thresholds (exec (initDatabase env) w)
  = alert_thresholds
      (exec (insert_or_ignore_threshold env "disk" 90%float 1)
         (exec (insert_or_ignore_threshold env "memory" 85%float 1)
            (exec (insert_or_ignore_threshold env "cpu" 80%float 1) w))).
Proof. reflexivity. Qed.

(** X6. [initDatabase] never changes or removes a row of [alert_thresholds]:
    it only appends, with its default threshold and enabled, a row for each
    of cpu, memory and disk that had none; afterwards each of the three has a
    row.  So the thresholds an operator has set survive a restart. *)
Theorem initDatabase_keeps_rows (w : World) :
  let w' := exec (initDatabase env) w in
  exists added,
    rows (alert_thresholds w') = rows (alert_thresholds w) ++ added
    /\ Forall (fun r => In (at_metric r, at_threshold r, at_enabled r)
                           [("cpu"%string, 80%float, 1); ("memory"%string, 85%float, 1);
                            ("disk"%string, 90%float, 1)]
                        /\ ~ In (at_metric r) (threshold_metrics w)) added
    /\ In "cpu"%string (threshold_metrics w')
    /\ In "memory"%string (threshold_metrics w')
    /\ In "disk"%string (threshold_metrics w').
Proof.
  intros w'. subst w'. unfold threshold_metrics. rewrite initDatabase_thresholds.
  set (w1 := exec (insert_or_ignore_threshold env "cpu" 80%float 1) w).
  set (w2 := exec (insert_or_ignore_threshold env "memory" 85%float 1) w1).
  destruct (insert_or_ignore_spec "cpu" 80%float 1 w) as (a1 & E1 & F1 & I1).
  destruct (insert_or_ignore_spec "memory" 85%float 1 w1) as (a2 & E2 & F2 & I2).
  destruct (insert_or_ignore_spec "disk" 90%float 1 w2) as (a3 & E3 & F3 & I3).
  fold w1 in E1, I1. fold w2 in E2, I2. unfold threshold_metrics in *.
  exists (a1 ++ a2 ++ a3). rewrite E3, E2, E1, <- !app_assoc. split; [reflexivity|].
  split.
  - rewrite !Forall_app. repeat split.
    + eapply List.Forall_impl; [|exact F1]. cbn. intros r [E Hr].
      assert (Em : at_metric r = "cpu"%string) by congruence.
      split; [rewrite E; auto|]. now rewrite Em.
    + eapply List.Forall_impl; [|exact F2]. cbn. intros r [E Hr].
      assert (Em : at_metric r = "memory"%string) by congruence.
      split; [rewrite E; auto|].
      rewrite Em. intros Hin. apply Hr. rewrite E1, map_app.
      apply in_or_app. now left.
    + eapply List.Forall_impl; [|exact F3]. cbn. intros r [E Hr].
      assert (Em : at_metric r = "disk"%string) by congruence.
      split; [rewrite E; auto 6|].
      rewrite Em. intros Hin. apply Hr. rewrite E2, E1, !map_app.
      apply in_or_app. left. apply in_or_app. now left.
  - rewrite E3, E2, E1 in I3. rewrite E2, E1 in I2. rewrite E1 in I1.
    rewrite !map_app, !in_app_iff in *. tauto.
Qed.

End Thresholds.

(** ** Invariants of the database *)

Lemma table_ok_insert {A} (id : A -> Z) (mk : Z -> A) (t : Table A) :
  (forall i, id (mk i) = i) -> table_ok id t -> table_ok id (insert_row mk t).
Proof.
  intros Hid (H0 & Hs & Hb). unfold table_ok, insert_row. cbn [rows seq].
  rewrite map_app. cbn [map]. rewrite Hid. split; [lia|]. split.
  - induction (map id (rows t)) as [|x l IH]; cbn [app].
    + repeat constructor.
    + apply StronglySorted_inv in Hs as [Hl Hx]. apply Forall_cons in Hb as [Hx1 Hb].
      constructor; [now apply IH|]. apply Forall_app. split; [exact Hx|].
      constructor; [lia|constructor].
  - apply Forall_app. split.
    + eapply List.Forall_impl; [|exact Hb]. cbn. lia.
    + constructor; [lia|constructor].
Qed.

Lemma sorted_filter_map {A} (id : A -> Z) (f : A -> bool) (l : list A) :
  StronglySorted Z.lt (map id l) -> StronglySorted Z.lt (map id (List.filter f l)).
Proof.
  induction l as [|x l IH]; cbn [List.filter map]; intros Hs; [constructor|].
  apply StronglySorted_inv in Hs as [Hl Hx].
  destruct (f x); [|now apply IH]. cbn [map]. constructor; [now apply IH|].
  rewrite List.Forall_forall in *. intros i Hi. apply Hx.
  rewrite in_map_iff in *. destruct Hi as (r & E & Hr). apply filter_In in Hr. exists r. tauto.
Qed.

Lemma table_ok_filter {A} (id : A -> Z) (f : A -> bool) (t : Table A) :
  table_ok id t -> table_ok id (set_rows (List.filter f (rows t)) t).
Proof.
  intros (H0 & Hs & Hb). unfold table_ok, set_rows. cbn [rows seq].
  split; [exact H0|]. split; [now apply sorted_filter_map|].
  rewrite List.Forall_forall in *. intros i Hi. apply Hb.
  rewrite in_map_iff in *. destruct Hi as (r & E & Hr). apply filter_In in Hr. exists r. tauto.
Qed.

Lemma table_ok_map {A} (id : A -> Z) (f : A -> A) (t : Table A) :
  (forall r, id (f r) = id r) -> table_ok id t -> table_ok id (set_rows (map f (rows t)) t).
Proof.
  intros Hid Ht. unfold table_ok, set_rows in *. cbn [rows seq].
  rewrite List.map_map. rewrite (map_ext _ id Hid). exact Ht.
Qed.

Lemma db_ok_set_alert_thresholds w t :
  table_ok at_id t -> db_ok w -> db_ok (set_alert_thresholds t w).
Proof. intros Ht (_ & Ha & Hm). destruct w. split; [exact Ht|]. split; [exact Ha|exact Hm]. Qed.

Lemma db_ok_set_alert_history w t :
  table_ok ah_id t -> db_ok w -> db_ok (set_alert_history t w).
Proof. intros Ht (Hth & _ & Hm). destruct w. split; [exact Hth|]. split; [exact Ht|exact Hm]. Qed.

Lemma db_ok_set_metric_history w t :
  table_ok mh_id t -> db_ok w -> db_ok (set_metric_history t w).
Proof. intros Ht (Hth & Ha & _). destruct w. split; [exact Hth|]. split; [exact Ha|exact Ht]. Qed.

Ltac db_leaf :=
  let w := fresh "w" in
  let Hw := fresh "Hw" in
  intros w Hw;
  first
    [ apply db_ok_set_alert_thresholds; [|exact Hw];
      destruct Hw as (? & _ & _);
      first [ apply table_ok_insert; [reflexivity | assumption]
            | apply table_ok_map; [intros ?; destruct (String.eqb _ _); reflexivity | assumption] ]
    | apply db_ok_set_alert_history; [|exact Hw];
      destruct Hw as (_ & ? & _);
      first [ apply table_ok_insert; [reflexivity | assumption]
            | apply table_ok_filter; assumption ]
    | apply db_ok_set_metric_history; [|exact Hw];
      destruct Hw as (_ & _ & ?);
      first [ apply table_ok_insert; [reflexivity | assumption]
            | apply table_ok_filter; assumption ]
    | destruct w; exact Hw ].

Ltac metrics_leaf :=
  let w := fresh "w" in
  let Hw := fresh "Hw" in
  intros w Hw;
  first
    [ destruct w; exact Hw
    | destruct w; unfold threshold_metrics in *; cbn [alert_thresholds set_alert_thresholds rows set_rows] in *;
      rewrite List.map_map; rewrite <- Hw; apply map_ext; intros ?;
      destruct (String.eqb _ _); reflexivity ].

Section Invariants.
Context `{JSHost} (env : Env).

Lemma initDatabase_db_ok : preserves db_ok (initDatabase env).
Proof. repeat (pres_step db_leaf). Qed.

Lemma run_op_db_ok op : preserves db_ok (run_op env op).
Proof. destruct op; repeat (pres_step db_leaf). Qed.

Lemma run_op_metrics l op :
  preserves (fun w => threshold_metrics w = l) (run_op env op).
Proof. destruct op; repeat (pres_step metrics_leaf). Qed.

Lemma fresh_world_db_ok : db_ok fresh_world.
Proof. repeat split; cbn; try lia; constructor. Qed.

Lemma sorted_lt_NoDup (l : list Z) : StronglySorted Z.lt l -> NoDup l.
Proof.
  induction 1 as [|x l Hl IH Hx]; constructor; [|exact IH].
  intros Hin. apply list_elem_of_In in Hin. rewrite List.Forall_forall in Hx.
  specialize (Hx x Hin). lia.
Qed.

Lemma table_later_refl {A} (id : A -> Z) (old : A -> Prop) (t : Table A) :
  (forall r, In r (rows t) -> old r) -> table_later id old t t.
Proof.
  intros Hold. split; [lia|]. apply List.Forall_forall. intros r Hr. left. now apply Hold.
Qed.

Lemma table_later_insert {A} (id : A -> Z) old (mk : Z -> A) (t1 t2 : Table A) :
  (forall i, id (mk i) = i) ->
  table_later id old t1 t2 -> table_later id old t1 (insert_row mk t2).
Proof.
  intros Hid [Hs Hr]. unfold table_later, insert_row. cbn [rows seq]. split; [lia|].
  apply Forall_app. split; [exact Hr|]. constructor; [|constructor]. right. rewrite Hid. lia.
Qed.

Lemma table_later_filter {A} (id : A -> Z) old (f : A -> bool) (t1 t2 : Table A) :
  table_later id old t1 t2 -> table_later id old t1 (set_rows (List.filter f (rows t2)) t2).
Proof.
  intros [Hs Hr]. split; [exact Hs|]. cbn [rows set_rows].
  rewrite List.Forall_forall in *. intros r Hin. apply filter_In in Hin as [Hin _]. auto.
Qed.

Lemma table_later_map {A} (id : A -> Z) old (f : A -> A) (t1 t2 : Table A) :
  (forall r, id (f r) = id r) -> (forall r, old r -> old (f r)) ->
  table_later id old t1 t2 -> table_later id old t1 (set_rows (map f (rows t2)) t2).
Proof.
  intros Hid Hold [Hs Hr]. split; [exact Hs|]. cbn [rows set_rows].
  rewrite List.Forall_forall in *. intros r Hin. apply in_map_iff in Hin as (r0 & <- & Hin).
  rewrite Hid. destruct (Hr r0 Hin); auto.
Qed.

Lemma db_later_set_alert_thresholds w1 w t :
  table_later at_id (fun r => In (at_id r) (map at_id (rows (alert_thresholds w1))))
              (alert_thresholds w1) t ->
  db_later w1 w -> db_later w1 (set_alert_thresholds t w).
Proof. intros Ht (_ & Ha & Hm). destruct w. split; [exact Ht|]. split; [exact Ha|exact Hm]. Qed.

Lemma db_later_set_alert_history w1 w t :
  table_later ah_id (fun r => In r (rows (alert_history w1))) (alert_history w1) t ->
  db_later w1 w -> db_later w1 (set_alert_history t w).
Proof. intros Ht (Hth & _ & Hm). destruct w. split; [exact Hth|]. split; [exact Ht|exact Hm]. Qed.

Lemma db_later_set_metric_history w1 w t :
  table_later mh_id (fun r => In r (rows (metric_history w1))) (metric_history w1) t ->
  db_later w1 w -> db_later w1 (set_metric_history t w).
Proof. intros Ht (Hth & Ha & _). destruct w. split; [exact Hth|]. split; [exact Ha|exact Ht]. Qed.

Ltac later_leaf :=
  let w := fresh "w" in
  let Hw := fresh "Hw" in
  intros w Hw;
  first
    [ apply db_later_set_alert_thresholds; [|exact Hw];
      destruct Hw as (? & _ & _);
      first [ apply table_later_insert; [reflexivity | assumption]
            | apply table_later_map;
              [ intros ?; destruct (String.eqb _ _); reflexivity
              | intros ? ?; destruct (String.eqb _ _); assumption
              | assumption ] ]
    | apply db_later_set_alert_history; [|exact Hw];
      destruct Hw as (_ & ? & _);
      first [ apply table_later_insert; [reflexivity | assumption]
            | apply table_later_filter; assumption ]
    | apply db_later_set_metric_history; [|exact Hw];
      destruct Hw as (_ & _ & ?);
      first [ apply table_later_insert; [reflexivity | assumption]
            | apply table_later_filter; assumption ]
    | destruct w; exact Hw ].

Lemma run_op_db_later w1 op : preserves (db_later w1) (run_op env op).
Proof. destruct op; repeat (pres_step later_leaf). Qed.

Lemma db_later_refl w : db_later w w.
Proof.
  repeat split; try lia; apply List.Forall_forall; intros r Hr; left;
    [now apply in_map | exact Hr | exact Hr].
Qed.

(** X7. From a fresh database, after [initDatabase] and any sequence of the
    bot's operations, each table's ids are pairwise distinct, increasing in
    insertion order, positive and not above the table's AUTOINCREMENT counter.
    And an id is never reused: over any further operations the counter of a
    table does not go down, and a row of the later table either was in the
    earlier table (for [alert_thresholds]: has an id of the earlier table) or
    carries an id above the earlier counter, that is, above every id handed
    out until then, those of rows deleted since included. *)
Theorem row_ids_never_reused (ops further : list Op) :
  let w1 := exec (run env ops) (exec (initDatabase env) fresh_world) in
  let w2 := exec (run env further) w1 in
  (db_ok w1
   /\ NoDup (map at_id (rows (alert_thresholds w1)))
   /\ NoDup (map ah_id (rows (alert_history w1)))
   /\ NoDup (map mh_id (rows (metric_history w1))))
  /\ (seq (alert_thresholds w1) <= seq (alert_thresholds w2)
      /\ forall r, r ∈ rows (alert_thresholds w2) ->
           at_id r ∈ map at_id (rows (alert_thresholds w1))
           \/ seq (alert_thresholds w1) < at_id r)
  /\ (seq (alert_history w1) <= seq (alert_history w2)
      /\ forall r, r ∈ rows (alert_history w2) ->
           r ∈ rows (alert_history w1) \/ seq (alert_history w1) < ah_id r)
  /\ (seq (metric_history w1) <= seq (metric_history w2)
      /\ forall r, r ∈ rows (metric_history w2) ->
           r ∈ rows (metric_history w1) \/ seq (metric_history w1) < mh_id r).
Proof.
  intros w1 w2.
  assert (Hok : db_ok w1).
  { apply (preserves_forEach db_ok ops (run_op env) (run_op_db_ok)).
    apply initDatabase_db_ok, fresh_world_db_ok. }
  assert (Hl : db_later w1 w2).
  { apply (preserves_forEach (db_later w1) further (run_op env) (run_op_db_later w1)).
    apply db_later_refl. }
  split.
  { split; [exact Hok|].
    destruct Hok as ((_ & H1 & _) & (_ & H2 & _) & (_ & H3 & _)).
    auto using sorted_lt_NoDup. }
  destruct Hl as ((S1 & F1) & (S2 & F2) & (S3 & F3)).
  rewrite List.Forall_forall in F1, F2, F3.
  repeat split; try assumption; intros r Hr; apply list_elem_of_In in Hr.
  - destruct (F1 r Hr) as [Hold|Hnew]; [left; now apply list_elem_of_In|now right].
  - destruct (F2 r Hr) as [Hold|Hnew]; [left; now apply list_elem_of_In|now right].
  - destruct (F3 r Hr) as [Hold|Hnew]; [left; now apply list_elem_of_In|now right].
Qed.

(** X8. From a fresh database, after [initDatabase] and any sequence of the
    bot's operations, [alert_thresholds] holds exactly one row for each of
    cpu, memory and disk, in this order, and no other row: no operation adds
    or removes a threshold. *)
Theorem thresholds_are_the_three_metrics (ops : list Op) :
  threshold_metrics (exec (run env ops) (exec (initDatabase env) fresh_world))
  = ["cpu"; "memory"; "disk"]%string.
Proof.
  apply (preserves_forEach (fun w => threshold_metrics w = ["cpu"; "memory"; "disk"]%string)
           ops (run_op env) (run_op_metrics _)).
  reflexivity.
Qed.

End Invariants.

(** ** Updating a threshold *)

Lemma find_map_same {A} (p : A -> bool) (f : A -> A) (l : list A) :
  (forall r, p (f r) = p r) ->
  List.find p (map f l) = option_map f (List.find p l).
Proof.
  intros Hp. induction l as [|x l IH]; [reflexivity|].
  cbn [map List.find]. rewrite Hp. destruct (p x); [reflexivity|exact IH].
Qed.

Lemma updateAlertThreshold_stores (metric : string) (threshold : float) (enabled : bool)
    (w : World) :
  PrimFloat.is_nan threshold
  && existsb (fun r => String.eqb (at_metric r) metric) (rows (alert_thresholds w)) = false ->
  eval (updateAlertThreshold metric threshold enabled) w = Fulfilled tt
  /\ exec (updateAlertThreshold metric threshold enabled) w
     = set_alert_thresholds
         (set_rows
            (map (fun r => if String.eqb (at_metric r) metric
                           then {| at_id := at_id r; at_metric := at_metric r;
                                   at_threshold := threshold;
                                   at_enabled := if enabled then 1 else 0;
                                   at_created_at := at_created_at r |}
                           else r)
                 (rows (alert_thresholds w)))
            (alert_thresholds w)) w.
Proof. intros Hok. destruct w. run_m. cbn in Hok. now rewrite Hok. Qed.

Lemma updateAlertThreshold_refuses (metric : string) (threshold : float) (enabled : bool)
    (w : World) :
  PrimFloat.is_nan threshold
  && existsb (fun r => String.eqb (at_metric r) metric) (rows (alert_thresholds w)) = true ->
  eval (updateAlertThreshold metric threshold enabled) w
  = Rejected (SqliteError "NOT NULL constraint failed: alert_thresholds.threshold")
  /\ exec (updateAlertThreshold metric threshold enabled) w = w.
Proof. intros Hno. destruct w. run_m. cbn in Hno. now rewrite Hno. Qed.

Lemma find_existsb {A} (p : A -> bool) (l : list A) r :
  List.find p l = Some r -> existsb p l = true.
Proof.
  intros Hf. apply find_some in Hf as [Hin Hp]. apply existsb_exists. eauto.
Qed.

Lemma updateAlertThreshold_reads (metric : string) (threshold : float)
    (enabled : bool) (w : World) (row : AlertThreshold) :
  PrimFloat.is_nan threshold = false ->
  eval (getAlertThreshold metric) w = Some row ->
  eval (getAlertThreshold metric) (exec (updateAlertThreshold metric threshold enabled) w)
  = Some {| at_id := at_id row; at_metric := metric; at_threshold := threshold;
            at_enabled := if enabled then 1 else 0;
            at_created_at := at_created_at row |}.
Proof.
  intros Hnum Hrow.
  destruct (updateAlertThreshold_stores metric threshold enabled w) as [_ ->];
    [now rewrite Hnum|].
  destruct w as [c e th ah mh cfg nc wp con cr ar]. run_m. cbn.
  set (f := fun r : AlertThreshold => if String.eqb (at_metric r) metric then _ else r).
  assert (Hm : forall r, at_metric (f r) = at_metric r).
  { intros r. unfold f. destruct (String.eqb _ _); reflexivity. }
  rewrite find_map_same by (intros r; now rewrite Hm).
  rewrite Hrow. cbn [option_map]. apply find_some in Hrow as [_ E].
  unfold f. rewrite E. apply String.eqb_eq in E. now rewrite E.
Qed.


(** * Further properties of [proxmox.ts] *)

Section ProxmoxProperties.
Context `{JSHost} (env : Env).

(** ** The inventory *)

Lemma insert_by_vmid_perm v l : Permutation (insert_by_vmid v l) (v :: l).
Proof.
  induction l as [|x l IH]; [reflexivity|]. cbn [insert_by_vmid].
  destruct (vm_vmid v <=? vm_vmid x); [reflexivity|].
  rewrite IH. apply perm_swap.
Qed.

Lemma sort_by_vmid_perm l : Permutation (sort_by_vmid l) l.
Proof.
  induction l as [|x l IH]; [reflexivity|].
  cbn [sort_by_vmid foldr]. fold (sort_by_vmid l).
  rewrite insert_by_vmid_perm. now apply perm_skip.
Qed.

Lemma insert_by_vmid_sorted v l :
  StronglySorted by_vmid l -> StronglySorted by_vmid (insert_by_vmid v l).
Proof.
  induction l as [|x l IH]; intros Hs; cbn [insert_by_vmid].
  - repeat constructor.
  - apply StronglySorted_inv in Hs as [Hl Hx].
    destruct (Z.leb_spec (vm_vmid v) (vm_vmid x)) as [Hle|Hgt].
    + constructor; [now constructor|]. constructor; [exact Hle|].
      eapply List.Forall_impl; [|exact Hx]. unfold by_vmid. intros; lia.
    + constructor; [now apply IH|].
      eapply Permutation_Forall; [symmetry; apply insert_by_vmid_perm|].
      constructor; [unfold by_vmid; lia|exact Hx].
Qed.

Lemma sort_by_vmid_sorted l : StronglySorted by_vmid (sort_by_vmid l).
Proof.
  induction l as [|x l IH]; [constructor|].
  cbn [sort_by_vmid foldr]. now apply insert_by_vmid_sorted.
Qed.

Lemma getVMs_body_eval node acc w :
  eval (getVMs_body env node acc) w = acc ++ fetched_vms env (api_rounds w) node.
Proof.
  unfold fetched_vms. destruct w. run_m.
  destruct (Promise_all2 _ _ _) as [[qemu lxc]|e]; cbn; [reflexivity|now rewrite app_nil_r].
Qed.

Lemma getVMs_loop_eval targets acc w :
  eval (forAcc targets (getVMs_body env) acc) w
  = acc ++ fetched_from env (api_rounds w) targets.
Proof.
  revert acc w. induction targets as [|node rest IH]; intros acc w.
  - cbn. now rewrite app_nil_r.
  - rewrite eval_forAcc_cons, IH, getVMs_body_eval.
    destruct (getVMs_body_effect env node acc w) as (-> & _).
    cbn [fetched_from]. now rewrite app_assoc.
Qed.

Lemma getVMs_eval nodeName w :
  eval (getVMs env nodeName) w
  = sort_by_vmid (fetched_from env (api_rounds w) (target_nodes env nodeName)).
Proof.
  unfold getVMs. fold (target_nodes env nodeName).
  repeat (rewrite eval_bind; cbn beta). repeat (rewrite exec_bind; cbn beta).
  rewrite eval_ret, getVMs_loop_eval. reflexivity.
Qed.

(** X10. [getVMs] returns the workloads listed by the nodes it asks (the named
    node, or every configured node), each as often as it is listed, in
    ascending order of vmid; a node one of whose two listings fails
    contributes none and the others are still returned. *)
Theorem getVMs_sorted_inventory (nodeName : option string) (w : World) :
  let vms := eval (getVMs env nodeName) w in
  StronglySorted by_vmid vms
  /\ Permutation vms (fetched_from env (api_rounds w) (target_nodes env nodeName)).
Proof.
  intros vms. subst vms. rewrite getVMs_eval. split.
  - apply sort_by_vmid_sorted.
  - apply sort_by_vmid_perm.
Qed.

Lemma filter_insert_by_vmid (vmid : Z) v l :
  List.filter (fun vm => vm_vmid vm =? vmid) (insert_by_vmid v l)
  = List.filter (fun vm => vm_vmid vm =? vmid) (v :: l).
Proof.
  induction l as [|x l IH]; [reflexivity|]. cbn [insert_by_vmid].
  destruct (Z.leb_spec (vm_vmid v) (vm_vmid x)) as [Hle|Hgt]; [reflexivity|].
  cbn [List.filter] in *. rewrite IH.
  destruct (Z.eqb_spec (vm_vmid v) vmid), (Z.eqb_spec (vm_vmid x) vmid);
    try reflexivity. lia.
Qed.

Lemma filter_sort_by_vmid (vmid : Z) l :
  List.filter (fun vm => vm_vmid vm =? vmid) (sort_by_vmid l)
  = List.filter (fun vm => vm_vmid vm =? vmid) l.
Proof.
  induction l as [|x l IH]; [reflexivity|].
  cbn [sort_by_vmid foldr]. fold (sort_by_vmid l).
  rewrite filter_insert_by_vmid. cbn [List.filter]. now rewrite IH.
Qed.

Lemma find_head_filter {A} (p : A -> bool) (l : list A) :
  List.find p l = head (List.filter p l).
Proof.
  induction l as [|x l IH]; [reflexivity|]. cbn [List.find List.filter].
  destruct (p x); [reflexivity|exact IH].
Qed.

(** X11. [getVM(vmid, nodeName)] returns the first workload with that vmid in
    the order the nodes are asked and list them (a node's QEMU machines
    before its containers), and null when no node lists one: the sort by
    vmid does not change which of several workloads of one vmid is found. *)
Theorem getVM_first_listed (vmid : Z) (nodeName : option string) (w : World) :
  eval (getVM env vmid nodeName) w
  = List.find (fun vm => vm_vmid vm =? vmid)
              (fetched_from env (api_rounds w) (target_nodes env nodeName)).
Proof.
  unfold getVM. rewrite eval_bind, eval_ret, getVMs_eval.
  now rewrite !find_head_filter, filter_sort_by_vmid.
Qed.

(** ** Looking a node up by its own name *)

Lemma getNode_configured node :
  NoDup (lowered_names env) ->
  pn_name node <> EmptyString ->
  node ∈ nodes env ->
  getNode env (Some (pn_name node)) = Some node.
Proof.
  unfold lowered_names, getNode. intros Hnd Hne Hin.
  assert (Ht : truthy_opt (Some (pn_name node)) = true).
  { cbn. destruct (pn_name node); [contradiction|reflexivity]. }
  rewrite Ht. cbn [negb].
  change (default EmptyString (Some (pn_name node))) with (pn_name node).
  induction (nodes env) as [|x l IH]; [now apply elem_of_nil in Hin|].
  cbn [map] in Hnd. apply NoDup_cons in Hnd as [Hx Hl].
  cbn [List.find]. apply elem_of_cons in Hin as [->|Hin].
  - now rewrite String.eqb_refl.
  - destruct (String.eqb_spec (toLowerCase (pn_name x)) (toLowerCase (pn_name node))) as [E|_].
    + exfalso. apply Hx. rewrite E. apply list_elem_of_In.
      apply (in_map (fun n => toLowerCase (pn_name n))). now apply list_elem_of_In.
    + now apply IH.
Qed.

(** X12. When the configured node names are non-empty and pairwise different
    also when lower-cased, the batch of [getAllNodesStatus] has one entry for
    each node whose own status request is answered, in configuration order
    and under the configured name; the other nodes are left out. *)
Theorem getAllNodesStatus_one_entry_per_node (w : World) :
  NoDup (lowered_names env) ->
  Forall (fun node => pn_name node <> EmptyString) (nodes env) ->
  map ns_node (eval (getAllNodesStatus env) w)
  = map pn_name (List.filter (status_ok env (api_rounds w)) (nodes env)).
Proof.
  intros Hnd Hne. rewrite getAllNodesStatus_eval. unfold fulfilled_values.
  assert (Hself : forall node, node ∈ nodes env ->
                    getNode env (Some (pn_name node)) = Some node).
  { intros node Hin. apply getNode_configured; [exact Hnd| |exact Hin].
    rewrite Forall_forall in Hne. now apply Hne. }
  clear Hne Hnd.
  induction (nodes env) as [|x l IH]; [reflexivity|].
  cbn [map omap list_omap List.filter].
  assert (Hx : getNode env (Some (pn_name x)) = Some x) by (apply Hself; left).
  assert (Hl : forall node, node ∈ l -> getNode env (Some (pn_name node)) = Some node).
  { intros node Hin. apply Hself. now right. }
  specialize (IH Hl). unfold getNodeStatus at 1. rewrite Hx. unfold status_ok at 1.
  destruct (api_status env (api_rounds w) x); cbn; rewrite ?IH; reflexivity.
Qed.

(** ** Testing a connection *)

(** X13. [testNodeConnection] reports success exactly when the node is found
    and both of its listings are answered, then with their two lengths; a
    failure carries an error text and no counts.  Unlike [getVMs] it records
    no error in the error map and writes nothing to the console. *)
Theorem testNodeConnection_report (nodeName : option string) (w : World) :
  let report := eval (testNodeConnection env nodeName) w in
  let w' := exec (testNodeConnection env nodeName) w in
  (ct_success report = true
   <-> exists node qemu lxc,
         getNode env nodeName = Some node
         /\ api_qemu env (api_rounds w) node = HttpOk qemu
         /\ api_lxc env (api_rounds w) node = HttpOk lxc
         /\ ct_node report = pn_name node
         /\ ct_qemuCount report = Some (Z.of_nat (length qemu))
         /\ ct_lxcCount report = Some (Z.of_nat (length lxc)))
  /\ (ct_success report = true <-> ct_error report = None)
  /\ (ct_success report = false ->
        ct_qemuCount report = None /\ ct_lxcCount report = None)
  /\ lastNodeErrors w' = lastNodeErrors w
  /\ console w' = console w.
Proof.
  intros report w'. subst report w'. unfold testNodeConnection.
  destruct (getNode env nodeName) as [node|].
  2:{ cbn. repeat split; try discriminate. intros (? & ? & ? & [=] & _). }
  destruct w as [c e th ah mh cfg nc wp con cr ar]. run_m. cbn.
  destruct (api_qemu env ar node) as [qemu| | |] eqn:Eq,
           (api_lxc env ar node) as [lxc| | |] eqn:El; cbn;
    repeat split; try discriminate; try reflexivity;
    try (intros (? & ? & ? & _ & _ & _ & _ & [=] & _)).
  intros _. exists node, qemu, lxc. auto 10.
Qed.

End ProxmoxProperties.

(** ** Rendering an uptime *)

Lemma dec_positive_digit (z : Z) :
  0 < z -> exists c s, dec z = String c s /\ c <> "<"%char.
Proof.
  destruct z as [|p|p]; try lia. intros _. unfold dec. cbn [Z.to_int NilZero.string_of_int].
  pose proof (DecimalPos.Unsigned.to_uint_nonnil p) as Hnil.
  destruct (Pos.to_uint p); [contradiction|..]; cbn; eexists _, _; (split; [reflexivity|discriminate]).
Qed.

Lemma concat_head (sep x : string) (l : list string) c s :
  x = String c s -> exists s', String.concat sep (x :: l) = String c s'.
Proof. intros ->. destruct l; cbn; eauto. Qed.

Lemma part_head (z : Z) (unit : string) (l : list string) :
  0 < z -> exists c s, String.concat " " ((dec z +:+ unit) :: l) = String c s /\ c <> "<"%char.
Proof.
  intros Hz. destruct (dec_positive_digit z Hz) as (c & s & E & Hc).
  destruct (concat_head " " (dec z +:+ unit) l c (s +:+ unit)) as (s' & E').
  { rewrite E. reflexivity. }
  eauto.
Qed.

Lemma concat_nonempty (sep x : string) (l : list string) c s :
  x = String c s -> truthy_string (String.concat sep (x :: l)) = true.
Proof. intros E. destruct (concat_head sep x l c s E) as (s' & ->). reflexivity. Qed.

(** X14. On a whole number of seconds from 0 to below 2^53, [formatUptime]
    shows the uptime split in days, hours below 24 and minutes below 60, the
    rest being less than a minute: the numbers that are not zero, each with
    its letter [d], [h] or [m], separated by blanks.  It answers [< 1m]
    exactly when the input is below sixty seconds. *)
Theorem formatUptime_days_hours_minutes (seconds : Z) :
  0 <= seconds < 2 ^ 53 ->
  (exists d h m rest,
     seconds = d * 86400 + h * 3600 + m * 60 + rest
     /\ 0 <= d /\ 0 <= h < 24 /\ 0 <= m < 60 /\ 0 <= rest < 60
     /\ formatUptime seconds = Some (uptime_text d h m))
  /\ (formatUptime seconds = Some "< 1m"%string <-> seconds < 60).
Proof.
  intros Hrange.
  assert (Habs : (Z.abs seconds <? 2 ^ 53) = true) by (apply Z.ltb_lt; lia).
  assert (Hd : 0 <= uptime_days seconds
               /\ 0 <= uptime_hours seconds < 24
               /\ 0 <= uptime_minutes seconds < 60
               /\ 0 <= seconds - (uptime_days seconds * 86400 + uptime_hours seconds * 3600
                                  + uptime_minutes seconds * 60) < 60).
  { unfold uptime_days, uptime_hours, uptime_minutes.
    Z.to_euclidean_division_equations. lia. }
  destruct Hd as (Hd0 & Hh & Hm & Hrest).
  assert (Htext : formatUptime seconds
                  = Some (uptime_text (uptime_days seconds) (uptime_hours seconds)
                                      (uptime_minutes seconds))).
  { unfold formatUptime, uptime_text. rewrite Habs. cbv zeta. f_equal.
    cbn [omap list_omap fst snd].
    destruct (Z.ltb_spec 0 (uptime_days seconds)) as [Pd|Pd];
    destruct (Z.ltb_spec 0 (uptime_hours seconds)) as [Ph|Ph];
    destruct (Z.ltb_spec 0 (uptime_minutes seconds)) as [Pm|Pm];
    repeat match goal with
           | |- context [?z =? 0] =>
               first [ replace (z =? 0) with false by (symmetry; apply Z.eqb_neq; lia)
                     | replace (z =? 0) with true by (symmetry; apply Z.eqb_eq; lia) ]
           end;
    cbn [app];
    try (match goal with
         | |- context [String.concat _ ((dec ?z +:+ ?u) :: ?l)] =>
             let Hz := fresh in
             assert (Hz : 0 < z) by assumption;
             destruct (dec_positive_digit z Hz) as (c & s0 & E & _);
             rewrite (concat_nonempty " " (dec z +:+ u) l c (s0 +:+ u))
               by (rewrite E; reflexivity)
         end; reflexivity).
    reflexivity. }
  split.
  - exists (uptime_days seconds), (uptime_hours seconds), (uptime_minutes seconds),
      (seconds - (uptime_days seconds * 86400 + uptime_hours seconds * 3600
                  + uptime_minutes seconds * 60)).
    repeat split; try lia. exact Htext.
  - unfold formatUptime. rewrite Habs. cbv zeta.
    destruct (Z.ltb_spec 0 (uptime_days seconds)) as [Pd|Pd];
    destruct (Z.ltb_spec 0 (uptime_hours seconds)) as [Ph|Ph];
    destruct (Z.ltb_spec 0 (uptime_minutes seconds)) as [Pm|Pm];
    cbn [app];
    try (match goal with
         | |- context [String.concat _ ((dec ?z +:+ ?u) :: ?l)] =>
             let Hz := fresh in
             assert (Hz : 0 < z) by assumption;
             destruct (part_head z u l Hz) as (c & s & -> & Hc)
         end;
         cbn [truthy_string]; split; [intros [= E _]; congruence|];
         unfold uptime_days, uptime_hours, uptime_minutes in *;
         intros; exfalso; Z.to_euclidean_division_equations; lia).
    cbn. split; [|reflexivity]. intros _.
    unfold uptime_days, uptime_hours, uptime_minutes in *.
    Z.to_euclidean_division_equations. lia.
Qed.

(** * Further properties of the alert engine *)

Section AlertProperties.
Context `{JSHost} (env : Env).

(** ** Alerts raised and alerts archived *)

Lemma checkThresholds_body_raised status threshold w :
  exists fired,
    raised fired w (exec (checkThresholds_body env status threshold) w)
    /\ sublist fired [(status, threshold)]
    /\ Forall (fun p => breaches (fst p) (snd p) = true) fired.
Proof.
  destruct (checkThresholds_body_effect env status threshold w) as (f & R & S & B & _).
  eauto.
Qed.

Lemma inner_loop_raised status thresholds w :
  exists fired,
    raised fired w
      (exec (forEach thresholds (fun threshold => checkThresholds_body env status threshold)) w)
    /\ sublist fired (map (fun threshold => (status, threshold)) thresholds)
    /\ Forall (fun p => breaches (fst p) (snd p) = true) fired.
Proof.
  revert w. induction thresholds as [|t l IH]; intros w.
  - exists []. split; [apply raised_nil|]. split; [constructor|constructor].
  - rewrite exec_forEach_cons.
    destruct (checkThresholds_body_raised status t w) as (f1 & R1 & S1 & B1).
    destruct (IH (exec (checkThresholds_body env status t) w)) as (f2 & R2 & S2 & B2).
    exists (f1 ++ f2). split; [eapply raised_app; eassumption|]. split.
    + cbn [map]. apply (sublist_app f1 [(status, t)] f2 _ S1 S2).
    + apply Forall_app. auto.
Qed.

Lemma checkThresholds_loop_raised batch thresholds w :
  exists fired,
    raised fired w (exec (checkThresholds_loop env batch thresholds) w)
    /\ sublist fired (list_prod batch thresholds)
    /\ Forall (fun p => breaches (fst p) (snd p) = true) fired.
Proof.
  unfold checkThresholds_loop. revert w. induction batch as [|s l IH]; intros w.
  - exists []. split; [apply raised_nil|]. split; [constructor|constructor].
  - rewrite exec_forEach_cons.
    destruct (inner_loop_raised s thresholds w) as (f1 & R1 & S1 & B1).
    destruct (IH (exec (forEach thresholds
                          (fun threshold => checkThresholds_body env s threshold)) w))
      as (f2 & R2 & S2 & B2).
    exists (f1 ++ f2). split; [eapply raised_app; eassumption|]. split.
    + cbn [list_prod]. now apply sublist_app.
    + apply Forall_app. auto.
Qed.

(** X15. One pass of [checkThresholds] raises its alerts for some of the
    (node status, threshold row) pairs of its batch and of the threshold
    table, each pair at most once and in loop order, and only for enabled rows
    whose value reaches the threshold.  For exactly these pairs, in the same
    order, it appends one [alert_history] row and makes one Notifier call:
    no alert is sent without being archived, none archived without being
    sent.  Thresholds, metric history, stored snapshot and error map are
    left as they were. *)
Theorem checkThresholds_archives_what_it_sends (w : World) :
  exists fired,
    raised fired w (exec (checkThresholds env) w)
    /\ sublist fired (list_prod (eval (getAllNodesStatus env) w) (rows (alert_thresholds w)))
    /\ Forall (fun p => breaches (fst p) (snd p) = true) fired.
Proof.
  rewrite checkThresholds_unfold.
  destruct (checkThresholds_loop_raised (eval (getAllNodesStatus env) w)
              (rows (alert_thresholds w)) (exec (getAllNodesStatus env) w))
    as (fired & R & S & B).
  exists fired. split; [|split; assumption].
  rewrite getAllNodesStatus_exec in R. destruct w. exact R.
Qed.

(** ** What is posted to the webhook *)

Lemma sendDiscordAlert_mirrors title description color :
  preserves (posts_mirror_calls env) (sendDiscordAlert env title description color).
Proof.
  intros w. unfold posts_mirror_calls. destruct w. run_m.
  destruct (truthy_string (DISCORD_WEBHOOK_URL env)); cbn.
  - intros E.
    match goal with
    | |- context [webhook_fetch env ?i] => destruct (webhook_fetch env i)
    end; cbn; rewrite map_app, E; reflexivity.
  - auto.
Qed.

Ltac mirror_leaf :=
  let w := fresh "w" in
  let Hw := fresh "Hw" in
  intros w Hw; destruct w; exact Hw.

Ltac mirror := repeat first [apply sendDiscordAlert_mirrors | pres_step mirror_leaf].

Lemma run_op_mirrors op : preserves (posts_mirror_calls env) (run_op env op).
Proof. destruct op; mirror. Qed.

(** X16. From a fresh process, after [initDatabase] and any sequence of the
    bot's operations: with a webhook URL configured, the embeds posted to it
    are exactly the alerts handed to [sendDiscordAlert], one POST per alert
    and in the same order, whatever the webhook answered; with no URL
    configured, nothing was ever posted. *)
Theorem one_post_per_alert (ops : list Op) :
  let w := exec (run env ops) (exec (initDatabase env) fresh_world) in
  if truthy_string (DISCORD_WEBHOOK_URL env)
  then map wp_embed (webhook_posts w) = notifier_calls w
  else webhook_posts w = [].
Proof.
  apply (preserves_forEach (posts_mirror_calls env) ops (run_op env) run_op_mirrors).
  unfold posts_mirror_calls. cbn. now destruct (truthy_string _).
Qed.

(** ** A stored snapshot that does not parse *)

Lemma checkVMStatus_corrupt w :
  previous_snapshot w = None ->
  exec (checkVMStatus env) w
  = exec (console_out ERROR ["Error checking VM status:"%string; "SyntaxError"%string])
         (exec (getVMs env None) w).
Proof.
  intros Hprev. unfold checkVMStatus.
  rewrite exec_bind, exec_bind.
  change (eval (getConfig "vm_states") (exec (getVMs env None) w))
    with (bot_config (exec (getVMs env None) w) !! "vm_states"%string).
  change (exec (getConfig "vm_states") (exec (getVMs env None) w))
    with (exec (getVMs env None) w).
  rewrite getVMs_bot_config. unfold previous_snapshot in Hprev. rewrite Hprev.
  reflexivity.
Qed.

Lemma checkVMStatus_keeps_corrupt cfg :
  (forall w, bot_config w = cfg -> previous_snapshot w = None) ->
  preserves (fun w => bot_config w = cfg) (checkVMStatus env).
Proof.
  intros Hc w Hw. rewrite (checkVMStatus_corrupt w (Hc w Hw)).
  change (bot_config (exec (getVMs env None) w) = cfg).
  now rewrite getVMs_bot_config.
Qed.

Ltac config_leaf :=
  let w := fresh "w" in
  let Hw := fresh "Hw" in
  intros w Hw; destruct w; exact Hw.

Lemma run_op_keeps_corrupt cfg op :
  (forall w, bot_config w = cfg -> previous_snapshot w = None) ->
  preserves (fun w => bot_config w = cfg) (run_op env op).
Proof.
  intros Hc.
  destruct op; cbn [run_op];
    repeat lazymatch goal with
      | |- preserves _ (checkVMStatus _) => now apply checkVMStatus_keeps_corrupt
      | |- preserves _ (scheduled_check _) => unfold scheduled_check
      | |- preserves _ (initial_collection _) => unfold initial_collection
      | |- preserves _ (_ ≫= _) => apply preserves_bind; [|intros ?]
      | |- _ => pres_step config_leaf
      end.
Qed.

(** X17. When the stored [vm_states] text does not parse, [checkVMStatus]
    sends no alert and does not rewrite the text; no other operation writes
    it either.  So after any sequence of the bot's operations the text is
    still the one that does not parse, and the detector still reports
    nothing: workload alerts stay off until the entry is repaired from
    outside. *)
Theorem corrupt_snapshot_is_never_repaired (w : World) (ops : list Op) :
  previous_snapshot w = None ->
  let w' := exec (run env ops) w in
  bot_config w' = bot_config w
  /\ previous_snapshot w' = None
  /\ notifier_calls (exec (checkVMStatus env) w') = notifier_calls w'.
Proof.
  intros Hprev w'.
  assert (Hc : forall w0, bot_config w0 = bot_config w -> previous_snapshot w0 = None).
  { intros w0 E. unfold previous_snapshot in *. now rewrite E. }
  assert (Hcfg : bot_config w' = bot_config w).
  { apply (preserves_forEach (fun w0 => bot_config w0 = bot_config w) ops (run_op env)
             (fun op => run_op_keeps_corrupt _ op Hc)).
    reflexivity. }
  split; [exact Hcfg|]. split; [now apply Hc|].
  rewrite (checkVMStatus_corrupt w' (Hc w' Hcfg)).
  change (notifier_calls (exec (getVMs env None) w') = notifier_calls w').
  apply getVMs_notifier_calls.
Qed.

(** ** A value that is no number *)

Lemma collectMetrics_body_result status w :
  eval (collectMetrics_body env status) w
  = (if forallb (fun p => negb (PrimFloat.is_nan (snd p))) (points_of status)
     then Fulfilled tt
     else Rejected (SqliteError "NOT NULL constraint failed: metric_history.value"))
  /\ console (exec (collectMetrics_body env status) w) = console w
  /\ alert_history (exec (collectMetrics_body env status) w) = alert_history w
  /\ notifier_calls (exec (collectMetrics_body env status) w) = notifier_calls w.
Proof.
  destruct w. unfold collectMetrics_body, and_then, addMetricHistory, points_of.
  cbn [forallb snd].
  destruct (PrimFloat.is_nan (ns_cpu status)); [run_m; auto|].
  destruct (PrimFloat.is_nan (percent (ns_memory status))); [run_m; auto|].
  destruct (PrimFloat.is_nan (percent (ns_disk status))); run_m; auto.
Qed.

Lemma collect_loop_result batch w :
  eval (tryEach batch (collectMetrics_body env)) w
  = (if forallb (fun p => negb (PrimFloat.is_nan (snd p))) (flat_map points_of batch)
     then Fulfilled tt
     else Rejected (SqliteError "NOT NULL constraint failed: metric_history.value"))
  /\ console (exec (tryEach batch (collectMetrics_body env)) w) = console w
  /\ alert_history (exec (tryEach batch (collectMetrics_body env)) w) = alert_history w
  /\ notifier_calls (exec (tryEach batch (collectMetrics_body env)) w) = notifier_calls w.
Proof.
  revert w. induction batch as [|status batch IH]; intros w; [cbn; auto|].
  cbn [tryEach flat_map]. unfold and_then. rewrite eval_bind, exec_bind. cbn beta.
  destruct (collectMetrics_body_result status w) as (-> & Hc & Ha & Hn).
  rewrite forallb_app.
  destruct (forallb _ (points_of status)); cbn [andb].
  - destruct (IH (exec (collectMetrics_body env status) w)) as (-> & Hc' & Ha' & Hn').
    rewrite Hc', Ha', Hn'. auto.
  - rewrite eval_ret, exec_ret. auto.
Qed.

(** X23. [collectMetrics] writes the points of its batch in order, cpu,
    memory and disk of one node after the other, up to the first value that
    is not a number (a memory of 0 of 0 bytes gives one): there the INSERT
    throws, the remaining points of the node and all points of the later
    nodes are not written, and one error line goes to the console.  With
    numbers only, every point is written and nothing is printed.  Alert
    history and Notifier are not touched. *)
Theorem collectMetrics_stops_at_first_nan (w : World) :
  let points := flat_map points_of (eval (getAllNodesStatus env) w) in
  let w' := exec (collectMetrics env) w in
  map point_view (rows (metric_history w'))
  = map point_view (rows (metric_history w)) ++ written_prefix points
  /\ (forall p, p ∈ written_prefix points -> PrimFloat.is_nan (snd p) = false)
  /\ (written_prefix points = points
      <-> forallb (fun p => negb (PrimFloat.is_nan (snd p))) points = true)
  /\ console w'
     = console w
       ++ (if forallb (fun p => negb (PrimFloat.is_nan (snd p))) points then []
           else [{| ll_level := ERROR;
                    ll_args := ["Error collecting metrics:";
                                "SqliteError: NOT NULL constraint failed: metric_history.value"]
                 |}])%string
  /\ alert_history w' = alert_history w
  /\ notifier_calls w' = notifier_calls w.
Proof.
  intros points w'. split; [apply collectMetrics_points|].
  split; [|split].
  - intros p. induction points as [|q l IH]; cbn [written_prefix]; [intros Hp; inversion Hp|].
    destruct (PrimFloat.is_nan (snd q)) eqn:Hq; [intros Hp; inversion Hp|].
    intros Hp. apply elem_of_cons in Hp as [->|Hp]; [exact Hq|now apply IH].
  - induction points as [|q l IH]; cbn [written_prefix forallb]; [tauto|].
    destruct (PrimFloat.is_nan (snd q)); cbn [negb andb]; [split; discriminate|].
    rewrite <- IH. split; [intros [= E]; exact E|intros ->; reflexivity].
  - subst w'. unfold collectMetrics. rewrite exec_bind. cbn beta. rewrite exec_bind. cbn beta.
    set (wa := exec (getAllNodesStatus env) w).
    destruct (collect_loop_result (eval (getAllNodesStatus env) w) wa) as (-> & Hc & Ha & Hn).
    fold points. destruct (forallb _ points).
    + rewrite exec_ret, Hc, Ha, Hn, app_nil_r. destruct w; auto.
    + set (wl := exec (tryEach _ _) wa) in *.
      change (console (exec (console_out ?lv ?args) wl)) with (console wl ++ [{| ll_level := lv; ll_args := args |}]).
      change (alert_history (exec (console_out ?lv ?args) wl)) with (alert_history wl).
      change (notifier_calls (exec (console_out ?lv ?args) wl)) with (notifier_calls wl).
      rewrite Hc, Ha, Hn. destruct w; auto.
Qed.

End AlertProperties.

(** * The [/setalert] command *)

Section CommandProperties.
Context `{JSHost}.
Variable toUpperCase : string -> string.


End CommandProperties.

(** * Other commands of the front end *)

Section FrontEndProperties.
Context `{JSHost} (env : Env).

(** ** [/alerts history] *)

Lemma order_desc_cons_nonempty r l : order_by_created_at_desc (r :: l) <> [].
Proof.
  intros E. pose proof (order_desc_perm (r :: l)) as P. rewrite E in P.
  now apply Permutation_nil in P.
Qed.

(** X19. [handleAlertsHistory] answers [No alerts] on an empty history and
    throws as soon as the history has a row: it reads the property
    [timestamp], which no row of [alert_history] has (the column is
    [created_at]), so it builds an invalid date and [toISOString] throws a
    RangeError.  The command therefore never lists an alert. *)
Theorem handleAlertsHistory_throws_on_any_alert
    (Date_parse : string -> option Z) (TimeClip : float -> option Z) (w : World) :
  eval (handleAlertsHistory env Date_parse TimeClip) w
  = match rows (alert_history w) with
    | [] => Fulfilled {| eb_title := "Alert History"; eb_color := 0x2f3136;
                         eb_timestamp := system_clock env (clock_reads w);
                         eb_description := Some "No alerts"%string |}
    | _ :: _ => Rejected {| err_name := "RangeError"; err_message := "Invalid time value" |}
    end.
Proof.
  unfold handleAlertsHistory. rewrite eval_bind. cbn beta.
  change (exec (getAlertHistory (Some 10)) w) with w.
  change (eval (getAlertHistory (Some 10)) w)
    with (take 10 (order_by_created_at_desc (rows (alert_history w)))).
  rewrite eval_bind. cbn beta.
  change (eval (Date_now env) w) with (system_clock env (clock_reads w)).
  destruct (rows (alert_history w)) as [|r l]; [reflexivity|].
  pose proof (order_desc_cons_nonempty r l) as Hne.
  destruct (order_by_created_at_desc (r :: l)) as [|h t]; [contradiction|].
  reflexivity.
Qed.

(** ** [/testproxmox] *)

Lemma setColor_twice c e : setColor c (setColor c e) = setColor c e.
Proof. reflexivity. Qed.

Lemma handleTestProxmox_body_eval name results embed w :
  eval (handleTestProxmox_body env name (results, embed)) w
  = (results ++ [connection_line name (eval (testNodeConnection env (Some name)) w)],
     if ct_success (eval (testNodeConnection env (Some name)) w)
     then embed else setColor 0xff0000 embed)
  /\ exec (handleTestProxmox_body env name (results, embed)) w
     = exec (testNodeConnection env (Some name)) w.
Proof.
  unfold handleTestProxmox_body. rewrite eval_bind, exec_bind. cbn beta.
  unfold connection_line.
  destruct (eval (testNodeConnection env (Some name)) w) as [n s t q l e].
  cbn. destruct s; cbn; [auto|]. destruct e; auto.
Qed.

Lemma handleTestProxmox_loop names results embed w :
  eval (forAcc names (handleTestProxmox_body env) (results, embed)) w
  = (results ++ zip_with connection_line names (connection_reports env names w),
     if forallb ct_success (connection_reports env names w)
     then embed else setColor 0xff0000 embed).
Proof.
  revert results embed w. induction names as [|name rest IH]; intros results embed w.
  - cbn. now rewrite app_nil_r.
  - rewrite eval_forAcc_cons.
    destruct (handleTestProxmox_body_eval name results embed w) as [-> ->].
    rewrite IH. cbn [connection_reports zip_with forallb]. rewrite <- app_assoc. cbn [app].
    f_equal.
    destruct (ct_success (eval (testNodeConnection env (Some name)) w)); cbn [andb];
      [reflexivity|].
    now destruct (forallb _ _).
Qed.

(** X20. With at least one node configured, the card of [handleTestProxmox]
    has one line per configured node name, in order.  The line of a node that
    answered never shows the measured response time or the number of
    workloads: the handler reads [responseTime], [vmCount] and [cfAccess],
    which the report does not have, so the line always reads
    [undefinedms │ undefined VMs │ CF: No].  The line of a failed node shows
    its error text, and the card is red exactly when some node failed. *)
Theorem handleTestProxmox_shows_no_measurement (w : World) :
  nodes env <> [] ->
  let names := getNodeNames env in
  let reports := connection_reports env names (exec (Date_now env) w) in
  let card := eval (handleTestProxmox env) w in
  eb_description card
  = Some (String.concat lf (zip_with connection_line names reports))
  /\ eb_color card = (if forallb ct_success reports then 0x2f3136 else 0xff0000)
  /\ length reports = length (nodes env).
Proof.
  intros Hne names reports card. subst card. unfold handleTestProxmox.
  rewrite eval_bind. cbn beta. fold names.
  assert (Hlen : (length names =? 0)%nat = false).
  { unfold names, getNodeNames. rewrite length_map. destruct (nodes env); [contradiction|reflexivity]. }
  rewrite Hlen, eval_bind, eval_ret, handleTestProxmox_loop. fold reports.
  cbn [fst snd app]. split; [reflexivity|]. split.
  - now destruct (forallb ct_success reports).
  - unfold reports, names, getNodeNames. rewrite <- (length_map pn_name (nodes env)).
    generalize (exec (Date_now env) w). induction (map pn_name (nodes env)) as [|n l IH];
      intros w0; [reflexivity|]. cbn [connection_reports length]. now rewrite IH.
Qed.

(** ** [formatBytes] *)

(** X21. [formatBytes] divides by 1024 until the number is below 1024 or the
    unit is TB: the unit shown is the first of B, KB, MB, GB, TB for which the
    scaled number is below 1024 (TB when there is none), and the number shown
    is the byte count divided that many times.  Four rounds of the loop are
    all it can take. *)
Theorem formatBytes_smallest_unit (bytes : float) :
  exists i,
    (i <= 4)%nat
    /\ formatBytes bytes = toFixed1 (scaled bytes i) +:+ " " +:+ nth i units EmptyString
    /\ (forall j, (j < i)%nat -> float_ge (scaled bytes j) 1024%float = true)
    /\ ((i < 4)%nat -> float_ge (scaled bytes i) 1024%float = false)
    /\ (forall fuel, (4 <= fuel)%nat ->
          formatBytes_loop fuel bytes 0 = (scaled bytes i, i)).
Proof.
  assert (Hfuel : forall fuel v i, (4 <= i)%nat -> formatBytes_loop fuel v i = (v, i)).
  { intros [|fuel] v i Hi; [reflexivity|]. cbn [formatBytes_loop units length Nat.sub].
    destruct (Nat.ltb_spec i 4); [lia|]. now rewrite andb_false_r. }
  assert (Hstep : forall fuel v i, (i < 4)%nat ->
            formatBytes_loop (S fuel) v i
            = if float_ge v 1024%float
              then formatBytes_loop fuel (PrimFloat.div v 1024%float) (S i) else (v, i)).
  { intros fuel v i Hi. cbn [formatBytes_loop units length Nat.sub].
    destruct (Nat.ltb_spec i 4); [|lia]. now rewrite andb_true_r. }
  assert (Hmain : exists i,
            (i <= 4)%nat
            /\ (forall j, (j < i)%nat -> float_ge (scaled bytes j) 1024%float = true)
            /\ ((i < 4)%nat -> float_ge (scaled bytes i) 1024%float = false)
            /\ (forall fuel, (4 <= fuel)%nat ->
                  formatBytes_loop fuel bytes 0 = (scaled bytes i, i))).
  { destruct (float_ge (scaled bytes 0) 1024%float) eqn:E0.
    2:{ exists 0%nat. split; [lia|]. split; [intros j Hj; lia|].
        split; [intros _; exact E0|].
        intros [|fuel] Hf; [lia|]. cbv [scaled Nat.iter nat_rect] in *.
        rewrite Hstep by lia. now rewrite E0. }
    destruct (float_ge (scaled bytes 1) 1024%float) eqn:E1.
    2:{ exists 1%nat. split; [lia|].
        split; [intros [|j] Hj; [exact E0|lia]|].
        split; [intros _; exact E1|].
        intros [|[|fuel]] Hf; try lia. cbv [scaled Nat.iter nat_rect] in *.
        rewrite Hstep by lia. rewrite E0. rewrite Hstep by lia. now rewrite E1. }
    destruct (float_ge (scaled bytes 2) 1024%float) eqn:E2.
    2:{ exists 2%nat. split; [lia|].
        split; [intros [|[|j]] Hj; [exact E0|exact E1|lia]|].
        split; [intros _; exact E2|].
        intros [|[|[|fuel]]] Hf; try lia. cbv [scaled Nat.iter nat_rect] in *.
        rewrite Hstep by lia. rewrite E0. rewrite Hstep by lia. rewrite E1.
        rewrite Hstep by lia. now rewrite E2. }
    destruct (float_ge (scaled bytes 3) 1024%float) eqn:E3.
    2:{ exists 3%nat. split; [lia|].
        split; [intros [|[|[|j]]] Hj; [exact E0|exact E1|exact E2|lia]|].
        split; [intros _; exact E3|].
        intros [|[|[|[|fuel]]]] Hf; try lia. cbv [scaled Nat.iter nat_rect] in *.
        rewrite Hstep by lia. rewrite E0. rewrite Hstep by lia. rewrite E1.
        rewrite Hstep by lia. rewrite E2. rewrite Hstep by lia. now rewrite E3. }
    exists 4%nat. split; [lia|].
    split; [intros [|[|[|[|j]]]] Hj; [exact E0|exact E1|exact E2|exact E3|lia]|].
    split; [intros Hi; lia|].
    intros [|[|[|[|fuel]]]] Hf; try lia. cbv [scaled Nat.iter nat_rect] in *.
    rewrite Hstep by lia. rewrite E0. rewrite Hstep by lia. rewrite E1.
    rewrite Hstep by lia. rewrite E2. rewrite Hstep by lia. rewrite E3.
    apply Hfuel. lia. }
  destruct Hmain as (i & Hi & Hj & Hlt & Hfu). exists i.
  split; [exact Hi|]. split; [|auto].
  unfold formatBytes. change (length units - 1)%nat with 4%nat.
  rewrite (Hfu 4%nat) by lia.
  rewrite (nth_indep units "undefined"%string EmptyString) by (cbn; lia).
  reflexivity.
Qed.

End FrontEndProperties.

(** * The further properties on the scenarios *)

Section MoreWitnesses.
Import Scenario MoreScenario.
#[local] Existing Instance Scenario.host.

(** Three archived alerts with the ids 1, 2 and 3: the pass keeps them all. *)
Lemma cleanupOldHistory_keeps_newest_1000_witness :
  let before := rows (alert_history three_alerts) in
  let after := rows (alert_history (exec (cleanupOldHistory env) three_alerts)) in
  length after = Nat.min 1000 (length before)
  /\ sublist after before
  /\ ((length before <= 1000)%nat -> after = before)
  /\ (forall kept dropped,
        kept ∈ after -> dropped ∈ before -> dropped ∉ after -> not_older kept dropped).
Proof.
  apply (cleanupOldHistory_keeps_newest_1000 env three_alerts).
  refine (bool_decide_unpack _ _). vm_compute. exact I.
Defined.

(** The point is 6 days and 18 hours old, but of the cutoff's day: its day
    text does not sort after the cutoff's, and the pass deletes it. *)
Lemma cleanupOldHistory_by_calendar_day_witness :
  let cutoff := noon - 7 * 24 * 60 * 60 * 1000 in
  the_point ∈ rows (metric_history (exec (cleanupOldHistory (env_point_aged stale_age)) one_point))
  <-> String.ltb (date_text cutoff) (date_text (noon - stale_age)) = true.
Proof.
  apply (cleanupOldHistory_by_calendar_day (env_point_aged stale_age) one_point the_point
           (noon - stale_age)).
  - vm_compute. left.
  - vm_compute. reflexivity.
  - vm_compute. reflexivity.
Defined.

(** Of the two nodes only [pve1] answers: the batch is its entry alone. *)
Lemma getAllNodesStatus_one_entry_per_node_witness :
  map ns_node (eval (getAllNodesStatus two_nodes) seeded)
  = map pn_name (List.filter (status_ok two_nodes (api_rounds seeded)) (nodes two_nodes)).
Proof.
  apply (getAllNodesStatus_one_entry_per_node two_nodes seeded).
  - refine (bool_decide_unpack _ _). vm_compute. exact I.
  - repeat constructor; discriminate.
Defined.

(** A text that is no JSON stays in place over a scheduled check and a run
    of the detector. *)
Lemma corrupt_snapshot_is_never_repaired_witness :
  let w' := exec (run env [OpScheduledCheck; OpCheckVMStatus]) corrupt_states in
  bot_config w' = bot_config corrupt_states
  /\ previous_snapshot w' = None
  /\ notifier_calls (exec (checkVMStatus env) w') = notifier_calls w'.
Proof.
  apply (corrupt_snapshot_is_never_repaired env corrupt_states
           [OpScheduledCheck; OpCheckVMStatus]).
  vm_compute. reflexivity.
Defined.


(** One day, two hours and three minutes, and 4 seconds that are not shown. *)
Lemma formatUptime_days_hours_minutes_witness :
  (exists d h m rest,
     93784 = d * 86400 + h * 3600 + m * 60 + rest
     /\ 0 <= d /\ 0 <= h < 24 /\ 0 <= m < 60 /\ 0 <= rest < 60
     /\ formatUptime 93784 = Some (uptime_text d h m))
  /\ (formatUptime 93784 = Some "< 1m"%string <-> 93784 < 60)
  /\ formatUptime 93784 = Some "1d 2h 3m"%string.
Proof.
  destruct (formatUptime_days_hours_minutes 93784) as [Hparts Hminute]; [lia|].
  split; [exact Hparts|]. split; [exact Hminute|]. vm_compute. reflexivity.
Defined.

(** One node is configured, and it answers. *)
Lemma handleTestProxmox_shows_no_measurement_witness :
  let names := getNodeNames env in
  let reports := connection_reports env names (exec (Date_now env) seeded) in
  let card := eval (handleTestProxmox env) seeded in
  eb_description card
  = Some (String.concat lf (zip_with connection_line names reports))
  /\ eb_color card = (if forallb ct_success reports then 0x2f3136 else 0xff0000)
  /\ length reports = length (nodes env).
Proof.
  apply (handleTestProxmox_shows_no_measurement env seeded).
  discriminate.
Defined.

End MoreWitnesses.
